(** * libmelee: the Slippi event-stream decoder of [melee/console.py]

    A shallow embedding of [Console.step], the event dispatcher
    [Console.__handle_slippstream_events] and the record decoders it calls
    ([__game_start], [__pre_frame], [__post_frame], [__frame_bookend],
    [__item_update]), and of the decoder of the menu screens
    [Console.__handle_slippstream_menu_event], followed by the properties of
    the decoders.

    Conventions of the embedding.
    - A [bytes] object is a [list byte]; [np.ndarray((1,), fmt, buf, off)[0]]
      is one of the readers [read_u8], [read_u16], [read_i32], [read_f32],
      which raise [TypeError] when the buffer is too short, as NumPy does.
    - A NumPy [float32] scalar is held as the binary64 float with the same
      value ([PrimFloat.float]). Arithmetic and comparisons follow the
      promotion rules of NumPy 1.x: between two [float32] scalars they are
      binary32 operations, between a [float32] scalar and a Python number
      they are binary64 operations.
    - Integers are [Z]; under the same rules arithmetic between a NumPy
      integer scalar and a Python int is 64-bit and never wraps here.
    - [GameState] objects live in a heap and are named by references: the
      console keeps a reference to the previous snapshot, and the snapshot
      under construction may be that very object.
    - A Python exception that leaves the decoder is the result [Raise e]; the
      state of the console after such an exception is not described. *)

From Stdlib Require Import ZArith List Bool Lia Sorted Strings.Byte Floats.
From stdpp Require Import base option list gmap.
Import ListNotations.

Local Open Scope Z_scope.

(** ** Exceptions and results *)

Inductive exn : Type :=
  | TypeError
  | ValueError
  | OverflowError
  | KeyError
  | IndexError
  | SlippiVersionTooLow (major minor version_num : Z).

Inductive result (A : Type) : Type :=
  | Ok (a : A)
  | Raise (e : exn).

Arguments Ok {A} a.
Arguments Raise {A} e.

Definition rbind {A B : Type} (m : result A) (f : A -> result B) : result B :=
  match m with
  | Ok a => f a
  | Raise e => Raise e
  end.

Declare Scope result_scope.
Delimit Scope result_scope with result.
Notation "x <- m ;; k" := (rbind m (fun x => k))
  (at level 100, m at next level, right associativity) : result_scope.
Local Open Scope result_scope.

(** [try: m except e: d], for a handler that stores a default. *)
Definition except (e : exn) {A : Type} (m : result A) (d : A) : result A :=
  match m with
  | Ok a => Ok a
  | Raise e' =>
      match e, e' with
      | TypeError, TypeError => Ok d
      | ValueError, ValueError => Ok d
      | KeyError, KeyError => Ok d
      | _, _ => Raise e'
      end
  end.

(** ** Reading fixed-width big-endian fields *)

Definition byte_val (b : byte) : Z := Z.of_N (Byte.to_N b).

Definition read_u8 (event_bytes : list byte) (offset : nat) : result Z :=
  match event_bytes !! offset with
  | Some b => Ok (byte_val b)
  | None => Raise TypeError
  end.

(** The unsigned value of [n] bytes at [offset], most significant first. *)
Fixpoint read_be (n : nat) (event_bytes : list byte) (offset : nat) (acc : Z)
  : result Z :=
  match n with
  | O => Ok acc
  | S n' =>
      match event_bytes !! offset with
      | Some b => read_be n' event_bytes (S offset) (acc * 256 + byte_val b)
      | None => Raise TypeError
      end
  end.

Definition read_u16 (event_bytes : list byte) (offset : nat) : result Z :=
  read_be 2 event_bytes offset 0.

Definition read_u32 (event_bytes : list byte) (offset : nat) : result Z :=
  read_be 4 event_bytes offset 0.

Definition read_i32 (event_bytes : list byte) (offset : nat) : result Z :=
  u <- read_u32 event_bytes offset ;;
  Ok (if u <? 2 ^ 31 then u else u - 2 ^ 32).

(** The IEEE 754 binary32 value with bit pattern [bits]. *)
Definition float32_of_bits (bits : Z) : float :=
  let sign := 2 ^ 31 <=? bits in
  let e := (bits / 2 ^ 23) mod 256 in
  let m := bits mod 2 ^ 23 in
  if e =? 255 then
    if m =? 0 then SF2Prim (S754_infinity sign) else SF2Prim S754_nan
  else if e =? 0 then
    if m =? 0 then SF2Prim (S754_zero sign)
    else SF2Prim (S754_finite sign (Z.to_pos m) (-149))
  else SF2Prim (S754_finite sign (Z.to_pos (2 ^ 23 + m)) (e - 150)).

Definition read_f32 (event_bytes : list byte) (offset : nat) : result float :=
  bits <- read_u32 event_bytes offset ;;
  Ok (float32_of_bits bits).

(** Subtraction of two [float32] scalars: the binary32 difference. *)
Definition float32_sub (a b : float) : float :=
  SF2Prim (SFsub 24 128 (Prim2SF a) (Prim2SF b)).

(** Python's [int(x)] on a float: truncation toward zero; [ValueError] on a
    NaN and [OverflowError] on an infinity. *)
Definition int_of_float (x : float) : result Z :=
  match Prim2SF x with
  | S754_zero _ => Ok 0
  | S754_infinity _ => Raise OverflowError
  | S754_nan => Raise ValueError
  | S754_finite s m e =>
      let v := if 0 <=? e then Z.pos m * 2 ^ e else Z.pos m / 2 ^ (- e) in
      Ok (if s then - v else v)
  end.

(** ** Enumerations

    The members the decoder names, and one constructor for every other
    member of the enumeration. *)

Inductive EventType : Type :=
  | PAYLOADS
  | FRAME_START
  | GAME_START
  | GAME_END
  | PRE_FRAME
  | POST_FRAME
  | GECKO_CODES
  | FRAME_BOOKEND
  | ITEM_UPDATE
  | OTHER_EVENT (value : Z).

Inductive Menu : Type :=
  | CHARACTER_SELECT
  | STAGE_SELECT
  | IN_GAME
  | MAIN_MENU
  | SLIPPI_ONLINE_CSS
  | PRESS_START
  | UNKNOWN_MENU.

Inductive Stage : Type :=
  | NO_STAGE
  | STAGE (value : Z).

Inductive Action : Type :=
  | ON_HALO_DESCENT
  | ON_HALO_WAIT
  | TURNING
  | DASHING
  | EDGE_CATCHING
  | NEUTRAL_ATTACK_1
  | DAIR
  | UNKNOWN_ANIMATION
  | OTHER_ACTION (value : Z).

Inductive ProjectileSubtype : Type :=
  | UNKNOWN_PROJECTILE
  | PROJECTILE (value : Z).

#[global] Instance EventType_eq_dec : EqDecision EventType.
Proof. solve_decision. Defined.

#[global] Instance Stage_eq_dec : EqDecision Stage.
Proof. solve_decision. Defined.

#[global] Instance Action_eq_dec : EqDecision Action.
Proof. solve_decision. Defined.

(** ** The snapshot data model *)

Record ControllerState : Type := mkControllerState {
  main_stick : float * float;
  c_stick : float * float;
  BUTTON_A : bool;
  BUTTON_B : bool;
  BUTTON_X : bool;
  BUTTON_Y : bool;
  BUTTON_START : bool;
  BUTTON_Z : bool;
  BUTTON_R : bool;
  BUTTON_L : bool;
  BUTTON_D_LEFT : bool;
  BUTTON_D_RIGHT : bool;
  BUTTON_D_DOWN : bool;
  BUTTON_D_UP : bool
}.

Record PlayerState : Type := mkPlayerState {
  character : Z;
  x : float;
  y : float;
  percent : Z;
  shield_strength : float;
  stock : Z;
  facing : bool;
  action : Action;
  action_frame : Z;
  invulnerable : bool;
  invulnerability_left : Z;
  hitlag : bool;
  hitstun_frames_left : Z;
  jumps_left : Z;
  on_ground : bool;
  speed_air_x_self : float;
  speed_y_self : float;
  speed_x_attack : float;
  speed_y_attack : float;
  speed_ground_x_self : float;
  off_stage : bool;
  moonwalkwarning : bool;
  iasa : bool;
  ecb_top : float * float;
  ecb_bottom : float * float;
  ecb_left : float * float;
  ecb_right : float * float;
  costume : Z;
  cpu_level : Z;
  controller_state : ControllerState
}.

Record Projectile : Type := mkProjectile {
  proj_x : float;
  proj_y : float;
  x_speed : float;
  y_speed : float;
  owner : Z;
  subtype : ProjectileSubtype
}.

(** A Python [dict] keeps its keys in insertion order: storing under a key
    already present replaces the value in place, a new key goes last. *)
Section Dict.
Context {V : Type}.

Fixpoint dict_get (d : list (Z * V)) (k : Z) : option V :=
  match d with
  | [] => None
  | (k', v) :: d' => if k' =? k then Some v else dict_get d' k
  end.

Fixpoint dict_set (d : list (Z * V)) (k : Z) (v : V) : list (Z * V) :=
  match d with
  | [] => [(k, v)]
  | (k', v') :: d' =>
      if k' =? k then (k, v) :: d' else (k', v') :: dict_set d' k v
  end.
End Dict.

Record GameState : Type := mkGameState {
  frame : Z;
  stage : Stage;
  menu_state : Menu;
  player : list (Z * PlayerState);
  projectiles : list Projectile;
  distance : float
}.

(** ** What the decoder takes from the rest of the package

    The enumerations' value tables ([slippstream.EventType], [enums.Action],
    [enums.Character], [enums.ProjectileSubtype], [enums.to_internal_stage]),
    the table [stages.EDGE_GROUND_POSITION], the frame-data set
    [zero_indices] read from [actiondata.csv], and the constructors
    [PlayerState()] and [GameState()] of [melee.gamestate]. A lookup that
    raises in Python ([ValueError] for a value that is no member, [KeyError]
    for a stage without an entry) is [None] or [false] here. *)
Record Externals : Type := mkExternals {
  EventType_of_value : Z -> option EventType;
  Action_of_value : Z -> option Action;
  Action_value : Action -> Z;
  Character_member : Z -> bool;
  ProjectileSubtype_member : Z -> bool;
  to_internal_stage : Z -> option Stage;
  EDGE_GROUND_POSITION : Stage -> option float;
  zero_indices : Z -> Z -> bool;
  new_PlayerState : PlayerState;
  new_GameState : GameState
}.

(** ** The console and the heap of snapshots *)

Definition ref : Type := nat.
Bind Scope nat_scope with ref.

Record Heap : Type := mkHeap {
  objects : gmap nat GameState;
  next_ref : nat
}.

Record Console : Type := mkConsole {
  eventsize : list Z;
  connected : bool;
  _current_stage : Stage;
  _frame : Z;
  slp_version : option (Z * Z * Z);
  _allow_old_version : bool;
  _use_manual_bookends : bool;
  _costumes : list (Z * Z);
  _cpu_level : list (Z * Z);
  _prev_gamestate : ref;
  _temp_gamestate : option ref;
  (* ghost: the number of session-start records decoded so far. The class
     has no such attribute and the decoder never reads it; it lets a
     statement speak of the frames of one session. *)
  sessions : nat
}.

Definition set_eventsize (c : Console) (v : list Z) : Console :=
  mkConsole v (connected c) (_current_stage c) (_frame c) (slp_version c)
    (_allow_old_version c) (_use_manual_bookends c) (_costumes c)
    (_cpu_level c) (_prev_gamestate c) (_temp_gamestate c)
    (sessions c).

Definition set_connected (c : Console) (v : bool) : Console :=
  mkConsole (eventsize c) v (_current_stage c) (_frame c) (slp_version c)
    (_allow_old_version c) (_use_manual_bookends c) (_costumes c)
    (_cpu_level c) (_prev_gamestate c) (_temp_gamestate c)
    (sessions c).

Definition set_frame (c : Console) (v : Z) : Console :=
  mkConsole (eventsize c) (connected c) (_current_stage c) v (slp_version c)
    (_allow_old_version c) (_use_manual_bookends c) (_costumes c)
    (_cpu_level c) (_prev_gamestate c) (_temp_gamestate c)
    (sessions c).

Definition set_prev_gamestate (c : Console) (v : ref) : Console :=
  mkConsole (eventsize c) (connected c) (_current_stage c) (_frame c)
    (slp_version c) (_allow_old_version c) (_use_manual_bookends c)
    (_costumes c) (_cpu_level c) v (_temp_gamestate c) (sessions c).

Definition set_temp_gamestate (c : Console) (v : option ref) : Console :=
  mkConsole (eventsize c) (connected c) (_current_stage c) (_frame c)
    (slp_version c) (_allow_old_version c) (_use_manual_bookends c)
    (_costumes c) (_cpu_level c) (_prev_gamestate c) v (sessions c).

(** Release triples compare as [packaging.version] compares them. *)
Definition version_lt (a b : Z * Z * Z) : bool :=
  let '(a1, a2, a3) := a in
  let '(b1, b2, b3) := b in
  (a1 <? b1) || ((a1 =? b1) && ((a2 <? b2) || ((a2 =? b2) && (a3 <? b3)))).

Section Decoder.
Variable E : Externals.

(** *** The heap *)

(** Every reference the decoder holds comes from [alloc]; an unallocated
    one reads as a fresh snapshot. *)
Definition load (h : Heap) (g : ref) : GameState :=
  default (new_GameState E) (objects h !! g).

Definition store (h : Heap) (g : ref) (gs : GameState) : Heap :=
  mkHeap (<[g := gs]> (objects h)) (next_ref h).

(** [GameState()] *)
Definition alloc (h : Heap) : Heap * ref :=
  (mkHeap (<[next_ref h := new_GameState E]> (objects h)) (S (next_ref h)),
   next_ref h).

(** [gamestate.player[port]], after
    [if port not in gamestate.player: gamestate.player[port] = PlayerState()] *)
Definition player_or_new (gs : GameState) (controller_port : Z) : PlayerState :=
  default (new_PlayerState E) (dict_get (player gs) controller_port).

(** *** [Console.__game_start] *)

Fixpoint read_ports (event_bytes : list byte) (base : nat) (n : nat) (i : Z)
    (d : list (Z * Z)) : result (list (Z * Z)) :=
  match n with
  | O => Ok d
  | S n' =>
      v <- read_u8 event_bytes (base + 0x24 * Z.to_nat i) ;;
      read_ports event_bytes base n' (i + 1) (dict_set d i v)
  end.

Fixpoint clear_inactive (event_bytes : list byte) (n : nat) (i : Z)
    (d : list (Z * Z)) : result (list (Z * Z)) :=
  match n with
  | O => Ok d
  | S n' =>
      v <- read_u8 event_bytes (0x66 + 0x24 * Z.to_nat i) ;;
      clear_inactive event_bytes n' (i + 1)
        (if v =? 1 then d else dict_set d i 0)
  end.

Definition game_start (c : Console) (event_bytes : list byte) : result Console :=
  major <- read_u8 event_bytes 0x1 ;;
  minor <- read_u8 event_bytes 0x2 ;;
  version_num <- read_u8 event_bytes 0x3 ;;
  let use_manual_bookends :=
    _allow_old_version c && version_lt (major, minor, version_num) (3, 0, 0) in
  if (major <? 3) && negb (_allow_old_version c)
  then Raise (SlippiVersionTooLow major minor version_num)
  else
    stage_id <- read_u16 event_bytes 0x13 ;;
    let current_stage := default NO_STAGE (to_internal_stage E stage_id) in
    costumes <- read_ports event_bytes 0x68 4 0 (_costumes c) ;;
    cpu_level0 <- read_ports event_bytes 0x74 4 0 (_cpu_level c) ;;
    cpu_level1 <- clear_inactive event_bytes 4 0 cpu_level0 ;;
    Ok (mkConsole (eventsize c) (connected c) current_stage (-10000)
          (Some (major, minor, version_num)) (_allow_old_version c)
          use_manual_bookends costumes cpu_level1
          (_prev_gamestate c) (_temp_gamestate c) (S (sessions c))).

(** *** [Console.__pre_frame] *)

(** [(raw / 2) + 0.5], in binary64. *)
Definition stick (raw : float) : float := (raw / 2 + 0.5)%float.

Definition button (buttonbits mask : Z) : bool :=
  negb (Z.land buttonbits mask =? 0).

Definition pre_frame (c : Console) (h : Heap) (g : ref)
    (event_bytes : list byte) : result (Console * Heap) :=
  let gs := load h g in
  port <- read_u8 event_bytes 0x5 ;;
  let controller_port := port + 1 in
  let playerstate := player_or_new gs controller_port in
  costume' <- match dict_get (_costumes c) (controller_port - 1) with
              | Some v => Ok v
              | None => Raise KeyError
              end ;;
  cpu_level' <- match dict_get (_cpu_level c) (controller_port - 1) with
                | Some v => Ok v
                | None => Raise KeyError
                end ;;
  main_x <- read_f32 event_bytes 0x19 ;;
  main_y <- read_f32 event_bytes 0x1D ;;
  c_x <- read_f32 event_bytes 0x21 ;;
  c_y <- read_f32 event_bytes 0x25 ;;
  buttonbits <- read_u16 event_bytes 0x31 ;;
  let controller' :=
    mkControllerState (stick main_x, stick main_y) (stick c_x, stick c_y)
      (button buttonbits 0x0100) (button buttonbits 0x0200)
      (button buttonbits 0x0400) (button buttonbits 0x0800)
      (button buttonbits 0x1000) (button buttonbits 0x0010)
      (button buttonbits 0x0020) (button buttonbits 0x0040)
      (button buttonbits 0x0001) (button buttonbits 0x0002)
      (button buttonbits 0x0004) (button buttonbits 0x0008) in
  let playerstate' :=
    mkPlayerState (character playerstate) (x playerstate) (y playerstate)
      (percent playerstate) (shield_strength playerstate) (stock playerstate)
      (facing playerstate) (action playerstate) (action_frame playerstate)
      (invulnerable playerstate) (invulnerability_left playerstate)
      (hitlag playerstate) (hitstun_frames_left playerstate)
      (jumps_left playerstate) (on_ground playerstate)
      (speed_air_x_self playerstate) (speed_y_self playerstate)
      (speed_x_attack playerstate) (speed_y_attack playerstate)
      (speed_ground_x_self playerstate) (off_stage playerstate)
      (moonwalkwarning playerstate) (iasa playerstate)
      (ecb_top playerstate) (ecb_bottom playerstate) (ecb_left playerstate)
      (ecb_right playerstate) costume' cpu_level' controller' in
  let gs' :=
    mkGameState (frame gs) (stage gs) (menu_state gs)
      (dict_set (player gs) controller_port playerstate')
      (projectiles gs) (distance gs) in
  Ok (if _use_manual_bookends c then set_frame c (frame gs) else c,
      store h g gs').

(** *** [Console.__post_frame] *)

(** [try: v = read(...) except TypeError: v = d], for a read of one field. *)
Definition read_u8_or (event_bytes : list byte) (offset : nat) (d : Z) : Z :=
  match read_u8 event_bytes offset with Ok v => v | Raise _ => d end.

Definition read_f32_or (event_bytes : list byte) (offset : nat) (d : float)
  : float :=
  match read_f32 event_bytes offset with Ok v => v | Raise _ => d end.

(** The fields of the record that every protocol revision carries, as
    decoded by the first part of [__post_frame]. *)
Record PostFrame : Type := mkPostFrame {
  pf_frame : Z;
  pf_port : Z;
  pf_x : float;
  pf_y : float;
  pf_character : Z;
  pf_action : Action;
  pf_facing : bool;
  pf_percent : Z;
  pf_shield_strength : float;
  pf_stock : Z;
  pf_action_frame : Z;
  pf_hitstun_frames_left : Z
}.

Definition post_frame_decode (event_bytes : list byte) : result PostFrame :=
  frame' <- read_i32 event_bytes 0x1 ;;
  port <- read_u8 event_bytes 0x5 ;;
  x' <- read_f32 event_bytes 0xa ;;
  y' <- read_f32 event_bytes 0xe ;;
  character_id <- read_u8 event_bytes 0x7 ;;
  character' <- (if Character_member E character_id then Ok character_id
                 else Raise ValueError) ;;
  action_id <- read_u16 event_bytes 0x8 ;;
  let action' := default UNKNOWN_ANIMATION (Action_of_value E action_id) in
  facing_raw <- read_f32 event_bytes 0x12 ;;
  percent_raw <- read_f32 event_bytes 0x16 ;;
  percent' <- int_of_float percent_raw ;;
  shield_strength' <- read_f32 event_bytes 0x1A ;;
  stock' <- read_u8 event_bytes 0x21 ;;
  action_frame_raw <- read_f32 event_bytes 0x22 ;;
  action_frame' <- int_of_float action_frame_raw ;;
  hitstun' <- except ValueError
                (except TypeError
                   (raw <- read_f32 event_bytes 0x2B ;; int_of_float raw) 0) 0 ;;
  Ok (mkPostFrame frame' (port + 1) x' y' character' action'
        (PrimFloat.ltb 0 facing_raw) percent' shield_strength' stock'
        action_frame' hitstun').

Definition post_frame_store (c : Console) (h : Heap) (g : ref)
    (event_bytes : list byte) (d : PostFrame) : Console * Heap :=
  let gs := load h g in
  let controller_port := pf_port d in
  let playerstate := player_or_new gs controller_port in
  let hitlag' :=
    match read_u8 event_bytes 0x27 with
    | Ok bitflags2 => negb (Z.land bitflags2 0x20 =? 0)
    | Raise _ => false
    end in
  let on_ground' :=
    match read_u8 event_bytes 0x2F with
    | Ok v => v =? 0
    | Raise _ => true
    end in
  let jumps_left' := read_u8_or event_bytes 0x32 1 in
  let invulnerable' :=
    match read_u8 event_bytes 0x34 with
    | Ok v => negb (v =? 0)
    | Raise _ => false
    end in
  (* the snapshot as it stands when the lookback below reads the heap *)
  let decoded :=
    mkPlayerState (pf_character d) (pf_x d) (pf_y d) (pf_percent d)
      (pf_shield_strength d) (pf_stock d) (pf_facing d) (pf_action d)
      (pf_action_frame d) invulnerable' (invulnerability_left playerstate)
      hitlag' (pf_hitstun_frames_left d) jumps_left' on_ground'
      (read_f32_or event_bytes 0x35 0) (read_f32_or event_bytes 0x39 0)
      (read_f32_or event_bytes 0x3D 0) (read_f32_or event_bytes 0x41 0)
      (read_f32_or event_bytes 0x45 0) (off_stage playerstate)
      (moonwalkwarning playerstate) (iasa playerstate)
      (ecb_top playerstate) (ecb_bottom playerstate) (ecb_left playerstate)
      (ecb_right playerstate) (costume playerstate) (cpu_level playerstate)
      (controller_state playerstate) in
  let gs1 :=
    mkGameState (pf_frame d) (_current_stage c) (menu_state gs)
      (dict_set (player gs) controller_port decoded)
      (projectiles gs) (distance gs) in
  let prev := dict_get (player (load (store h g gs1) (_prev_gamestate c)))
                controller_port in
  (* Keep track of a player's invulnerability due to respawn or ledge grab *)
  let inv0 :=
    match prev with
    | Some prev_player => Z.max 0 (invulnerability_left prev_player - 1)
    | None => invulnerability_left decoded
    end in
  let inv1 := if bool_decide (pf_action d = ON_HALO_WAIT) then 120 else inv0 in
  let inv2 :=
    if bool_decide (pf_action d = ON_HALO_DESCENT) && (150 <? pf_frame d)
    then 120 else inv1 in
  let inv3 :=
    if bool_decide (pf_action d = EDGE_CATCHING) && (pf_action_frame d =? 1)
    then 36 else inv2 in
  (* The pre-warning occurs when we first start a dash dance. *)
  let warn0 :=
    match prev with
    | Some prev_player =>
        if bool_decide (pf_action d = DASHING)
           && negb (bool_decide (action prev_player = DASHING)
                    || bool_decide (action prev_player = TURNING))
        then true else moonwalkwarning decoded
    | None => moonwalkwarning decoded
    end in
  let warn1 := if bool_decide (pf_action d = DASHING) then warn0 else false in
  (* "off_stage" helper *)
  let off_stage' :=
    match EDGE_GROUND_POSITION E (stage gs1) with
    | Some edge =>
        (PrimFloat.ltb edge (abs (pf_x d)) || PrimFloat.ltb (pf_y d) (-6))
        && negb on_ground'
    | None => false
    end in
  let playerstate' :=
    mkPlayerState (character decoded) (x decoded) (y decoded)
      (percent decoded) (shield_strength decoded) (stock decoded)
      (facing decoded) (action decoded) (action_frame decoded)
      (invulnerable decoded) inv3 (hitlag decoded)
      (hitstun_frames_left decoded) (jumps_left decoded) (on_ground decoded)
      (speed_air_x_self decoded) (speed_y_self decoded)
      (speed_x_attack decoded) (speed_y_attack decoded)
      (speed_ground_x_self decoded) off_stage' warn1 (iasa decoded)
      (read_f32_or event_bytes 0x49 0, read_f32_or event_bytes 0x4D 0)
      (read_f32_or event_bytes 0x51 0, read_f32_or event_bytes 0x55 0)
      (read_f32_or event_bytes 0x59 0, read_f32_or event_bytes 0x5D 0)
      (read_f32_or event_bytes 0x61 0, read_f32_or event_bytes 0x65 0)
      (costume decoded) (cpu_level decoded) (controller_state decoded) in
  let gs' :=
    mkGameState (frame gs1) (stage gs1) (menu_state gs1)
      (dict_set (player gs1) controller_port playerstate')
      (projectiles gs1) (distance gs1) in
  (if _use_manual_bookends c then set_frame c (frame gs') else c,
   store h g gs').

Definition post_frame (c : Console) (h : Heap) (g : ref)
    (event_bytes : list byte) : result (Console * Heap) :=
  d <- post_frame_decode event_bytes ;;
  Ok (post_frame_store c h g event_bytes d).

(** What the lookback of a post-frame update finds for a port: the player
    of the previous snapshot, or, when the previous snapshot is the very
    object being updated, the player as the update has just decoded it. *)
Definition lookback_invulnerability (c : Console) (h : Heap) (g : ref)
    (controller_port : Z) : option Z :=
  if decide (_prev_gamestate c = g)
  then Some (invulnerability_left
               (player_or_new (load h g) controller_port))
  else invulnerability_left
         <$> dict_get (player (load h (_prev_gamestate c))) controller_port.

Definition lookback_action (c : Console) (h : Heap) (g : ref)
    (controller_port : Z) (current : Action) : option Action :=
  if decide (_prev_gamestate c = g) then Some current
  else action
         <$> dict_get (player (load h (_prev_gamestate c))) controller_port.

(** *** [Console.__frame_bookend] *)

(** The loop over [gamestate.player.items()]: the first item is player
    one, the second player two, the counter runs on. *)
Definition first_two (players : list (Z * PlayerState))
  : float * float * float * float :=
  snd (fold_left
         (fun (acc : Z * (float * float * float * float))
              (item : Z * PlayerState) =>
            let '(i, (one_x, one_y, two_x, two_y)) := acc in
            let player_state := snd item in
            let '(one_x, one_y) :=
              if i =? 0 then (x player_state, y player_state)
              else (one_x, one_y) in
            let '(two_x, two_y) :=
              if i =? 1 then (x player_state, y player_state)
              else (two_x, two_y) in
            (i + 1, (one_x, one_y, two_x, two_y)))
         players (0, (0, 0, 0, 0)%float)).

(** [math.sqrt((xdist**2) + (ydist**2))]: the differences are binary32, the
    squares (a [float32] scalar to the power of the Python int 2), their sum
    and the root are binary64; the square of a binary32 value is exact in
    binary64. *)
Definition bookend_distance (players : list (Z * PlayerState)) : float :=
  let '(player_one_x, player_one_y, player_two_x, player_two_y) :=
    first_two players in
  let xdist := float32_sub player_one_x player_two_x in
  let ydist := float32_sub player_one_y player_two_y in
  PrimFloat.sqrt (xdist * xdist + ydist * ydist)%float.

Definition frame_bookend (c : Console) (h : Heap) (g : ref)
    (event_bytes : list byte) : Console * Heap :=
  let c' := set_prev_gamestate c g in
  let gs := load h g in
  (c', store h g (mkGameState (frame gs) (stage gs) (menu_state gs)
                    (player gs) (projectiles gs)
                    (bookend_distance (player gs)))).

(** *** [Console.__item_update] *)

Definition item_update (h : Heap) (g : ref) (event_bytes : list byte)
  : result Heap :=
  let gs := load h g in
  x' <- read_f32 event_bytes 0x14 ;;
  y' <- read_f32 event_bytes 0x18 ;;
  x_speed' <- read_f32 event_bytes 0xc ;;
  y_speed' <- read_f32 event_bytes 0x10 ;;
  let owner' :=
    match read_u8 event_bytes 0x2A with
    | Ok raw => if 4 <? raw + 1 then -1 else raw + 1
    | Raise _ => -1
    end in
  subtype_id <- read_u16 event_bytes 0x5 ;;
  let subtype' :=
    if ProjectileSubtype_member E subtype_id then PROJECTILE subtype_id
    else UNKNOWN_PROJECTILE in
  let projectile := mkProjectile x' y' x_speed' y_speed' owner' subtype' in
  Ok (store h g (mkGameState (frame gs) (stage gs) (menu_state gs)
                   (player gs) (projectiles gs ++ [projectile])
                   (distance gs))).

(** *** [Console.__handle_slippstream_events] *)

(** [event_bytes[n:]] *)
Definition slice_from (event_bytes : list byte) (n : Z) : list byte :=
  if n <? 0 then drop (length event_bytes - Z.to_nat (- n)) event_bytes
  else drop (Z.to_nat n) event_bytes.

(** The [for] loop of the payload-descriptor record. *)
Fixpoint payloads (num_commands : nat) (event_bytes : list byte)
    (cursor : nat) (sizes : list Z) : result (list Z) :=
  match num_commands with
  | O => Ok sizes
  | S n =>
      command <- read_u8 event_bytes cursor ;;
      command_len <- read_u16 event_bytes (cursor + 0x1) ;;
      if (Z.to_nat command <? length sizes)%nat
      then payloads n event_bytes (cursor + 3)
             (<[Z.to_nat command := command_len + 1]> sizes)
      else Raise IndexError
  end.

(** One turn of the [while] loop: either the loop goes on with the rest of
    the buffer, or the function returns. *)
Inductive outcome : Type :=
  | Continue (c : Console) (h : Heap) (event_bytes : list byte)
  | Return (c : Console) (h : Heap) (frame_ended : bool).

Definition dispatch (c : Console) (h : Heap) (g : ref)
    (event_bytes : list byte) (ev : EventType) (event_size : Z)
  : result outcome :=
  match ev with
  | PAYLOADS =>
      payload_size <- match event_bytes !! 1%nat with
                      | Some b => Ok (byte_val b)
                      | None => Raise IndexError
                      end ;;
      let num_commands := (payload_size - 1) / 3 in
      sizes <- payloads (Z.to_nat num_commands) event_bytes 0x2 (eventsize c) ;;
      Ok (Continue (set_eventsize c sizes) h
            (slice_from event_bytes (payload_size + 1)))
  | FRAME_START => Ok (Continue c h (slice_from event_bytes event_size))
  | GAME_START =>
      c' <- game_start c event_bytes ;;
      Ok (Continue c' h (slice_from event_bytes event_size))
  | GAME_END => Ok (Return c h (_use_manual_bookends c))
  | PRE_FRAME =>
      r <- pre_frame c h g event_bytes ;;
      Ok (Continue (fst r) (snd r) (slice_from event_bytes event_size))
  | POST_FRAME =>
      r <- post_frame c h g event_bytes ;;
      Ok (Continue (fst r) (snd r) (slice_from event_bytes event_size))
  | GECKO_CODES => Ok (Continue c h (slice_from event_bytes event_size))
  | FRAME_BOOKEND =>
      let '(c', h') := frame_bookend c h g event_bytes in
      (* If this is an old frame, then don't return it. *)
      if frame (load h' g) <=? _frame c' then Ok (Return c' h' false)
      else Ok (Return (set_frame c' (frame (load h' g))) h' true)
  | ITEM_UPDATE =>
      h' <- item_update h g event_bytes ;;
      Ok (Continue c h' (slice_from event_bytes event_size))
  | OTHER_EVENT _ => Ok (Return c h false)
  end.

Definition event_step (c : Console) (h : Heap) (g : ref)
    (event_bytes : list byte) (first : byte) : result outcome :=
  event_size <- match eventsize c !! Z.to_nat (byte_val first) with
                | Some n => Ok n
                | None => Raise IndexError
                end ;;
  if Z.of_nat (length event_bytes) <? event_size then Ok (Return c h false)
  else
    match EventType_of_value E (byte_val first) with
    | None => Raise ValueError
    | Some ev => dispatch c h g event_bytes ev event_size
    end.

(** The [while] loop. A record of declared length 0 leaves the buffer as it
    is, and the loop then never ends: [None] is the loop still running
    when [fuel] turns are spent. *)
Fixpoint events_loop (fuel : nat) (c : Console) (h : Heap) (g : ref)
    (event_bytes : list byte) : option (result (Console * Heap * bool)) :=
  match event_bytes with
  | [] => Some (Ok (c, h, false))
  | first :: _ =>
      match fuel with
      | O => None
      | S fuel' =>
          match event_step c h g event_bytes first with
          | Raise e => Some (Raise e)
          | Ok (Return c' h' frame_ended) => Some (Ok (c', h', frame_ended))
          | Ok (Continue c' h' rest) => events_loop fuel' c' h' g rest
          end
      end
  end.

Definition set_menu_state (gs : GameState) (m : Menu) : GameState :=
  mkGameState (frame gs) (stage gs) m (player gs) (projectiles gs)
    (distance gs).

Definition handle_slippstream_events (fuel : nat) (c : Console) (h : Heap)
    (g : ref) (event_bytes : list byte)
  : option (result (Console * Heap * bool)) :=
  events_loop fuel c (store h g (set_menu_state (load h g) IN_GAME)) g
    event_bytes.

(** *** [Console.step] *)

(** What [self._slippstream.dispatch] hands over, by its ["type"]. The
    [menu_event] messages of the menu screens are left out of [step] (their
    decoder is modelled on its own, in [MenuEvent] below), and so are the
    timers and the flushing of the controllers. The
    payload of a [game_event] is the decoded byte string; of a
    [connect_reply] only the fact that the console is now connected is
    kept. *)
Inductive message : Type :=
  | connect_reply
  | game_event (payload : list byte)
  | frame_end
  | other_message.

Definition set_action_frame (p : PlayerState) (v : Z) : PlayerState :=
  mkPlayerState (character p) (x p) (y p) (percent p) (shield_strength p)
    (stock p) (facing p) (action p) v (invulnerable p)
    (invulnerability_left p) (hitlag p) (hitstun_frames_left p)
    (jumps_left p) (on_ground p) (speed_air_x_self p) (speed_y_self p)
    (speed_x_attack p) (speed_y_attack p) (speed_ground_x_self p)
    (off_stage p) (moonwalkwarning p) (iasa p) (ecb_top p) (ecb_bottom p)
    (ecb_left p) (ecb_right p) (costume p) (cpu_level p)
    (controller_state p).

Definition set_iasa (p : PlayerState) (v : bool) : PlayerState :=
  mkPlayerState (character p) (x p) (y p) (percent p) (shield_strength p)
    (stock p) (facing p) (action p) (action_frame p) (invulnerable p)
    (invulnerability_left p) (hitlag p) (hitstun_frames_left p)
    (jumps_left p) (on_ground p) (speed_air_x_self p) (speed_y_self p)
    (speed_x_attack p) (speed_y_attack p) (speed_ground_x_self p)
    (off_stage p) (moonwalkwarning p) v (ecb_top p) (ecb_bottom p)
    (ecb_left p) (ecb_right p) (costume p) (cpu_level p)
    (controller_state p).

Definition set_player (gs : GameState) (v : list (Z * PlayerState))
  : GameState :=
  mkGameState (frame gs) (stage gs) (menu_state gs) v (projectiles gs)
    (distance gs).

(** [Console.__fixframeindexing] *)
Definition fixframeindexing (gs : GameState) : GameState :=
  set_player gs
    (map (fun item : Z * PlayerState =>
            let p := snd item in
            (fst item,
             if zero_indices E (character p) (Action_value E (action p))
             then set_action_frame p (action_frame p + 1) else p))
         (player gs)).

(** [Console.__fixiasa] *)
Definition fixiasa (gs : GameState) : GameState :=
  set_player gs
    (map (fun item : Z * PlayerState =>
            let p := snd item in
            (fst item,
             if (Action_value E (action p) <? Action_value E NEUTRAL_ATTACK_1)
                || (Action_value E DAIR <? Action_value E (action p))
             then set_iasa p false else p))
         (player gs)).

(** The end of [step], once a frame has ended: the snapshot under
    construction is fixed up and returned. *)
Definition finish (c : Console) (h : Heap) (g : ref) : Console * Heap * ref :=
  (set_temp_gamestate c None,
   store h g (fixiasa (fixframeindexing (load h g))),
   g).

(** The [while not frame_ended] loop over the messages of the transport.
    An empty list is the transport with nothing to deliver: [dispatch]
    returns nothing and [step] returns [None]. *)
Fixpoint step_loop (fuel : nat) (c : Console) (h : Heap) (g : ref)
    (messages : list message)
  : option (result (Console * Heap * option ref * list message)) :=
  match messages with
  | [] => Some (Ok (c, h, None, []))
  | connect_reply :: rest => step_loop fuel (set_connected c true) h g rest
  | game_event payload :: rest =>
      if (0 <? length payload)%nat then
        match handle_slippstream_events fuel c h g payload with
        | None => None
        | Some (Raise e) => Some (Raise e)
        | Some (Ok (c', h', true)) =>
            let '(c'', h'', gamestate) := finish c' h' g in
            Some (Ok (c'', h'', Some gamestate, rest))
        | Some (Ok (c', h', false)) => step_loop fuel c' h' g rest
        end
      else step_loop fuel c h g rest
  | frame_end :: rest =>
      if _use_manual_bookends c && negb (_frame c =? -10000) then
        let '(c'', h'', gamestate) := finish c h g in
        Some (Ok (c'', h'', Some gamestate, rest))
      else step_loop fuel c h g rest
  | other_message :: rest => step_loop fuel c h g rest
  end.

Definition step (fuel : nat) (c : Console) (h : Heap)
    (messages : list message)
  : option (result (Console * Heap * option ref * list message)) :=
  match _temp_gamestate c with
  | Some g => step_loop fuel c h g messages
  | None =>
      let '(h', g) := alloc h in
      step_loop fuel (set_temp_gamestate c (Some g)) h' g messages
  end.

(** The host calling [step] again and again, at most [calls] times, until
    [step] returns [None]: the snapshots it gets, oldest first, each as it
    was when [step] returned it. *)
Fixpoint run (calls fuel : nat) (c : Console) (h : Heap)
    (messages : list message)
  : option (result (list GameState * Console * Heap)) :=
  match calls with
  | O => Some (Ok ([], c, h))
  | S calls' =>
      match step fuel c h messages with
      | None => None
      | Some (Raise e) => Some (Raise e)
      | Some (Ok (c', h', None, _)) => Some (Ok ([], c', h'))
      | Some (Ok (c', h', Some g, rest)) =>
          match run calls' fuel c' h' rest with
          | Some (Ok (gamestates, c'', h'')) =>
              Some (Ok (load h' g :: gamestates, c'', h''))
          | other => other
          end
      end
  end.

End Decoder.

(** What one turn of the dispatcher's loop does to the last delivered index
    [_frame]. A session-start record counts one session more; within a
    session the bookend mode stays as it is, and outside legacy-bookend mode
    the index moves only when a frame ends, and then upwards, to the index
    of that frame. *)
Definition turn_ok (E : Externals) (c : Console) (g : ref) (out : outcome)
  : Prop :=
  match out with
  | Continue c' _ _ =>
      (sessions c <= sessions c')%nat
      /\ (sessions c' = sessions c ->
          _use_manual_bookends c' = _use_manual_bookends c
          /\ (_use_manual_bookends c = false -> _frame c' = _frame c))
  | Return c' h' frame_ended =>
      sessions c' = sessions c
      /\ _use_manual_bookends c' = _use_manual_bookends c
      /\ (_use_manual_bookends c = false ->
          if frame_ended
          then _frame c < _frame c' /\ frame (load E h' g) = _frame c'
          else _frame c' = _frame c)
  end.

(** The same for a whole call that delivered a frame of index [index], or
    none. *)
Definition call_ok (c c' : Console) (delivered : option Z) : Prop :=
  (sessions c <= sessions c')%nat
  /\ (sessions c' = sessions c ->
      _use_manual_bookends c' = _use_manual_bookends c
      /\ (_use_manual_bookends c = false ->
          match delivered with
          | Some index => _frame c < index /\ _frame c' = index
          | None => _frame c' = _frame c
          end)).

(** ** [Console.__handle_slippstream_menu_event]

    The decoder of the menu screens works on the same snapshot object as
    the dispatcher. Modelled are the attributes it reads and writes: of a
    player the in-game attributes (it replaces players by [PlayerState()]
    and writes costume and CPU level) and the attributes of the
    character-select screen; of the snapshot the frame index, the stage, the
    menu state, the players and the attributes of the menus. *)

Inductive ControllerStatus : Type :=
  | CONTROLLER_CPU
  | OTHER_STATUS (value : Z).

Inductive SubMenu : Type :=
  | UNKNOWN_SUBMENU
  | NAME_ENTRY_SUBMENU
  | ONLINE_CSS
  | OTHER_SUBMENU (value : Z).

Inductive Character : Type :=
  | UNKNOWN_CHARACTER
  | CHARACTER (value : Z).

(** The value of [cursor_y < 0 and byte]: the comparison when it is false,
    the byte when it is true. *)
Inductive Holding : Type :=
  | HOLDING_FLAG (flag : bool)
  | HOLDING_BYTE (value : Z).

Definition truthy (v : Holding) : bool :=
  match v with
  | HOLDING_FLAG flag => flag
  | HOLDING_BYTE value => negb (value =? 0)
  end.

#[global] Instance ControllerStatus_eq_dec : EqDecision ControllerStatus.
Proof. solve_decision. Defined.

#[global] Instance Menu_eq_dec : EqDecision Menu.
Proof. solve_decision. Defined.

Definition set_costume (p : PlayerState) (v : Z) : PlayerState :=
  mkPlayerState (character p) (x p) (y p) (percent p) (shield_strength p)
    (stock p) (facing p) (action p) (action_frame p) (invulnerable p)
    (invulnerability_left p) (hitlag p) (hitstun_frames_left p)
    (jumps_left p) (on_ground p) (speed_air_x_self p) (speed_y_self p)
    (speed_x_attack p) (speed_y_attack p) (speed_ground_x_self p)
    (off_stage p) (moonwalkwarning p) (iasa p) (ecb_top p) (ecb_bottom p)
    (ecb_left p) (ecb_right p) v (cpu_level p) (controller_state p).

Definition set_cpu_level (p : PlayerState) (v : Z) : PlayerState :=
  mkPlayerState (character p) (x p) (y p) (percent p) (shield_strength p)
    (stock p) (facing p) (action p) (action_frame p) (invulnerable p)
    (invulnerability_left p) (hitlag p) (hitstun_frames_left p)
    (jumps_left p) (on_ground p) (speed_air_x_self p) (speed_y_self p)
    (speed_x_attack p) (speed_y_attack p) (speed_ground_x_self p)
    (off_stage p) (moonwalkwarning p) (iasa p) (ecb_top p) (ecb_bottom p)
    (ecb_left p) (ecb_right p) (costume p) v (controller_state p).

(** The decimal constants of the decoder (-30.9, 15.4, 1.2) are the
    nearest binary64 values, in Python as here. *)
Set Warnings "-inexact-float".

Module MenuEvent.

Record MenuPlayerState : Type := mkMenuPlayerState {
  in_game : PlayerState;
  controller_status : ControllerStatus;
  cursor_x : float;
  cursor_y : float;
  character_selected : Character;
  coin_down : bool;
  is_holding_cpu_slider : Holding
}.

Record MenuGameState : Type := mkMenuGameState {
  frame : Z;
  stage : Stage;
  menu_state : Menu;
  player : list (Z * MenuPlayerState);
  ready_to_start : Z;
  stage_select_cursor_x : float;
  stage_select_cursor_y : float;
  submenu : SubMenu;
  menu_selection : Z
}.

(** The tables of [melee.enums] the menu decoder uses, and [PlayerState()].
    [enums.to_internal] is a function of the package: whatever it raises is
    its result here. *)
Record MenuExternals : Type := mkMenuExternals {
  ControllerStatus_of_value : Z -> option ControllerStatus;
  to_internal : Z -> result Character;
  Stage_of_value : Z -> option Stage;
  SubMenu_of_value : Z -> option SubMenu;
  new_MenuPlayerState : MenuPlayerState
}.

Definition players : Type := list (Z * MenuPlayerState).

Definition set_in_game (p : MenuPlayerState) (v : PlayerState)
  : MenuPlayerState :=
  mkMenuPlayerState v (controller_status p) (cursor_x p) (cursor_y p)
    (character_selected p) (coin_down p) (is_holding_cpu_slider p).

Definition set_controller_status (v : ControllerStatus) (p : MenuPlayerState)
  : MenuPlayerState :=
  mkMenuPlayerState (in_game p) v (cursor_x p) (cursor_y p)
    (character_selected p) (coin_down p) (is_holding_cpu_slider p).

Definition set_cursor_x (v : float) (p : MenuPlayerState) : MenuPlayerState :=
  mkMenuPlayerState (in_game p) (controller_status p) v (cursor_y p)
    (character_selected p) (coin_down p) (is_holding_cpu_slider p).

Definition set_cursor_y (v : float) (p : MenuPlayerState) : MenuPlayerState :=
  mkMenuPlayerState (in_game p) (controller_status p) (cursor_x p) v
    (character_selected p) (coin_down p) (is_holding_cpu_slider p).

Definition set_character_selected (v : Character) (p : MenuPlayerState)
  : MenuPlayerState :=
  mkMenuPlayerState (in_game p) (controller_status p) (cursor_x p)
    (cursor_y p) v (coin_down p) (is_holding_cpu_slider p).

Definition set_coin_down (v : bool) (p : MenuPlayerState) : MenuPlayerState :=
  mkMenuPlayerState (in_game p) (controller_status p) (cursor_x p)
    (cursor_y p) (character_selected p) v (is_holding_cpu_slider p).

Definition set_is_holding_cpu_slider (v : Holding) (p : MenuPlayerState)
  : MenuPlayerState :=
  mkMenuPlayerState (in_game p) (controller_status p) (cursor_x p)
    (cursor_y p) (character_selected p) (coin_down p) v.

Definition set_player_costume (v : Z) (p : MenuPlayerState)
  : MenuPlayerState :=
  set_in_game p (set_costume (in_game p) v).

Definition set_player_cpu_level (v : Z) (p : MenuPlayerState)
  : MenuPlayerState :=
  set_in_game p (set_cpu_level (in_game p) v).

(** [gamestate.player[port].attribute = v]: the player has to be there. *)
Definition update_player (d : players) (port : Z)
    (f : MenuPlayerState -> MenuPlayerState) : result players :=
  match dict_get d port with
  | Some p => Ok (dict_set d port (f p))
  | None => Raise KeyError
  end.

(** The same statement written out for each of the ports, with the
    offset it reads at. *)
Fixpoint each_port (items : list (Z * nat))
    (body : Z -> nat -> players -> result players) (d : players)
  : result players :=
  match items with
  | [] => Ok d
  | (port, offset) :: items' =>
      d' <- body port offset d ;; each_port items' body d'
  end.

(** [for i in range(n)], from [i] on: the players as the pass that raised
    found them, and what it raised. *)
Fixpoint loop_ports (n : nat) (i : Z) (body : Z -> players -> result players)
    (d : players) : players * option exn :=
  match n with
  | O => (d, None)
  | S n' =>
      match body i d with
      | Ok d' => loop_ports n' (i + 1) body d'
      | Raise e => (d, Some e)
      end
  end.

(** [try: <loop> except ...: pass]: what the loop has done stays done. *)
Definition passing (handled : exn -> bool) (r : players * option exn)
  : result players :=
  match r with
  | (d, None) => Ok d
  | (d, Some e) => if handled e then Ok d else Raise e
  end.

Definition is_TypeError (e : exn) : bool :=
  match e with TypeError => true | _ => false end.

Definition is_TypeError_or_KeyError (e : exn) : bool :=
  match e with TypeError | KeyError => true | _ => false end.

(** The [if]/[elif] chain on the scene: the menu state, and whether the
    four ports are replaced by new players. *)
Definition scene_branch (scene : Z) : Menu * bool :=
  if scene =? 0x02 then (CHARACTER_SELECT, true)
  else if (scene =? 0x0102) || (scene =? 0x0108) then (STAGE_SELECT, false)
  else if scene =? 0x0202 then (IN_GAME, false)
  else if scene =? 0x0001 then (MAIN_MENU, false)
  else if scene =? 0x0008 then (SLIPPI_ONLINE_CSS, true)
  else if scene =? 0x0000 then (PRESS_START, false)
  else (UNKNOWN_MENU, false).

Definition at_css (m : Menu) : bool :=
  match m with
  | CHARACTER_SELECT | SLIPPI_ONLINE_CSS => true
  | _ => false
  end.

(** [-30.9 + (15.4 * i)] *)
Definition start_x (i : Z) : float :=
  (-30.9 + 15.4 * PrimFloat.of_uint63 (Uint63.of_Z i))%float.

Section Decoder.
Variable M : MenuExternals.
Variable event_bytes : list byte.

Definition reset_ports (d : players) : players :=
  dict_set
    (dict_set
       (dict_set (dict_set d 1 (new_MenuPlayerState M)) 2
          (new_MenuPlayerState M)) 3 (new_MenuPlayerState M)) 4
    (new_MenuPlayerState M).

Definition status_body (port : Z) (offset : nat) (d : players)
  : result players :=
  v <- read_u8 event_bytes offset ;;
  status <- match ControllerStatus_of_value M v with
            | Some status => Ok status
            | None => Raise ValueError
            end ;;
  update_player d port (set_controller_status status).

Definition cursor_body (port : Z) (offset : nat) (d : players)
  : result players :=
  cursor_x' <- read_f32 event_bytes offset ;;
  d' <- update_player d port (set_cursor_x cursor_x') ;;
  cursor_y' <- read_f32 event_bytes (offset + 4) ;;
  update_player d' port (set_cursor_y cursor_y').

Definition character_body (port : Z) (offset : nat) (d : players)
  : result players :=
  selected <- except TypeError
                (v <- read_u8 event_bytes offset ;; to_internal M v)
                UNKNOWN_CHARACTER ;;
  update_player d port (set_character_selected selected).

Definition coin_body (port : Z) (offset : nat) (d : players)
  : result players :=
  update_player d port
    (set_coin_down
       match read_u8 event_bytes offset with
       | Ok v => v =? 2
       | Raise _ => false
       end).

(** The block of the two character-select screens. *)
Definition css_block (gs : MenuGameState) : result MenuGameState :=
  d1 <- each_port [(1, 0x25%nat); (2, 0x26%nat); (3, 0x27%nat); (4, 0x28%nat)]
          status_body (player gs) ;;
  d2 <- each_port [(1, 0x3%nat); (2, 0xB%nat); (3, 0x13%nat); (4, 0x1B%nat)]
          cursor_body d1 ;;
  ready_to_start' <- read_u8 event_bytes 0x23 ;;
  d3 <- each_port [(1, 0x29%nat); (2, 0x2A%nat); (3, 0x2B%nat); (4, 0x2C%nat)]
          character_body d2 ;;
  d4 <- each_port [(1, 0x2D%nat); (2, 0x2E%nat); (3, 0x2F%nat); (4, 0x30%nat)]
          coin_body d3 ;;
  Ok (mkMenuGameState (frame gs) (stage gs) (menu_state gs) d4
        ready_to_start' (stage_select_cursor_x gs)
        (stage_select_cursor_y gs) (submenu gs) (menu_selection gs)).

(** The block of the stage-select screen. *)
Definition stage_block (gs : MenuGameState) : result MenuGameState :=
  stage' <- except ValueError
              (v <- read_u8 event_bytes 0x24 ;;
               match Stage_of_value M v with
               | Some s => Ok s
               | None => Raise ValueError
               end)
              NO_STAGE ;;
  cursor_x' <- read_f32 event_bytes 0x31 ;;
  cursor_y' <- read_f32 event_bytes 0x35 ;;
  Ok (mkMenuGameState (frame gs) stage' (menu_state gs) (player gs)
        (ready_to_start gs) cursor_x' cursor_y' (submenu gs)
        (menu_selection gs)).

Definition costume_body (i : Z) (d : players) : result players :=
  v <- read_u8 event_bytes 0x3F ;;
  update_player d (i + 1) (set_player_costume v).

Definition slider_body (i : Z) (d : players) : result players :=
  p <- match dict_get d (i + 1) with
       | Some p => Ok p
       | None => Raise KeyError
       end ;;
  holding <- (if PrimFloat.ltb (cursor_y p) 0
              then v <- read_u8 event_bytes (45 + Z.to_nat i) ;;
                   Ok (HOLDING_BYTE v)
              else Ok (HOLDING_FLAG false)) ;;
  update_player d (i + 1) (set_is_holding_cpu_slider holding).

(** The difference of the cursor and [start_x], its quotient by 1.2 and the
    truncation are in binary64, as for a [float32] scalar and a Python
    float. *)
Definition level_body (i : Z) (d : players) : result players :=
  p <- match dict_get d (i + 1) with
       | Some p => Ok p
       | None => Raise KeyError
       end ;;
  if truthy (is_holding_cpu_slider p) then
    steps <- int_of_float ((cursor_x p - start_x i) / 1.2)%float ;;
    update_player d (i + 1) (set_player_cpu_level (1 + steps))
  else update_player d (i + 1) (set_player_cpu_level 1).

(** [Set CPU level to 0 if we're not a CPU] *)
Definition clear_cpu_level (d : players) : players :=
  map (fun item : Z * MenuPlayerState =>
         (fst item,
          if bool_decide (controller_status (snd item) = CONTROLLER_CPU)
          then snd item else set_player_cpu_level 0 (snd item)))
      d.

Definition handle_slippstream_menu_event (gs : MenuGameState)
  : result MenuGameState :=
  scene <- read_u16 event_bytes 0x1 ;;
  let '(menu_state', replaced) := scene_branch scene in
  let gs1 :=
    mkMenuGameState (frame gs) (stage gs) menu_state'
      (if replaced then reset_ports (player gs) else player gs)
      (ready_to_start gs) (stage_select_cursor_x gs)
      (stage_select_cursor_y gs) (submenu gs) (menu_selection gs) in
  (* controller port statuses at CSS *)
  gs2 <- (if at_css menu_state' then css_block gs1 else Ok gs1) ;;
  gs3 <- (if bool_decide (menu_state' = STAGE_SELECT) then stage_block gs2
          else Ok gs2) ;;
  (* Frame count *)
  frame' <- read_i32 event_bytes 0x39 ;;
  (* Sub-menu *)
  submenu' <- except ValueError
                (except TypeError
                   (v <- read_u8 event_bytes 0x3D ;;
                    match SubMenu_of_value M v with
                    | Some s => Ok s
                    | None => Raise ValueError
                    end)
                   UNKNOWN_SUBMENU)
                UNKNOWN_SUBMENU ;;
  (* Selected menu *)
  let menu_selection' := read_u8_or event_bytes 0x3E 0 in
  (* Online costume chosen *)
  d4 <- (if bool_decide (menu_state' = SLIPPI_ONLINE_CSS)
         then passing is_TypeError (loop_ports 4 0 costume_body (player gs3))
         else Ok (player gs3)) ;;
  (* This value is 0x05 in the nametag entry *)
  let submenu'' :=
    if bool_decide (menu_state' = SLIPPI_ONLINE_CSS) then
      match read_u8 event_bytes 0x40 with
      | Ok nametag =>
          if nametag =? 0x05 then NAME_ENTRY_SUBMENU
          else if nametag =? 0x00 then ONLINE_CSS
          else submenu'
      | Raise _ => submenu'
      end
    else submenu' in
  (* Is Holding CPU Slider *)
  d5 <- passing is_TypeError_or_KeyError (loop_ports 4 0 slider_body d4) ;;
  (* CPU Level *)
  d6 <- passing is_TypeError_or_KeyError (loop_ports 4 0 level_body d5) ;;
  Ok (mkMenuGameState frame' (stage gs3) menu_state' (clear_cpu_level d6)
        (ready_to_start gs3) (stage_select_cursor_x gs3)
        (stage_select_cursor_y gs3) submenu'' menu_selection').

End Decoder.

End MenuEvent.

(** ** A console, fresh from [Console.__init__] *)

Definition initial_heap (E : Externals) : Heap :=
  mkHeap {[ 0%nat := new_GameState E ]} 1.

Definition initial_console (allow_old_version : bool) : Console :=
  mkConsole (repeat 0 0x100) false NO_STAGE 0 None allow_old_version false
    [(0, 0); (1, 0); (2, 0); (3, 0)] [(0, 0); (1, 0); (2, 0); (3, 0)]
    0%nat None 0.

(** ** Sample tables and sample streams

    Enough of the package's tables to run the decoder on concrete streams:
    the command bytes of the Slippi protocol, a handful of action states,
    two stages with the ground edge of each, and the snapshots the
    constructors build. *)

Definition sample_EventType (v : Z) : option EventType :=
  if v =? 0x10 then Some GECKO_CODES
  else if v =? 0x35 then Some PAYLOADS
  else if v =? 0x36 then Some GAME_START
  else if v =? 0x37 then Some PRE_FRAME
  else if v =? 0x38 then Some POST_FRAME
  else if v =? 0x39 then Some GAME_END
  else if v =? 0x3a then Some FRAME_START
  else if v =? 0x3b then Some ITEM_UPDATE
  else if v =? 0x3c then Some FRAME_BOOKEND
  else None.

Definition sample_Action_value (a : Action) : Z :=
  match a with
  | ON_HALO_DESCENT => 0x0c
  | ON_HALO_WAIT => 0x0d
  | TURNING => 0x12
  | DASHING => 0x14
  | EDGE_CATCHING => 0xfc
  | NEUTRAL_ATTACK_1 => 0x2c
  | DAIR => 0x45
  | UNKNOWN_ANIMATION => 0xffff
  | OTHER_ACTION v => v
  end.

Definition sample_Action (v : Z) : option Action :=
  if v =? 0x0c then Some ON_HALO_DESCENT
  else if v =? 0x0d then Some ON_HALO_WAIT
  else if v =? 0x12 then Some TURNING
  else if v =? 0x14 then Some DASHING
  else if v =? 0xfc then Some EDGE_CATCHING
  else if v =? 0x2c then Some NEUTRAL_ATTACK_1
  else if v =? 0x45 then Some DAIR
  else if v =? 0xffff then Some UNKNOWN_ANIMATION
  else if v <? 0x180 then Some (OTHER_ACTION v)
  else None.

Definition sample_ControllerState : ControllerState :=
  mkControllerState (0.5, 0.5)%float (0.5, 0.5)%float false false false false
    false false false false false false false false.

Definition sample_PlayerState : PlayerState :=
  mkPlayerState 0xff 0 0 0 60 0 true UNKNOWN_ANIMATION 0 false 0 false 0 0
    true 0 0 0 0 0 false false false (0, 0)%float (0, 0)%float (0, 0)%float
    (0, 0)%float 0 0 sample_ControllerState.

Definition sample_GameState : GameState :=
  mkGameState (-10000) (STAGE 0x19) IN_GAME [] [] 0.

(** The stage table, given the ground edge of the stage [STAGE 0x19]. *)
Definition sample (edge : float) : Externals :=
  mkExternals sample_EventType sample_Action sample_Action_value
    (fun v => v <? 0x21)
    (fun v => v <? 0x100)
    (fun v => if v =? 0x20 then Some (STAGE 0x19)
              else if v =? 0x1f then Some (STAGE 0x18) else None)
    (fun s => match s with
              | STAGE 0x19 => Some edge
              | STAGE 0x18 => Some 68.5%float
              | _ => None
              end)
    (fun character action => (character =? 0x02) && (action =? 0x14))
    sample_PlayerState sample_GameState.

(** Building records: [fields] are byte strings laid at their offsets in a
    record of [size] zero bytes. *)
Definition byte_of (n : Z) : byte :=
  default x00 (Byte.of_N (Z.to_N (n mod 256))).

Definition be16 (n : Z) : list byte := [byte_of (n / 256); byte_of n].

Definition be32 (n : Z) : list byte :=
  [byte_of (n / 2 ^ 24); byte_of (n / 2 ^ 16); byte_of (n / 2 ^ 8); byte_of n].

Fixpoint lay (record : list byte) (offset : nat) (field : list byte)
  : list byte :=
  match field with
  | [] => record
  | b :: field' => lay (<[offset := b]> record) (S offset) field'
  end.

Definition record (size : nat) (fields : list (nat * list byte)) : list byte :=
  fold_left (fun r f => lay r (fst f) (snd f)) fields (repeat x00 size).

(** The payload-descriptor record of the sample streams: session-start
    records of 0xe5 bytes, pre-frame 0x3c, post-frame 0x69, session-end 3,
    frame-start 9, item-update 0x2b, frame-bookend 9. *)
Definition payloads_record : list byte :=
  [x35; x16] ++ [x36; x00; xe4] ++ [x37; x00; x3b] ++ [x38; x00; x68]
  ++ [x39; x00; x02] ++ [x3a; x00; x08] ++ [x3b; x00; x2a]
  ++ [x3c; x00; x08].

Definition game_start_record (major minor version_num stage_id : Z)
  : list byte :=
  record 0xe5 [(0, [x36]); (1, [byte_of major; byte_of minor; byte_of version_num]);
               (0x13, be16 stage_id)]%nat.

(** A pre-frame record: frame index, zero-based port, the bit pattern of
    the horizontal position of the main stick, and the button bits. *)
Definition pre_frame_record (frame port main_x_bits buttonbits : Z)
  : list byte :=
  record 0x3c [(0, [x37]); (1, be32 frame); (5, [byte_of port]);
               (0x19, be32 main_x_bits); (0x31, be16 buttonbits)]%nat.

(** A post-frame record: frame index, zero-based port, action state, the
    bit patterns of the position and of the action-frame counter, and the
    airborne byte. *)
Definition post_frame_record (frame port action_id x_bits y_bits
    action_frame_bits airborne : Z) : list byte :=
  record 0x69 [(0, [x38]); (1, be32 frame); (5, [byte_of port]);
               (8, be16 action_id); (0xa, be32 x_bits); (0xe, be32 y_bits);
               (0x22, be32 action_frame_bits); (0x2f, [byte_of airborne])]%nat.

Definition item_update_record (raw_owner : Z) : list byte :=
  record 0x2b [(0, [x3b]); (0x2a, [byte_of raw_owner])]%nat.

Definition frame_bookend_record (frame : Z) : list byte :=
  record 9 [(0, [x3c]); (1, be32 frame)]%nat.

Definition game_end_record : list byte := [x39; x00; x00].

(** The console once it has decoded the payload-descriptor record and a
    session-start record (version [major.minor.version_num], stage id 0x20)
    of a sample stream, and the heap with a snapshot under construction at
    reference 1. *)
Definition started (E : Externals) (allow_old_version : bool)
    (major minor version_num : Z) : Console :=
  match events_loop E 4 (initial_console allow_old_version) (initial_heap E) 1
          (payloads_record ++ game_start_record major minor version_num 0x20)
  with
  | Some (Ok (c, _, _)) => set_temp_gamestate c (Some 1%nat)
  | _ => initial_console allow_old_version
  end.

Definition building (E : Externals) : Heap := fst (alloc E (initial_heap E)).

(** A player with a given action and invulnerability countdown, and the
    heap in which the previous snapshot (reference 0) holds given players. *)
Definition sample_player (a : Action) (countdown : Z) : PlayerState :=
  mkPlayerState 0 0 0 0 60 4 true a 1 false countdown false 0 1 true 0 0 0 0 0
    false false false (0, 0)%float (0, 0)%float (0, 0)%float (0, 0)%float
    0 0 sample_ControllerState.

(** A player at a given position. *)
Definition player_at (px py : float) : PlayerState :=
  mkPlayerState 0 px py 0 60 4 true DASHING 1 false 0 false 0 1 true
    0 0 0 0 0 false false false (0, 0)%float (0, 0)%float
    (0, 0)%float (0, 0)%float 0 0 sample_ControllerState.

Definition previous (E : Externals) (players : list (Z * PlayerState)) : Heap :=
  store (building E) 0 (set_player (new_GameState E) players).

(** One player's frame in a sample stream: the post-frame record of port
    1 with the given action state, at the origin and grounded, followed by
    the frame-bookend record. *)
Definition frame_records (index action_id : Z) : list byte :=
  post_frame_record index 0 action_id 0 0 0x3f800000 0
  ++ frame_bookend_record index.

(** ** Notions used to state the properties of the dispatcher *)

(** The event types whose branch lets the loop go on with the rest of the
    buffer, sliced by the declared length of the command. *)
Definition sliced_by_length (ev : EventType) : bool :=
  match ev with
  | FRAME_START | GAME_START | PRE_FRAME | POST_FRAME | GECKO_CODES
  | ITEM_UPDATE => true
  | _ => false
  end.

(** A size table under which every turn of the loop shortens the buffer:
    the commands sliced by their declared length have a positive one. *)
Definition progress_table (E : Externals) (sizes : list Z) : Prop :=
  forall (command : nat) (n : Z) (ev : EventType),
    sizes !! command = Some n ->
    EventType_of_value E (Z.of_nat command) = Some ev ->
    sliced_by_length ev = true ->
    0 < n.

(** The keys of a dictionary, in insertion order. *)
Definition dict_keys {V : Type} (d : list (Z * V)) : list Z := map fst d.

(** A payload-descriptor record that also registers the code-list command,
    so that every command sliced by its length has one. *)
Definition full_payloads_record : list byte :=
  [x35; x19] ++ [x36; x00; xe4] ++ [x37; x00; x3b] ++ [x38; x00; x68]
  ++ [x39; x00; x02] ++ [x3a; x00; x08] ++ [x3b; x00; x2a]
  ++ [x3c; x00; x08] ++ [x10; x00; x04].

(** [progress_table], as a test that runs. *)
Definition progress_check (E : Externals) (sizes : list Z) : bool :=
  forallb
    (fun item : nat * Z =>
       match EventType_of_value E (Z.of_nat (fst item)) with
       | Some ev => negb (sliced_by_length ev) || (0 <? snd item)
       | None => true
       end)
    (imap pair sizes).

(** From one state of the snapshot [g] to a later one: the menu state is
    kept, players and projectiles are only added, after those there are. *)
Definition snapshot_grows (gs gs' : GameState) : Prop :=
  menu_state gs' = menu_state gs
  /\ (exists keys, dict_keys (player gs') = dict_keys (player gs) ++ keys)
  /\ (exists more, projectiles gs' = projectiles gs ++ more).

(** Two heaps that differ at most in the snapshot [g]. *)
Definition same_elsewhere (g : ref) (h h' : Heap) : Prop :=
  next_ref h' = next_ref h
  /\ forall g', g' <> g -> objects h' !! g' = objects h !! g'.

(** The console after [full_payloads_record]. *)
Definition registered (E : Externals) : Console :=
  match events_loop E 2 (initial_console false) (initial_heap E) 1
          full_payloads_record
  with
  | Some (Ok (c, _, _)) => set_temp_gamestate c (Some 1%nat)
  | _ => initial_console false
  end.

Definition outcome_console (o : outcome) : Console :=
  match o with Continue c _ _ | Return c _ _ => c end.

Definition outcome_heap (o : outcome) : Heap :=
  match o with Continue _ h _ | Return _ h _ => h end.

(** What decoding records into the snapshot [g] leaves of the console: the
    snapshot under construction, the caller's choice of old versions and the
    connection flag stay, and the previous snapshot is the one it was or
    [g]. *)
Definition console_kept (g : ref) (c c' : Console) : Prop :=
  _temp_gamestate c' = _temp_gamestate c
  /\ _allow_old_version c' = _allow_old_version c
  /\ connected c' = connected c
  /\ (_prev_gamestate c' = _prev_gamestate c \/ _prev_gamestate c' = g).

(** The side tables have the four keys [__init__] gives them. *)
Definition ports_tracked (c : Console) : Prop :=
  dict_keys (_costumes c) = [0; 1; 2; 3]
  /\ dict_keys (_cpu_level c) = [0; 1; 2; 3].

(** Every reference the console holds has been allocated. *)
Definition allocated (c : Console) (h : Heap) : Prop :=
  (_prev_gamestate c < next_ref h)%nat
  /\ match _temp_gamestate c with
     | Some g => (g < next_ref h)%nat
     | None => True
     end.

(** The body of the loop of [first_two]. *)
Definition first_two_step (acc : Z * (float * float * float * float))
    (item : Z * PlayerState) : Z * (float * float * float * float) :=
  let '(i, (one_x, one_y, two_x, two_y)) := acc in
  let player_state := snd item in
  let '(one_x, one_y) :=
    if i =? 0 then (x player_state, y player_state)
    else (one_x, one_y) in
  let '(two_x, two_y) :=
    if i =? 1 then (x player_state, y player_state)
    else (two_x, two_y) in
  (i + 1, (one_x, one_y, two_x, two_y)).

(** The in-game attributes of a player apart from the two the menu decoder
    writes. *)
Definition without_costume_and_level (p : PlayerState) : PlayerState :=
  set_cpu_level (set_costume p 0) 0.

(** Sample tables for the menu decoder, a snapshot without players, and a
    menu record for a scene: the status bytes of the four ports are 0, 1, 3
    and 3, the cursor of port 2 is at (-20, -1.5). *)
Definition sample_MenuPlayerState : MenuEvent.MenuPlayerState :=
  MenuEvent.mkMenuPlayerState sample_PlayerState (OTHER_STATUS 3) 0 0
    UNKNOWN_CHARACTER false (HOLDING_FLAG false).

Definition sample_menu : MenuEvent.MenuExternals :=
  MenuEvent.mkMenuExternals
    (fun v => if v =? 1 then Some CONTROLLER_CPU
              else if v <? 4 then Some (OTHER_STATUS v) else None)
    (fun v => if v <? 0x21 then Ok (CHARACTER v) else Raise KeyError)
    (fun v => if v <? 0x20 then Some (STAGE v) else None)
    (fun v => if v <? 8 then Some (OTHER_SUBMENU v) else None)
    sample_MenuPlayerState.

Definition sample_MenuGameState : MenuEvent.MenuGameState :=
  MenuEvent.mkMenuGameState 0 NO_STAGE UNKNOWN_MENU [] 0 0 0 UNKNOWN_SUBMENU 0.

Definition menu_record (scene : Z) (slider : byte) : list byte :=
  record 0x41 [(1, be16 scene);
               (0xB, be32 0xc1a00000); (0xF, be32 0xbfc00000);
               (0x25, [x00; x01; x03; x03]); (0x2E, [slider]);
               (0x39, be32 77)]%nat.

(** A pass over the players that keeps the ports, and keeps what [view]
    shows of every player. *)
Definition keeps {A : Type} (view : MenuEvent.MenuPlayerState -> A)
    (d d' : MenuEvent.players) : Prop :=
  dict_keys d' = dict_keys d
  /\ forall k, view <$> dict_get d' k = view <$> dict_get d k.


(** * Properties *)

(** ** Readers, dictionaries and the heap *)

Example read_f32_one :
  read_f32 [x3f; x80; x00; x00] 0 = Ok 1%float.
Proof. vm_compute. reflexivity. Qed.

Example read_f32_minus_ten :
  read_f32 [x00; xc1; x20; x00; x00] 1 = Ok (-10)%float.
Proof. vm_compute. reflexivity. Qed.

Example read_f32_short : read_f32 [x00; xc1; x20; x00] 1 = Raise TypeError.
Proof. reflexivity. Qed.

Example read_i32_start : read_i32 [xff; xff; xff; x85] 0 = Ok (-123).
Proof. reflexivity. Qed.

Example int_of_float_trunc : int_of_float (-2.75)%float = Ok (-2).
Proof. vm_compute. reflexivity. Qed.


Lemma byte_val_range (b : byte) : 0 <= byte_val b < 256.
Proof.
  unfold byte_val. pose proof (Byte.to_N_bounded b) as Hb. lia.
Qed.

Lemma read_u8_range (event_bytes : list byte) (offset : nat) (v : Z) :
  read_u8 event_bytes offset = Ok v -> 0 <= v < 256.
Proof.
  unfold read_u8. destruct (event_bytes !! offset) as [b|]; [|discriminate].
  intros [= <-]. apply byte_val_range.
Qed.

Lemma read_u8_in_range (event_bytes : list byte) (offset : nat) :
  (offset < length event_bytes)%nat ->
  exists v, read_u8 event_bytes offset = Ok v.
Proof.
  intros Hlt. unfold read_u8.
  destruct (lookup_lt_is_Some_2 event_bytes offset Hlt) as [b ->]. eauto.
Qed.

Lemma read_be_in_range (n : nat) (event_bytes : list byte) (offset : nat)
    (acc : Z) :
  (offset + n <= length event_bytes)%nat ->
  exists v, read_be n event_bytes offset acc = Ok v.
Proof.
  revert offset acc. induction n as [|n IH]; intros offset acc Hle; simpl.
  - eauto.
  - destruct (lookup_lt_is_Some_2 event_bytes offset) as [b ->]; [lia|].
    apply IH. lia.
Qed.

Lemma dict_get_set_eq {V : Type} (d : list (Z * V)) (k : Z) (v : V) :
  dict_get (dict_set d k v) k = Some v.
Proof.
  induction d as [|[k' v'] d IH]; simpl.
  - now rewrite Z.eqb_refl.
  - destruct (k' =? k) eqn:Hk; simpl.
    + now rewrite Z.eqb_refl.
    + now rewrite Hk.
Qed.

Lemma dict_get_set_ne {V : Type} (d : list (Z * V)) (k k' : Z) (v : V) :
  k <> k' -> dict_get (dict_set d k v) k' = dict_get d k'.
Proof.
  intros Hne. induction d as [|[k0 v0] d IH]; simpl.
  - destruct (Z.eqb_spec k k'); [contradiction | reflexivity].
  - destruct (Z.eqb_spec k0 k) as [-> | Hk0]; simpl.
    + destruct (Z.eqb_spec k k'); [contradiction | reflexivity].
    + destruct (k0 =? k'); [reflexivity | exact IH].
Qed.

Section HeapFacts.
Variable E : Externals.

Lemma load_store_eq (h : Heap) (g : ref) (gs : GameState) :
  load E (store h g gs) g = gs.
Proof. unfold load, store. simpl. now rewrite lookup_insert_eq. Qed.

Lemma load_store_ne (h : Heap) (g g' : ref) (gs : GameState) :
  g <> g' -> load E (store h g gs) g' = load E h g'.
Proof.
  intros Hne. unfold load, store. simpl. now rewrite lookup_insert_ne.
Qed.
End HeapFacts.

(** ** The post-frame update *)

Section PostFrameFacts.
Variable E : Externals.

Ltac invert_binds :=
  repeat match goal with
         | H : rbind ?m _ = Ok _ |- _ =>
             let r := fresh "r" in
             destruct m as [r|] eqn:?; simpl in H; [|discriminate H]
         end.

Lemma post_frame_decode_port (event_bytes : list byte) (d : PostFrame) :
  post_frame_decode E event_bytes = Ok d ->
  exists port, read_u8 event_bytes 0x5 = Ok port /\ pf_port d = port + 1.
Proof.
  unfold post_frame_decode. intros H. invert_binds.
  injection H as <-. simpl. eauto.
Qed.

Lemma post_frame_inv (c : Console) (h : Heap) (g : ref)
    (event_bytes : list byte) (r : Console * Heap) :
  post_frame E c h g event_bytes = Ok r ->
  exists d, post_frame_decode E event_bytes = Ok d
            /\ r = post_frame_store E c h g event_bytes d.
Proof.
  unfold post_frame. intros H. invert_binds. injection H as <-. eauto.
Qed.

Lemma post_frame_store_player (c : Console) (h : Heap) (g : ref)
    (event_bytes : list byte) (d : PostFrame) :
  let h' := snd (post_frame_store E c h g event_bytes d) in
  let old := player_or_new E (load E h g) (pf_port d) in
  exists p,
    dict_get (player (load E h' g)) (pf_port d) = Some p
    /\ frame (load E h' g) = pf_frame d
    /\ stage (load E h' g) = _current_stage c
    /\ x p = pf_x d /\ y p = pf_y d
    /\ action p = pf_action d /\ action_frame p = pf_action_frame d
    /\ invulnerability_left p =
         (let inv0 :=
            match lookback_invulnerability E c h g (pf_port d) with
            | Some v => Z.max 0 (v - 1)
            | None => invulnerability_left old
            end in
          let inv1 :=
            if bool_decide (pf_action d = ON_HALO_WAIT) then 120 else inv0 in
          let inv2 :=
            if bool_decide (pf_action d = ON_HALO_DESCENT)
               && (150 <? pf_frame d) then 120 else inv1 in
          if bool_decide (pf_action d = EDGE_CATCHING)
             && (pf_action_frame d =? 1) then 36 else inv2)
    /\ moonwalkwarning p =
         (if bool_decide (pf_action d = DASHING) then
            match lookback_action E c h g (pf_port d) (pf_action d) with
            | Some a =>
                if negb (bool_decide (a = DASHING)
                         || bool_decide (a = TURNING))
                then true else moonwalkwarning old
            | None => moonwalkwarning old
            end
          else false)
    /\ off_stage p =
         match EDGE_GROUND_POSITION E (_current_stage c) with
         | Some edge =>
             (PrimFloat.ltb edge (abs (x p)) || PrimFloat.ltb (y p) (-6))
             && negb (on_ground p)
         | None => false
         end.
Proof.
  unfold post_frame_store, lookback_invulnerability, lookback_action.
  cbn zeta. cbn [snd]. rewrite load_store_eq. cbn [player frame stage].
  rewrite dict_get_set_eq. eexists. split; [reflexivity|].
  cbn [x y action action_frame invulnerability_left moonwalkwarning
       off_stage on_ground].
  repeat (split; [reflexivity|]).
  destruct (decide (_prev_gamestate c = g)) as [-> | Hne].
  - rewrite load_store_eq. cbn [player]. rewrite dict_get_set_eq.
    cbn [action invulnerability_left moonwalkwarning].
    repeat (split; [reflexivity|]).
    destruct (bool_decide (pf_action d = DASHING)) eqn:Hd; [|easy].
    split; reflexivity.
  - rewrite load_store_ne by congruence.
    destruct (dict_get (player (load E h (_prev_gamestate c))) (pf_port d));
      cbn [fmap option_fmap option_map];
      (split; [reflexivity|]);
      destruct (bool_decide (pf_action d = DASHING)); split; reflexivity.
Qed.
End PostFrameFacts.

Section PostFrameClaims.
Variable E : Externals.

(** C1 (as amended). For every post-frame update of a player, the off-stage
    flag stored for that player is true exactly when the current stage has an
    entry in the ground-edge table and (the absolute horizontal position
    exceeds that bound OR the vertical position is below -6) and the player
    is airborne; it is false when the stage has no entry. *)
Theorem post_frame_off_stage (c : Console) (h : Heap) (g : ref)
    (event_bytes : list byte) (c' : Console) (h' : Heap) (port : Z) :
  post_frame E c h g event_bytes = Ok (c', h') ->
  read_u8 event_bytes 0x5 = Ok port ->
  exists p,
    dict_get (player (load E h' g)) (port + 1) = Some p
    /\ off_stage p =
         match EDGE_GROUND_POSITION E (stage (load E h' g)) with
         | Some edge =>
             (PrimFloat.ltb edge (abs (x p)) || PrimFloat.ltb (y p) (-6))
             && negb (on_ground p)
         | None => false
         end.
Proof.
  intros Hpost Hport.
  destruct (post_frame_inv E _ _ _ _ _ Hpost) as (d & Hd & Hr).
  destruct (post_frame_decode_port E _ _ Hd) as (port' & Hport' & Hpf).
  assert (port' = port) as -> by congruence.
  destruct (post_frame_store_player E c h g event_bytes d)
    as (p & Hp & _ & Hstage & _ & _ & _ & _ & _ & _ & Hoff).
  rewrite <- Hr in Hp, Hstage. cbn [snd] in Hp, Hstage.
  exists p. rewrite <- Hpf, Hstage. auto.
Qed.

(** The countdown after a post-frame update, from the countdown the
    previous snapshot holds for the port: the last assignment that applies
    wins. *)
Lemma post_frame_countdown (c : Console) (h : Heap) (g : ref)
    (event_bytes : list byte) (c' : Console) (h' : Heap) (port : Z)
    (prev_player : PlayerState) :
  post_frame E c h g event_bytes = Ok (c', h') ->
  read_u8 event_bytes 0x5 = Ok port ->
  dict_get (player (load E h (_prev_gamestate c))) (port + 1)
    = Some prev_player ->
  exists p,
    dict_get (player (load E h' g)) (port + 1) = Some p
    /\ invulnerability_left p =
         if bool_decide (action p = EDGE_CATCHING) && (action_frame p =? 1)
         then 36
         else if bool_decide (action p = ON_HALO_DESCENT)
                 && (150 <? frame (load E h' g))
         then 120
         else if bool_decide (action p = ON_HALO_WAIT) then 120
         else Z.max 0 (invulnerability_left prev_player - 1).
Proof.
  intros Hpost Hport Hprev.
  destruct (post_frame_inv E _ _ _ _ _ Hpost) as (d & Hd & Hr).
  destruct (post_frame_decode_port E _ _ Hd) as (port' & Hport' & Hpf).
  assert (port' = port) as -> by congruence.
  destruct (post_frame_store_player E c h g event_bytes d)
    as (p & Hp & Hframe & _ & _ & _ & Hact & Haf & Hinv & _).
  rewrite <- Hr in Hp, Hframe. cbn [snd] in Hp, Hframe.
  assert (lookback_invulnerability E c h g (pf_port d)
          = Some (invulnerability_left prev_player)) as Hlook.
  { unfold lookback_invulnerability, player_or_new. rewrite Hpf.
    destruct (decide (_prev_gamestate c = g)) as [Heq | Hne].
    - rewrite Heq in Hprev. now rewrite Hprev.
    - now rewrite Hprev. }
  rewrite Hlook in Hinv. cbn zeta in Hinv.
  rewrite <- Hact, <- Haf in Hinv. rewrite Hframe.
  exists p. rewrite <- Hpf. split; [exact Hp | exact Hinv].
Qed.

(** C5. For a player present in the previous snapshot, the invulnerability
    countdown after a post-frame update is the previous snapshot's value for
    that port minus 1, floored at 0, unless the action overrides it: 120 for
    ON_HALO_WAIT, 120 for ON_HALO_DESCENT when the frame index exceeds 150,
    36 for EDGE_CATCHING at action frame 1. *)
Theorem post_frame_invulnerability (c : Console) (h : Heap) (g : ref)
    (event_bytes : list byte) (c' : Console) (h' : Heap) (port : Z)
    (prev_player : PlayerState) :
  post_frame E c h g event_bytes = Ok (c', h') ->
  read_u8 event_bytes 0x5 = Ok port ->
  dict_get (player (load E h (_prev_gamestate c))) (port + 1)
    = Some prev_player ->
  exists p,
    dict_get (player (load E h' g)) (port + 1) = Some p
    /\ (action p = ON_HALO_WAIT -> invulnerability_left p = 120)
    /\ (action p = ON_HALO_DESCENT -> 150 < frame (load E h' g) ->
        invulnerability_left p = 120)
    /\ (action p = EDGE_CATCHING -> action_frame p = 1 ->
        invulnerability_left p = 36)
    /\ (action p <> ON_HALO_WAIT ->
        ~ (action p = ON_HALO_DESCENT /\ 150 < frame (load E h' g)) ->
        ~ (action p = EDGE_CATCHING /\ action_frame p = 1) ->
        invulnerability_left p
          = Z.max 0 (invulnerability_left prev_player - 1)).
Proof.
  intros Hpost Hport Hprev.
  destruct (post_frame_countdown c h g event_bytes c' h' port prev_player
              Hpost Hport Hprev) as (p & Hp & Hinv).
  exists p. split; [exact Hp|]. rewrite Hinv.
  destruct (bool_decide_reflect (action p = ON_HALO_WAIT)) as [Hw | Hw];
    destruct (bool_decide_reflect (action p = ON_HALO_DESCENT)) as [Hd | Hd];
    destruct (bool_decide_reflect (action p = EDGE_CATCHING)) as [He | He];
    try congruence;
    destruct (Z.ltb_spec 150 (frame (load E h' g)));
    destruct (Z.eqb_spec (action_frame p) 1);
    cbn [andb];
    repeat split; intros; try reflexivity; try congruence; try lia; tauto.
Qed.

(** After a post-frame update, the moonwalk-warning flag of the player is
    false whenever the current action is not DASHING, and true when the
    current action is DASHING and the action of that port in the previous
    snapshot is neither DASHING nor TURNING. The previous snapshot is the
    object [_prev_gamestate] refers to, as the update reads it; when it is a
    snapshot other than the one being updated, that is the action it held
    before the update. *)
Lemma post_frame_warning (c : Console) (h : Heap) (g : ref)
    (event_bytes : list byte) (c' : Console) (h' : Heap) (port : Z) :
  post_frame E c h g event_bytes = Ok (c', h') ->
  read_u8 event_bytes 0x5 = Ok port ->
  exists p,
    dict_get (player (load E h' g)) (port + 1) = Some p
    /\ (action p <> DASHING -> moonwalkwarning p = false)
    /\ (forall prev_player,
          dict_get (player (load E h' (_prev_gamestate c))) (port + 1)
            = Some prev_player ->
          action p = DASHING ->
          action prev_player <> DASHING -> action prev_player <> TURNING ->
          moonwalkwarning p = true)
    /\ (forall prev_player,
          _prev_gamestate c <> g ->
          dict_get (player (load E h (_prev_gamestate c))) (port + 1)
            = Some prev_player ->
          action p = DASHING ->
          action prev_player <> DASHING -> action prev_player <> TURNING ->
          moonwalkwarning p = true).
Proof.
  intros Hpost Hport.
  destruct (post_frame_inv E _ _ _ _ _ Hpost) as (d & Hd & Hr).
  destruct (post_frame_decode_port E _ _ Hd) as (port' & Hport' & Hpf).
  assert (port' = port) as -> by congruence.
  destruct (post_frame_store_player E c h g event_bytes d)
    as (p & Hp & _ & _ & _ & _ & Hact & _ & _ & Hwarn & _).
  assert (h' = store h g (load E h' g)) as Hh'.
  { pose proof (f_equal snd Hr) as Hsnd. cbn [snd] in Hsnd. rewrite Hsnd.
    unfold post_frame_store. cbn zeta. cbn [snd].
    now rewrite load_store_eq. }
  rewrite <- Hr in Hp. cbn [snd] in Hp.
  rewrite <- Hact, Hpf in Hwarn.
  assert (forall prev_player,
            _prev_gamestate c <> g ->
            dict_get (player (load E h (_prev_gamestate c))) (port + 1)
              = Some prev_player ->
            action p = DASHING ->
            action prev_player <> DASHING -> action prev_player <> TURNING ->
            moonwalkwarning p = true) as Hpre.
  { intros prev_player Hne Hprev Hdash Hnd Hnt.
    unfold lookback_action in Hwarn.
    destruct (decide (_prev_gamestate c = g)); [contradiction|].
    rewrite Hprev in Hwarn. cbn in Hwarn.
    rewrite Hwarn, (bool_decide_eq_true_2 _ Hdash).
    now rewrite (bool_decide_eq_false_2 _ Hnd), (bool_decide_eq_false_2 _ Hnt). }
  rewrite Hpf in Hp.
  exists p. split; [exact Hp|]. split; [|split].
  - intros Hnd. now rewrite Hwarn, (bool_decide_eq_false_2 _ Hnd).
  - intros prev_player Hprev Hdash Hnd Hnt.
    destruct (decide (_prev_gamestate c = g)) as [Heq | Hne].
    + rewrite Heq, Hp in Hprev. congruence.
    + rewrite Hh', load_store_ne in Hprev by congruence.
      now apply (Hpre prev_player).
  - exact Hpre.
Qed.


End PostFrameClaims.

(** The example of the specification: ground edge 85, position (90, -10):
    off stage when airborne, not off stage when grounded. *)
Example off_stage_airborne :
  exists c' h' p,
    post_frame (sample 85) (started (sample 85) false 3 2 0)
      (building (sample 85)) 1
      (post_frame_record 0 0 0x14 0x42b40000 0xc1200000 0x3f800000 1)
    = Ok (c', h')
    /\ dict_get (player (load (sample 85) h' 1)) 1 = Some p
    /\ x p = 90%float /\ y p = (-10)%float /\ on_ground p = false
    /\ off_stage p = true.
Proof. eexists _, _, _. vm_compute. repeat split. Qed.

Example off_stage_grounded :
  exists c' h' p,
    post_frame (sample 85) (started (sample 85) false 3 2 0)
      (building (sample 85)) 1
      (post_frame_record 0 0 0x14 0x42b40000 0xc1200000 0x3f800000 0)
    = Ok (c', h')
    /\ dict_get (player (load (sample 85) h' 1)) 1 = Some p
    /\ x p = 90%float /\ y p = (-10)%float /\ on_ground p = true
    /\ off_stage p = false.
Proof. eexists _, _, _. vm_compute. repeat split. Qed.

(** C1 (as stated) fails: over a stage whose ground edge is 85, an airborne
    player at (0, -10) is flagged off stage although its absolute horizontal
    position does not exceed the bound. *)
Lemma off_stage_below_the_stage :
  exists c' h' p,
    post_frame (sample 85) (started (sample 85) false 3 2 0)
      (building (sample 85)) 1
      (post_frame_record 0 0 0x14 0 0xc1200000 0x3f800000 1)
    = Ok (c', h')
    /\ dict_get (player (load (sample 85) h' 1)) 1 = Some p
    /\ EDGE_GROUND_POSITION (sample 85) (stage (load (sample 85) h' 1))
       = Some 85%float
    /\ off_stage p = true
    /\ ~ (PrimFloat.ltb 85 (abs (x p)) = true
          /\ PrimFloat.ltb (y p) (-6) = true
          /\ on_ground p = false).
Proof.
  eexists _, _, _. vm_compute. repeat split. intros (H & _). discriminate H.
Qed.

(** The airborne player at (90, -10) over the stage of ground edge 85. *)
Lemma post_frame_off_stage_witness :
  exists c' h',
    post_frame (sample 85) (started (sample 85) false 3 2 0)
      (building (sample 85)) 1
      (post_frame_record 0 0 0x14 0x42b40000 0xc1200000 0x3f800000 1)
    = Ok (c', h')
    /\ exists p,
         dict_get (player (load (sample 85) h' 1)) 1 = Some p
         /\ off_stage p =
              match EDGE_GROUND_POSITION (sample 85)
                      (stage (load (sample 85) h' 1)) with
              | Some edge =>
                  (PrimFloat.ltb edge (abs (x p)) || PrimFloat.ltb (y p) (-6))
                  && negb (on_ground p)
              | None => false
              end.
Proof.
  eexists _, _. split; [vm_compute; reflexivity|].
  eapply (post_frame_off_stage (sample 85) (started (sample 85) false 3 2 0)
           (building (sample 85)) 1
           (post_frame_record 0 0 0x14 0x42b40000 0xc1200000 0x3f800000 1)
           _ _ 0); vm_compute; reflexivity.
Defined.

(** The example of the specification: previous countdown 50 and no
    overriding action give 49. *)
Lemma post_frame_invulnerability_witness :
  exists c' h',
    post_frame (sample 85) (started (sample 85) false 3 2 0)
      (previous (sample 85) [(1, sample_player (OTHER_ACTION 0x0e) 50)]) 1
      (post_frame_record 200 0 0x0e 0 0 0x3f800000 0)
    = Ok (c', h')
    /\ exists p,
         dict_get (player (load (sample 85) h' 1)) 1 = Some p
         /\ invulnerability_left p = 49.
Proof.
  eexists _, _. split; [vm_compute; reflexivity|].
  edestruct (post_frame_invulnerability (sample 85)
               (started (sample 85) false 3 2 0)
               (previous (sample 85) [(1, sample_player (OTHER_ACTION 0x0e) 50)])
               1 (post_frame_record 200 0 0x0e 0 0 0x3f800000 0))
    with (port := 0) (prev_player := sample_player (OTHER_ACTION 0x0e) 50)
    as (p & Hp & _ & _ & _ & Hdec);
    [vm_compute; reflexivity | reflexivity | reflexivity |].
  exists p. split; [exact Hp|].
  vm_compute in Hp. injection Hp as <-.
  rewrite Hdec; [reflexivity | discriminate | intros [H _]; discriminate H
                | intros [H _]; discriminate H].
Defined.

(** Idling on the respawn platform forces the countdown to 120 whatever it
    was. *)
Example invulnerability_on_halo_wait :
  exists c' h' p,
    post_frame (sample 85) (started (sample 85) false 3 2 0)
      (previous (sample 85) [(1, sample_player (OTHER_ACTION 0x0e) 50)]) 1
      (post_frame_record 200 0 0x0d 0 0 0x3f800000 0)
    = Ok (c', h')
    /\ dict_get (player (load (sample 85) h' 1)) 1 = Some p
    /\ invulnerability_left p = 120.
Proof. eexists _, _, _. vm_compute. repeat split. Qed.

(** The first descent of a match (frame index at most 150) is left alone. *)
Example invulnerability_first_descent :
  exists c' h' p,
    post_frame (sample 85) (started (sample 85) false 3 2 0)
      (previous (sample 85) [(1, sample_player ON_HALO_DESCENT 0)]) 1
      (post_frame_record 150 0 0x0c 0 0 0x3f800000 0)
    = Ok (c', h')
    /\ dict_get (player (load (sample 85) h' 1)) 1 = Some p
    /\ invulnerability_left p = 0.
Proof. eexists _, _, _. vm_compute. repeat split. Qed.

(** Dashing after standing in the previous snapshot sets the warning. *)
Example moonwalkwarning_on_dash :
  exists c' h',
    post_frame (sample 85) (started (sample 85) false 3 2 0)
      (previous (sample 85) [(1, sample_player (OTHER_ACTION 0x0e) 0)]) 1
      (post_frame_record 200 0 0x14 0 0 0x3f800000 0)
    = Ok (c', h')
    /\ exists p,
         dict_get (player (load (sample 85) h' 1)) 1 = Some p
         /\ action p = DASHING /\ moonwalkwarning p = true.
Proof.
  eexists _, _. split; [vm_compute; reflexivity|].
  edestruct (post_frame_warning (sample 85)
               (started (sample 85) false 3 2 0)
               (previous (sample 85) [(1, sample_player (OTHER_ACTION 0x0e) 0)])
               1 (post_frame_record 200 0 0x14 0 0 0x3f800000 0))
    with (port := 0)
    as (p & Hp & _ & _ & Hset); [vm_compute; reflexivity | reflexivity |].
  exists p. split; [exact Hp|].
  assert (action p = DASHING) as Hdash.
  { vm_compute in Hp. now injection Hp as <-. }
  split; [exact Hdash|].
  apply (Hset (sample_player (OTHER_ACTION 0x0e) 0));
    [vm_compute; lia | reflexivity | exact Hdash | discriminate | discriminate].
Qed.

(** ** The item-update record *)

(** C8. An item-update record appends one projectile whose owner port is the
    raw owner byte plus 1, any value above 4 being replaced by -1: raw byte 0
    gives port 1 and raw byte 4 gives -1. *)
Theorem item_update_owner (E : Externals) (h : Heap) (g : ref)
    (event_bytes : list byte) (h' : Heap) (raw : Z) :
  item_update E h g event_bytes = Ok h' ->
  read_u8 event_bytes 0x2A = Ok raw ->
  exists projectile,
    projectiles (load E h' g) = projectiles (load E h g) ++ [projectile]
    /\ (raw + 1 <= 4 -> owner projectile = raw + 1)
    /\ (4 < raw + 1 -> owner projectile = -1)
    /\ (raw = 0 -> owner projectile = 1)
    /\ (raw = 4 -> owner projectile = -1).
Proof.
  unfold item_update. intros H Hraw. rewrite Hraw in H.
  repeat match type of H with
         | rbind ?m _ = Ok _ => destruct m eqn:?; simpl in H; [|discriminate H]
         end.
  injection H as <-. rewrite load_store_eq. cbn [projectiles].
  eexists. split; [reflexivity|]. cbn [owner].
  destruct (Z.ltb_spec 4 (raw + 1)); repeat split; intros; lia.
Qed.

(** Raw owner byte 4: port 5, hence no owner. *)
Lemma item_update_owner_witness :
  exists h',
    item_update (sample 85) (building (sample 85)) 1 (item_update_record 4)
    = Ok h'
    /\ exists projectile,
         projectiles (load (sample 85) h' 1) = [projectile]
         /\ owner projectile = -1.
Proof.
  eexists. split; [vm_compute; reflexivity|].
  edestruct (item_update_owner (sample 85) (building (sample 85)) 1
               (item_update_record 4)) with (raw := 4)
    as (projectile & Hp & _ & _ & _ & Hfour);
    [vm_compute; reflexivity | reflexivity |].
  exists projectile. split; [exact Hp | now apply Hfour].
Defined.

Example item_update_owner_first_port :
  exists h' projectile,
    item_update (sample 85) (building (sample 85)) 1 (item_update_record 0)
    = Ok h'
    /\ projectiles (load (sample 85) h' 1) = [projectile]
    /\ owner projectile = 1.
Proof. eexists _, _. vm_compute. repeat split. Qed.

(** A record too short to hold the owner byte gives no owner. *)
Example item_update_owner_missing :
  exists h' projectile,
    item_update (sample 85) (building (sample 85)) 1
      (take 0x2a (item_update_record 0))
    = Ok h'
    /\ projectiles (load (sample 85) h' 1) = [projectile]
    /\ owner projectile = -1.
Proof. eexists _, _. vm_compute. repeat split. Qed.

(** ** The frame-bookend record *)

Lemma float32_sub_zero (v : float) : float32_sub v 0 = v.
Proof.
  unfold float32_sub. change (Prim2SF 0) with (S754_zero false).
  rewrite <- (SF2Prim_Prim2SF v) at 2. f_equal.
  destruct (Prim2SF v) as [[]| | |]; reflexivity.
Qed.

(** C10. When the snapshot of a frame-bookend record holds fewer than two
    players, the missing positions are (0, 0): with no player the distance
    is 0, with one player it is that player's Euclidean distance from the
    origin. *)
Theorem frame_bookend_few_players (E : Externals) (c : Console) (h : Heap)
    (g : ref) (event_bytes : list byte) :
  (player (load E h g) = [] ->
   distance (load E (snd (frame_bookend E c h g event_bytes)) g) = 0%float)
  /\ (forall port p,
        player (load E h g) = [(port, p)] ->
        first_two (player (load E h g)) = (x p, y p, 0, 0)%float
        /\ distance (load E (snd (frame_bookend E c h g event_bytes)) g)
           = PrimFloat.sqrt (x p * x p + y p * y p)%float).
Proof.
  unfold frame_bookend. cbn [snd]. rewrite load_store_eq. cbn [distance].
  split.
  - intros ->. vm_compute. reflexivity.
  - intros port p ->. split; [reflexivity|].
    unfold bookend_distance, first_two.
    cbn [fold_left snd fst Z.eqb Z.add Pos.add].
    now rewrite !float32_sub_zero.
Qed.

(** A bookend on a snapshot without players: distance 0. *)
Lemma frame_bookend_few_players_witness :
  distance
    (load (sample 85)
       (snd (frame_bookend (sample 85) (started (sample 85) false 3 2 0)
               (previous (sample 85) []) 1 (frame_bookend_record 0))) 1)
  = 0%float.
Proof.
  apply (proj1 (frame_bookend_few_players (sample 85)
                  (started (sample 85) false 3 2 0) (previous (sample 85) [])
                  1 (frame_bookend_record 0))).
  vm_compute. reflexivity.
Defined.

(** One player at (3, 4): the distance is 5. *)
Example frame_bookend_one_player :
  exists c' h' c'' h'',
    post_frame (sample 85) (started (sample 85) false 3 2 0)
      (building (sample 85)) 1
      (post_frame_record 0 2 0x0e 0x40400000 0x40800000 0x3f800000 0)
    = Ok (c', h')
    /\ frame_bookend (sample 85) c' h' 1 (frame_bookend_record 0) = (c'', h'')
    /\ distance (load (sample 85) h'' 1) = 5%float.
Proof.
  eexists _, _, _, _.
  split; [vm_compute; reflexivity|]. split; [vm_compute; reflexivity|].
  vm_compute. reflexivity.
Qed.

(** ** The session-start record *)

Lemma version_below_three (major minor version_num : Z) :
  0 <= minor -> 0 <= version_num ->
  version_lt (major, minor, version_num) (3, 0, 0) = (major <? 3).
Proof.
  intros Hminor Hnum. unfold version_lt.
  destruct (Z.ltb_spec major 3); [reflexivity|]. cbn [orb].
  destruct (Z.ltb_spec minor 0); [lia|].
  destruct (Z.ltb_spec version_num 0); [lia|].
  now rewrite !andb_false_r.
Qed.

Lemma read_ports_in_range (event_bytes : list byte) (base n : nat) (i : Z)
    (d : list (Z * Z)) :
  0 <= i ->
  (base + 0x24 * (Z.to_nat i + n) <= length event_bytes + 0x23)%nat ->
  exists d', read_ports event_bytes base n i d = Ok d'.
Proof.
  revert i d. induction n as [|n IH]; intros i d Hi Hlen; cbn [read_ports].
  - eauto.
  - destruct (read_u8_in_range event_bytes (base + 0x24 * Z.to_nat i))
      as [v ->]; [lia|].
    cbn [rbind]. apply IH; lia.
Qed.

Lemma clear_inactive_in_range (event_bytes : list byte) (n : nat) (i : Z)
    (d : list (Z * Z)) :
  0 <= i ->
  (0x66 + 0x24 * (Z.to_nat i + n) <= length event_bytes + 0x23)%nat ->
  exists d', clear_inactive event_bytes n i d = Ok d'.
Proof.
  revert i d. induction n as [|n IH]; intros i d Hi Hlen;
    cbn [clear_inactive].
  - eauto.
  - destruct (read_u8_in_range event_bytes (0x66 + 0x24 * Z.to_nat i))
      as [v ->]; [lia|].
    cbn [rbind]. apply IH; lia.
Qed.

(** C6. When the session-start record declares a version below 3.0.0 and the
    caller has not allowed old versions, decoding raises
    [SlippiVersionTooLow]; otherwise a record of full length is decoded.
    After a decoded session-start record, legacy-bookend mode is active
    exactly when the caller allowed old versions and the declared version is
    below 3.0.0. *)
Theorem game_start_version (E : Externals) (c : Console)
    (event_bytes : list byte) (major minor version_num : Z) :
  read_u8 event_bytes 0x1 = Ok major ->
  read_u8 event_bytes 0x2 = Ok minor ->
  read_u8 event_bytes 0x3 = Ok version_num ->
  (version_lt (major, minor, version_num) (3, 0, 0) = true ->
   _allow_old_version c = false ->
   game_start E c event_bytes
   = Raise (SlippiVersionTooLow major minor version_num))
  /\ (forall c',
        game_start E c event_bytes = Ok c' ->
        (_use_manual_bookends c' = true
         <-> _allow_old_version c = true
             /\ version_lt (major, minor, version_num) (3, 0, 0) = true))
  /\ (version_lt (major, minor, version_num) (3, 0, 0) = false
      \/ _allow_old_version c = true ->
      (0xe1 <= length event_bytes)%nat ->
      exists c', game_start E c event_bytes = Ok c').
Proof.
  intros Hmajor Hminor Hnum.
  pose proof (read_u8_range _ _ _ Hminor) as Rminor.
  pose proof (read_u8_range _ _ _ Hnum) as Rnum.
  rewrite version_below_three by lia.
  unfold game_start. rewrite Hmajor, Hminor, Hnum. cbn [rbind].
  rewrite version_below_three by lia.
  split; [|split].
  - intros -> ->. reflexivity.
  - intros c' H.
    destruct ((major <? 3) && negb (_allow_old_version c)) eqn:Hlow;
      [discriminate H|].
    repeat match type of H with
           | rbind ?m _ = Ok _ =>
               destruct m eqn:?; cbn [rbind] in H; [|discriminate H]
           end.
    injection H as <-. cbn [_use_manual_bookends].
    rewrite andb_true_iff. tauto.
  - intros Hok Hlen.
    assert ((major <? 3) && negb (_allow_old_version c) = false) as ->.
    { destruct Hok as [-> | ->]; [reflexivity | apply andb_false_r]. }
    destruct (read_be_in_range 2 event_bytes 0x13 0) as [stage_id Hstage];
      [lia|].
    unfold read_u16. rewrite Hstage. cbn [rbind].
    destruct (read_ports_in_range event_bytes 0x68 4 0 (_costumes c))
      as [d1 ->]; [lia | simpl; lia |]. cbn [rbind].
    destruct (read_ports_in_range event_bytes 0x74 4 0 (_cpu_level c))
      as [d2 ->]; [lia | simpl; lia |]. cbn [rbind].
    destruct (clear_inactive_in_range event_bytes 4 0 d2)
      as [d3 ->]; [lia | simpl; lia |]. cbn [rbind].
    eauto.
Qed.

(** Version 2.9.1 on a console that does not allow old versions. *)
Lemma game_start_version_witness :
  game_start (sample 85) (initial_console false) (game_start_record 2 9 1 0x20)
  = Raise (SlippiVersionTooLow 2 9 1).
Proof.
  apply (proj1 (game_start_version (sample 85) (initial_console false)
                  (game_start_record 2 9 1 0x20) 2 9 1
                  eq_refl eq_refl eq_refl));
    reflexivity.
Defined.

(** The same old stream is decoded in legacy-bookend mode when the caller
    allows old versions; a 3.x stream never is. *)
Example game_start_legacy :
  exists c',
    game_start (sample 85) (initial_console true) (game_start_record 2 9 1 0x20)
    = Ok c'
    /\ _use_manual_bookends c' = true /\ _frame c' = -10000.
Proof. eexists. vm_compute. repeat split. Qed.

Example game_start_modern :
  exists c',
    game_start (sample 85) (initial_console true) (game_start_record 3 2 0 0x20)
    = Ok c'
    /\ _use_manual_bookends c' = false /\ _current_stage c' = STAGE 0x19.
Proof. eexists. vm_compute. repeat split. Qed.

(** The error leaves [step]: the caller gets the exception. *)
Example game_start_too_low_propagates :
  step (sample 85) 8 (initial_console false) (initial_heap (sample 85))
    [game_event (payloads_record ++ game_start_record 2 9 1 0x20)]
  = Some (Raise (SlippiVersionTooLow 2 9 1)).
Proof. vm_compute. reflexivity. Qed.

(** ** The event dispatcher *)

Section DispatcherFacts.
Variable E : Externals.

Lemma event_step_short (c : Console) (h : Heap) (g : ref)
    (event_bytes : list byte) (first : byte) (n : Z) :
  eventsize c !! Z.to_nat (byte_val first) = Some n ->
  Z.of_nat (length event_bytes) < n ->
  event_step E c h g event_bytes first = Ok (Return c h false).
Proof.
  intros Hsize Hlen. unfold event_step. rewrite Hsize. cbn [rbind].
  destruct (Z.ltb_spec (Z.of_nat (length event_bytes)) n); [reflexivity | lia].
Qed.

Lemma event_step_unknown (c : Console) (h : Heap) (g : ref)
    (event_bytes : list byte) (first : byte) (n : Z) :
  eventsize c !! Z.to_nat (byte_val first) = Some n ->
  n <= Z.of_nat (length event_bytes) ->
  EventType_of_value E (byte_val first) = None ->
  event_step E c h g event_bytes first = Raise ValueError.
Proof.
  intros Hsize Hlen Hnone. unfold event_step. rewrite Hsize. cbn [rbind].
  destruct (Z.ltb_spec (Z.of_nat (length event_bytes)) n); [lia|].
  now rewrite Hnone.
Qed.

(** C2 (as amended). When the bytes left at the cursor are fewer than the
    declared length of the record that starts there, the dispatcher stops
    without error and reports no frame, leaving the console and the snapshot
    as they were at the cursor. The unconsumed remainder is discarded: [step]
    goes on with the next message, which is decoded from its own first
    byte. *)
Theorem partial_record_dropped (fuel : nat) (c : Console) (h : Heap) (g : ref)
    (first : byte) (rest : list byte) (n : Z) (messages : list message) :
  eventsize c !! Z.to_nat (byte_val first) = Some n ->
  Z.of_nat (length (first :: rest)) < n ->
  events_loop E (S fuel) c h g (first :: rest) = Some (Ok (c, h, false))
  /\ step_loop E (S fuel) c h g (game_event (first :: rest) :: messages)
     = step_loop E (S fuel) c
         (store h g (set_menu_state (load E h g) IN_GAME)) g messages.
Proof.
  intros Hsize Hlen. split.
  - cbn [events_loop]. now rewrite (event_step_short _ _ _ _ _ _ Hsize Hlen).
  - cbn [step_loop length Nat.ltb Nat.leb].
    unfold handle_slippstream_events. cbn [events_loop].
    now rewrite (event_step_short _ _ _ _ _ _ Hsize Hlen).
Qed.

(** The one error the dispatcher itself raises: a byte that is the value of
    no event type makes the first [EventType(event_bytes[0])] raise
    [ValueError], once the buffer holds the declared length of that byte (0
    when none was registered). The final [else] branch, which would warn and
    return false, is never reached. *)
Lemma unknown_command_raises (fuel : nat) (c : Console) (h : Heap) (g : ref)
    (first : byte) (rest : list byte) (n : Z) (messages : list message) :
  eventsize c !! Z.to_nat (byte_val first) = Some n ->
  n <= Z.of_nat (length (first :: rest)) ->
  EventType_of_value E (byte_val first) = None ->
  events_loop E (S fuel) c h g (first :: rest) = Some (Raise ValueError)
  /\ step_loop E (S fuel) c h g (game_event (first :: rest) :: messages)
     = Some (Raise ValueError).
Proof.
  intros Hsize Hlen Hnone. split.
  - cbn [events_loop].
    now rewrite (event_step_unknown _ _ _ _ _ _ Hsize Hlen Hnone).
  - cbn [step_loop length Nat.ltb Nat.leb].
    unfold handle_slippstream_events. cbn [events_loop].
    now rewrite (event_step_unknown _ _ _ _ _ _ Hsize Hlen Hnone).
Qed.

(** More fuel does not change what the loop returns. *)
Lemma events_loop_more_fuel (fuel : nat) :
  forall (c : Console) (h : Heap) (g : ref) (event_bytes : list byte)
         (r : result (Console * Heap * bool)),
    events_loop E fuel c h g event_bytes = Some r ->
    events_loop E (S fuel) c h g event_bytes = Some r.
Proof.
  induction fuel as [|fuel IH]; intros c h g event_bytes r H.
  - destruct event_bytes; [exact H | discriminate H].
  - destruct event_bytes as [|first rest]; [exact H|].
    cbn [events_loop] in H |- *.
    destruct (event_step E c h g (first :: rest) first)
      as [[c1 h1 rest1 | c1 h1 frame_ended] | e]; try exact H.
    exact (IH _ _ _ _ _ H).
Qed.

(** A recognised command that is consumed for its length only and has no
    registered length never lets the loop end: the buffer stays as it is. *)
Lemma unregistered_length_loops (fuel : nat) (c : Console) (h : Heap) (g : ref)
    (first : byte) (rest : list byte) :
  eventsize c !! Z.to_nat (byte_val first) = Some 0 ->
  EventType_of_value E (byte_val first) = Some FRAME_START
  \/ EventType_of_value E (byte_val first) = Some GECKO_CODES ->
  events_loop E fuel c h g (first :: rest) = None.
Proof.
  intros Hsize Hev. induction fuel as [|fuel IH]; [reflexivity|].
  cbn [events_loop]. unfold event_step. rewrite Hsize. cbn [rbind].
  destruct (Z.ltb_spec (Z.of_nat (length (first :: rest))) 0); [lia|].
  destruct Hev as [-> | ->]; exact IH.
Qed.

(** C3: the code has no test for a missing length. The table of lengths
    starts with 0 at every command byte and the lookup never fails, so a
    command that was never registered is dispatched with declared length 0.
    For a frame-start or code-list record, which are consumed for their
    length only, the turn of the loop then leaves the console, the snapshot
    and the buffer exactly as they were: the loop never ends, [step] never
    returns, and no error reaches the caller. *)
Theorem unregistered_length_never_returns (c : Console) (h : Heap) (g : ref)
    (first : byte) (rest : list byte) (messages : list message) :
  eventsize c !! Z.to_nat (byte_val first) = Some 0 ->
  EventType_of_value E (byte_val first) = Some FRAME_START
  \/ EventType_of_value E (byte_val first) = Some GECKO_CODES ->
  event_step E c h g (first :: rest) first
  = Ok (Continue c h (first :: rest))
  /\ (forall fuel, events_loop E fuel c h g (first :: rest) = None)
  /\ (forall fuel,
        step_loop E fuel c h g (game_event (first :: rest) :: messages)
        = None).
Proof.
  intros Hsize Hev. split; [|split].
  - unfold event_step. rewrite Hsize. cbn [rbind].
    destruct (Z.ltb_spec (Z.of_nat (length (first :: rest))) 0); [lia|].
    destruct Hev as [-> | ->]; reflexivity.
  - intros fuel. now apply unregistered_length_loops.
  - intros fuel. cbn [step_loop length Nat.ltb Nat.leb].
    unfold handle_slippstream_events.
    now rewrite unregistered_length_loops.
Qed.

End DispatcherFacts.

(** C2 (as stated) fails. A post-frame record and its bookend delivered in
    one piece give a frame; the same bytes delivered in two pieces, the
    first ending inside the post-frame record, give none: the first piece is
    dropped, and the second, decoded from its first byte, is an error. *)
Lemma split_delivery_is_not_resumed :
  let E := sample 85 in
  let c := started E false 3 2 0 in
  let stream :=
    post_frame_record 7 0 0x14 0 0 0x3f800000 0 ++ frame_bookend_record 7 in
  (exists c' h',
     step E 8 c (building E) [game_event stream]
     = Some (Ok (c', h', Some 1%nat, []))
     /\ frame (load E h' 1) = 7)
  /\ step E 8 c (building E)
       [game_event (take 50 stream); game_event (drop 50 stream)]
     = Some (Raise ValueError).
Proof.
  split.
  - eexists _, _. split; vm_compute; reflexivity.
  - vm_compute. reflexivity.
Qed.

(** Four bytes of a frame-bookend record, whose declared length is 9. *)
Lemma partial_record_dropped_witness :
  let E := sample 85 in
  let c := started E false 3 2 0 in
  events_loop E 1 c (building E) 1 [x3c; x00; x00; x00]
  = Some (Ok (c, building E, false)).
Proof.
  apply (proj1 (partial_record_dropped (sample 85) 0
                  (started (sample 85) false 3 2 0) (building (sample 85)) 1
                  x3c [x00; x00; x00] 9 []
                  eq_refl ltac:(vm_compute; reflexivity))).
Defined.

(** On a console that has registered no length at all, a record starting
    with the session-end command is dispatched and the dispatcher returns
    normally, reporting no frame. *)
Lemma unregistered_command_is_dispatched :
  eventsize (initial_console false) !! Z.to_nat (byte_val x39) = Some 0
  /\ sample_EventType (byte_val x39) = Some GAME_END
  /\ exists c' h',
       handle_slippstream_events (sample 85) 8 (initial_console false)
         (building (sample 85)) 1 [x39; x00; x00]
       = Some (Ok (c', h', false)).
Proof.
  split; [reflexivity|]. split; [reflexivity|].
  eexists _, _. vm_compute. reflexivity.
Qed.

(** A fresh console, which has decoded no payload-descriptor record, is
    handed a message that starts with the frame-start command 0x3a. *)
Lemma unregistered_length_never_returns_witness :
  eventsize (initial_console false) !! Z.to_nat (byte_val x3a) = Some 0
  /\ forall fuel,
       step_loop (sample 85) fuel (initial_console false)
         (building (sample 85)) 1 [game_event [x3a]; frame_end]
       = None.
Proof.
  split; [reflexivity|].
  apply (proj2 (proj2 (unregistered_length_never_returns (sample 85)
                         (initial_console false) (building (sample 85)) 1
                         x3a [] [frame_end] eq_refl
                         (or_introl eq_refl)))).
Defined.

(** The byte 0x77 is no command of the protocol. *)
Lemma unknown_command_raises_witness :
  step_loop (sample 85) 1 (initial_console false) (building (sample 85)) 1
    [game_event [x77; x00; x00]; frame_end]
  = Some (Raise ValueError).
Proof.
  apply (proj2 (unknown_command_raises (sample 85) 0 (initial_console false)
                  (building (sample 85)) 1 x77 [x00; x00] 0 [frame_end]
                  eq_refl ltac:(vm_compute; discriminate) eq_refl)).
Defined.

(** ** Frames of one session, outside legacy-bookend mode *)

Section SessionFacts.
Variable E : Externals.

Lemma game_start_session (c c' : Console) (event_bytes : list byte) :
  game_start E c event_bytes = Ok c' -> sessions c' = S (sessions c).
Proof.
  unfold game_start. intros H.
  repeat match type of H with
         | rbind ?m _ = Ok _ =>
             destruct m eqn:?; cbn [rbind] in H; [|discriminate H]
         | (if ?b then _ else _) = Ok _ => destruct b; [discriminate H|]
         end.
  now injection H as <-.
Qed.

Lemma pre_frame_turn (c c' : Console) (h h' : Heap) (g : ref)
    (event_bytes : list byte) :
  pre_frame E c h g event_bytes = Ok (c', h') ->
  sessions c' = sessions c
  /\ _use_manual_bookends c' = _use_manual_bookends c
  /\ (_use_manual_bookends c = false -> _frame c' = _frame c).
Proof.
  unfold pre_frame. intros H.
  repeat match type of H with
         | rbind ?m _ = Ok _ =>
             destruct m eqn:?; cbn [rbind] in H; [|discriminate H]
         end.
  injection H as <- _.
  destruct (_use_manual_bookends c) eqn:Hmanual; cbn; rewrite ?Hmanual;
    repeat split; auto; discriminate.
Qed.

Lemma post_frame_turn (c c' : Console) (h h' : Heap) (g : ref)
    (event_bytes : list byte) :
  post_frame E c h g event_bytes = Ok (c', h') ->
  sessions c' = sessions c
  /\ _use_manual_bookends c' = _use_manual_bookends c
  /\ (_use_manual_bookends c = false -> _frame c' = _frame c).
Proof.
  intros H.
  destruct (post_frame_inv E _ _ _ _ _ H) as (d & _ & Hr).
  apply (f_equal fst) in Hr. cbn [fst] in Hr. rewrite Hr.
  unfold post_frame_store. cbn zeta. cbn [fst].
  destruct (_use_manual_bookends c) eqn:Hmanual; cbn; rewrite ?Hmanual;
    repeat split; auto; discriminate.
Qed.

Lemma dispatch_turn (c : Console) (h : Heap) (g : ref)
    (event_bytes : list byte) (ev : EventType) (event_size : Z)
    (out : outcome) :
  dispatch E c h g event_bytes ev event_size = Ok out ->
  turn_ok E c g out.
Proof.
  intros H. destruct ev; cbn [dispatch] in H.
  - (* PAYLOADS *)
    repeat match type of H with
           | rbind ?m _ = Ok _ =>
               destruct m eqn:?; cbn [rbind] in H; [|discriminate H]
           end.
    injection H as <-. cbn. auto.
  - injection H as <-. cbn. auto.
  - (* GAME_START *)
    destruct (game_start E c event_bytes) as [c'|] eqn:Hstart;
      cbn [rbind] in H; [|discriminate H].
    injection H as <-. pose proof (game_start_session _ _ _ Hstart) as Hs.
    cbn. split; [lia|]. intros Hsame. lia.
  - (* GAME_END *)
    injection H as <-. cbn. split; [reflexivity|]. split; [reflexivity|].
    now intros ->.
  - (* PRE_FRAME *)
    destruct (pre_frame E c h g event_bytes) as [[c' h']|] eqn:Hpre;
      cbn [rbind] in H; [|discriminate H].
    injection H as <-.
    destruct (pre_frame_turn _ _ _ _ _ _ Hpre) as (Hs & Hmanual & Hframe).
    cbn. split; [lia | auto].
  - (* POST_FRAME *)
    destruct (post_frame E c h g event_bytes) as [[c' h']|] eqn:Hpost;
      cbn [rbind] in H; [|discriminate H].
    injection H as <-.
    destruct (post_frame_turn _ _ _ _ _ _ Hpost) as (Hs & Hmanual & Hframe).
    cbn. split; [lia | auto].
  - injection H as <-. cbn. auto.
  - (* FRAME_BOOKEND *)
    unfold frame_bookend in H. rewrite load_store_eq in H.
    cbn [frame _frame set_prev_gamestate] in H.
    destruct (Z.leb_spec (frame (load E h g)) (_frame c));
      injection H as <-; cbn; rewrite ?load_store_eq; cbn; auto.
  - (* ITEM_UPDATE *)
    destruct (item_update E h g event_bytes) as [h'|] eqn:Hitem;
      cbn [rbind] in H; [|discriminate H].
    injection H as <-. cbn. auto.
  - injection H as <-. cbn. auto.
Qed.

Lemma event_step_turn (c : Console) (h : Heap) (g : ref)
    (event_bytes : list byte) (first : byte) (out : outcome) :
  event_step E c h g event_bytes first = Ok out ->
  turn_ok E c g out.
Proof.
  unfold event_step. intros H.
  destruct (eventsize c !! Z.to_nat (byte_val first)) as [n|];
    cbn [rbind] in H; [|discriminate H].
  destruct (Z.of_nat (length event_bytes) <? n).
  - injection H as <-. cbn. auto.
  - destruct (EventType_of_value E (byte_val first)) as [ev|];
      [|discriminate H].
    exact (dispatch_turn _ _ _ _ _ _ _ H).
Qed.

Lemma call_ok_refl (c : Console) : call_ok c c None.
Proof. split; [lia | auto]. Qed.

Lemma call_ok_then (c c1 c' : Console) (delivered : option Z) :
  call_ok c c1 None -> call_ok c1 c' delivered -> call_ok c c' delivered.
Proof.
  intros (Hle & Hsame) (Hle' & Hsame').
  split; [lia|]. intros Hs.
  assert (sessions c1 = sessions c) as Hs1 by lia.
  assert (sessions c' = sessions c1) as Hs' by lia.
  destruct (Hsame Hs1) as [Hmanual Hframe].
  destruct (Hsame' Hs') as [Hmanual' Hframe'].
  split; [congruence|]. intros Hoff.
  specialize (Hframe Hoff). rewrite <- Hmanual in Hoff.
  specialize (Hframe' Hoff).
  destruct delivered; rewrite <- Hframe; exact Hframe'.
Qed.

Lemma events_loop_call (fuel : nat) (c : Console) (h : Heap) (g : ref)
    (event_bytes : list byte) (c' : Console) (h' : Heap) (frame_ended : bool) :
  events_loop E fuel c h g event_bytes = Some (Ok (c', h', frame_ended)) ->
  call_ok c c'
    (if frame_ended then Some (frame (load E h' g)) else None).
Proof.
  revert c h event_bytes.
  induction fuel as [|fuel IH]; intros c h event_bytes H;
    destruct event_bytes as [|first rest]; cbn [events_loop] in H;
    try discriminate H;
    try (injection H as <- <- <-; apply call_ok_refl).
  destruct (event_step E c h g (first :: rest) first) as [out|] eqn:Hstep;
    [|discriminate H].
  pose proof (event_step_turn _ _ _ _ _ _ Hstep) as Hturn.
  destruct out as [c1 h1 rest1 | c1 h1 ended1]; cbn [turn_ok] in Hturn.
  - apply (call_ok_then c c1 c'); [exact Hturn | exact (IH _ _ _ H)].
  - injection H as <- <- <-. destruct Hturn as (Hs1 & Hmanual & Hframe).
    split; [lia|]. intros _. split; [exact Hmanual|]. intros Hoff.
    specialize (Hframe Hoff).
    destruct ended1; [destruct Hframe as [Hlt Heq]; rewrite Heq|]; auto.
Qed.

Lemma frame_fixed_up (gs : GameState) :
  frame (fixiasa E (fixframeindexing E gs)) = frame gs.
Proof. reflexivity. Qed.

Lemma step_loop_call (fuel : nat) (messages : list message) :
  forall (c : Console) (h : Heap) (g : ref) (c' : Console) (h' : Heap)
         (gamestate : option ref) (rest : list message),
    step_loop E fuel c h g messages = Some (Ok (c', h', gamestate, rest)) ->
    call_ok c c' ((fun r => frame (load E h' r)) <$> gamestate).
Proof.
  induction messages as [|m messages IH]; intros c h g c' h' gamestate rest H.
  - injection H as <- <- <- <-. apply call_ok_refl.
  - destruct m as [|payload| |]; cbn [step_loop] in H.
    + exact (IH _ _ _ _ _ _ _ H).
    + destruct (0 <? length payload)%nat; [|exact (IH _ _ _ _ _ _ _ H)].
      unfold handle_slippstream_events in H.
      destruct (events_loop E fuel c _ g payload)
        as [[[[c1 h1] ended]|]|] eqn:Hloop; try discriminate H.
      pose proof (events_loop_call _ _ _ _ _ _ _ _ Hloop) as Hcall.
      destruct ended.
      * injection H as <- <- <- <-. cbn [fmap option_fmap option_map].
        rewrite load_store_eq, frame_fixed_up. exact Hcall.
      * apply (call_ok_then c c1 c'); [exact Hcall|].
        exact (IH _ _ _ _ _ _ _ H).
    + destruct (_use_manual_bookends c) eqn:Hmanual; cbn [andb] in H;
        [|exact (IH _ _ _ _ _ _ _ H)].
      destruct (negb (_frame c =? -10000)); [|exact (IH _ _ _ _ _ _ _ H)].
      injection H as <- <- <- <-. split; [cbn; lia|]. intros _.
      split; [reflexivity|]. rewrite Hmanual. discriminate.
    + exact (IH _ _ _ _ _ _ _ H).
Qed.

Lemma step_call (fuel : nat) (c : Console) (h : Heap)
    (messages : list message) (c' : Console) (h' : Heap)
    (gamestate : option ref) (rest : list message) :
  step E fuel c h messages = Some (Ok (c', h', gamestate, rest)) ->
  call_ok c c' ((fun r => frame (load E h' r)) <$> gamestate).
Proof.
  unfold step. intros H. destruct (_temp_gamestate c) as [g|].
  - exact (step_loop_call _ _ _ _ _ _ _ _ _ H).
  - cbn [alloc] in H.
    exact (step_loop_call _ _ (set_temp_gamestate c _) _ _ _ _ _ _ H).
Qed.

Lemma run_call (calls fuel : nat) :
  forall (c : Console) (h : Heap) (messages : list message)
         (gamestates : list GameState) (c' : Console) (h' : Heap),
    run E calls fuel c h messages = Some (Ok (gamestates, c', h')) ->
    (sessions c <= sessions c')%nat
    /\ (sessions c' = sessions c ->
        _use_manual_bookends c' = _use_manual_bookends c
        /\ (_use_manual_bookends c = false ->
            _frame c <= _frame c'
            /\ Forall (fun index => _frame c < index <= _frame c')
                 (map frame gamestates)
            /\ StronglySorted Z.lt (map frame gamestates))).
Proof.
  induction calls as [|calls IH]; intros c h messages gamestates c' h' H;
    cbn [run] in H.
  - injection H as <- <- <-. split; [lia|]. intros _.
    split; [reflexivity|]. intros _. split; [lia|]. split; constructor.
  - destruct (step E fuel c h messages)
      as [[[[[c1 h1] [g|]] rest]|]|] eqn:Hstep; try discriminate H.
    + destruct (step_call _ _ _ _ _ _ _ _ Hstep) as (Hle1 & Hsame1).
      destruct (run E calls fuel c1 h1 rest)
        as [[[[later c2] h2]|]|] eqn:Hrun; try discriminate H.
      injection H as <- <- <-.
      destruct (IH _ _ _ _ _ _ Hrun) as (Hle2 & Hsame2).
      split; [lia|]. intros Hs.
      assert (sessions c1 = sessions c) as Hs1 by lia.
      assert (sessions c2 = sessions c1) as Hs2 by lia.
      destruct (Hsame1 Hs1) as [Hmanual1 Hframe1].
      destruct (Hsame2 Hs2) as [Hmanual2 Hframe2].
      split; [congruence|]. intros Hoff.
      destruct (Hframe1 Hoff) as [Hlt Heq].
      cbn [fmap option_fmap option_map] in *.
      rewrite <- Hmanual1 in Hoff.
      destruct (Hframe2 Hoff) as (Hle' & Hall & Hsorted).
      cbn [map]. split; [lia|]. split.
      * constructor; [lia|].
        eapply Forall_impl; [exact Hall|]. cbn. intros index Hindex. lia.
      * constructor; [exact Hsorted|].
        eapply Forall_impl; [exact Hall|]. cbn. intros index Hindex. lia.
    + injection H as <- <- <-.
      destruct (step_call _ _ _ _ _ _ _ _ Hstep) as (Hle1 & Hsame1).
      split; [exact Hle1|]. intros Hs.
      destruct (Hsame1 Hs) as [Hmanual1 Hframe1].
      split; [exact Hmanual1|]. intros Hoff.
      specialize (Hframe1 Hoff). cbn in Hframe1.
      split; [lia|]. split; constructor.
Qed.

End SessionFacts.

(** C4 (as amended). Outside legacy-bookend mode, within one session (no
    session-start record is decoded) and as long as the transport delivers
    no menu event, the frame indices of the snapshots [step] returns are
    strictly increasing, each above the index last delivered before; and a
    frame-bookend record for a snapshot whose index is not strictly greater
    than the last delivered index ends no frame. The messages of the model
    are the connection reply, game events, [frame_end] and messages of other
    types: a menu event ends a frame with the index of its own counter,
    which no test compares. *)
Theorem frames_strictly_increasing (E : Externals) (calls fuel : nat)
    (c : Console) (h : Heap) (messages : list message)
    (gamestates : list GameState) (c' : Console) (h' : Heap) :
  _use_manual_bookends c = false ->
  run E calls fuel c h messages = Some (Ok (gamestates, c', h')) ->
  sessions c' = sessions c ->
  StronglySorted Z.lt (map frame gamestates)
  /\ Forall (fun index => _frame c < index) (map frame gamestates)
  /\ (forall (c0 : Console) (h0 : Heap) (g : ref) (event_bytes : list byte)
             (event_size : Z),
        frame (load E h0 g) <= _frame c0 ->
        exists c1 h1,
          dispatch E c0 h0 g event_bytes FRAME_BOOKEND event_size
          = Ok (Return c1 h1 false)
          /\ _frame c1 = _frame c0).
Proof.
  intros Hmanual Hrun Hs.
  destruct (run_call E calls fuel c h messages gamestates c' h' Hrun)
    as (_ & Hsame).
  destruct (Hsame Hs) as (_ & Hoff).
  destruct (Hoff Hmanual) as (_ & Hall & Hsorted).
  split; [exact Hsorted|]. split.
  - eapply Forall_impl; [exact Hall|]. cbn. intros index Hindex. lia.
  - intros c0 h0 g event_bytes event_size Hold.
    cbn [dispatch]. unfold frame_bookend. rewrite load_store_eq.
    cbn [frame _frame set_prev_gamestate].
    destruct (Z.leb_spec (frame (load E h0 g)) (_frame c0)); [|lia].
    eexists _, _. split; reflexivity.
Qed.

(** A frame delivered twice is returned once; the caller allowed old
    versions, and the version 3.2.0 of the stream left legacy-bookend mode
    off. *)
Lemma frames_strictly_increasing_witness :
  exists gamestates c' h',
    _allow_old_version (started (sample 85) true 3 2 0) = true
    /\ run (sample 85) 4 8 (started (sample 85) true 3 2 0)
         (building (sample 85))
         [game_event (frame_records 1 0x0e);
          game_event (frame_records 1 0x0e);
          game_event (frame_records 2 0x0e)]
       = Some (Ok (gamestates, c', h'))
    /\ map frame gamestates = [1; 2]
    /\ StronglySorted Z.lt (map frame gamestates).
Proof.
  eexists _, _, _. split; [vm_compute; reflexivity|].
  split; [vm_compute; reflexivity|].
  split; [vm_compute; reflexivity|].
  eapply (proj1 (frames_strictly_increasing (sample 85) 4 8
                   (started (sample 85) true 3 2 0) (building (sample 85))
                   [game_event (frame_records 1 0x0e);
                    game_event (frame_records 1 0x0e);
                    game_event (frame_records 2 0x0e)]
                   _ _ _ ltac:(vm_compute; reflexivity)
                   ltac:(vm_compute; reflexivity)
                   ltac:(vm_compute; reflexivity))).
Defined.

(** C4 (as stated) fails. In legacy-bookend mode, which the caller allowed
    and the version 2.9.1 of the stream switched on, a frame ends at each
    [frame_end] message whatever its index: frame 5 is returned, then frame
    3, within one session. *)
Lemma legacy_frames_not_increasing :
  exists first second c' h',
    run (sample 85) 3 8 (initial_console true) (initial_heap (sample 85))
      [game_event (payloads_record ++ game_start_record 2 9 1 0x20
                   ++ post_frame_record 5 0 0x0e 0 0 0x3f800000 0);
       frame_end;
       game_event (post_frame_record 3 0 0x0e 0 0 0x3f800000 0);
       frame_end]
    = Some (Ok ([first; second], c', h'))
    /\ frame first = 5 /\ frame second = 3
    /\ _use_manual_bookends c' = true /\ sessions c' = 1%nat.
Proof.
  eexists _, _, _, _. split; [vm_compute; reflexivity|].
  vm_compute. repeat split.
Qed.

(** ** The previous snapshot *)



(** A frame that is discarded is the lookback of the next one: frame 1 is
    returned with countdown 0; delivered again, now idling on the respawn
    platform, it is discarded with countdown 120; frame 2 continues from
    119. *)
Example discarded_frame_is_lookback :
  exists first second c' h',
    run (sample 85) 3 8 (started (sample 85) false 3 2 0)
      (building (sample 85))
      [game_event (frame_records 1 0x0e); game_event (frame_records 1 0x0d);
       game_event (frame_records 2 0x0e)]
    = Some (Ok ([first; second], c', h'))
    /\ frame first = 1
    /\ invulnerability_left <$> dict_get (player first) 1 = Some 0
    /\ frame second = 2
    /\ invulnerability_left <$> dict_get (player second) 1 = Some 119.
Proof.
  eexists _, _, _, _. split; [vm_compute; reflexivity|].
  vm_compute. repeat split.
Qed.

(** C7: the code at a stream that delivers a frame twice. A player standing
    in frame 1 and dashing in frame 2 gets the warning. When frame 1 is
    delivered a second time in between, and discarded, frame 2 is decoded
    into the discarded snapshot, which is also the previous snapshot: the
    action read for the lookback is the one just stored, and the warning is
    not set. *)
Theorem moonwalkwarning_lost_after_discarded_frame :
  (exists first second c' h',
     run (sample 85) 3 8 (started (sample 85) false 3 2 0)
       (building (sample 85))
       [game_event (frame_records 1 0x0e); game_event (frame_records 2 0x14)]
     = Some (Ok ([first; second], c', h'))
     /\ action <$> dict_get (player first) 1 = Some (OTHER_ACTION 0x0e)
     /\ action <$> dict_get (player second) 1 = Some DASHING
     /\ moonwalkwarning <$> dict_get (player second) 1 = Some true)
  /\ (exists first second c' h',
        run (sample 85) 3 8 (started (sample 85) false 3 2 0)
          (building (sample 85))
          [game_event (frame_records 1 0x0e);
           game_event (frame_records 1 0x0e);
           game_event (frame_records 2 0x14)]
        = Some (Ok ([first; second], c', h'))
        /\ action <$> dict_get (player first) 1 = Some (OTHER_ACTION 0x0e)
        /\ action <$> dict_get (player second) 1 = Some DASHING
        /\ moonwalkwarning <$> dict_get (player second) 1 = Some false).
Proof.
  split; eexists _, _, _, _; (split; [vm_compute; reflexivity|]);
    vm_compute; repeat split.
Qed.

(** ** A whole stream *)

(** The payload-descriptor record, a session-start record of version 3.2.0
    on a known stage, one pre-frame and one post-frame record for port 1 and
    the frame-bookend record give exactly one snapshot: frame -123, on the
    stage of the session, with the player of port 1 filled from both
    records. *)
Example one_frame_stream :
  exists gs p c' h',
    run (sample 85) 2 8 (initial_console false) (initial_heap (sample 85))
      [connect_reply;
       game_event (payloads_record ++ game_start_record 3 2 0 0x20
                   ++ pre_frame_record (-123) 0 0x3f800000 0x0100
                   ++ post_frame_record (-123) 0 0x14 0x42b40000 0xc1200000
                        0x3f800000 1
                   ++ frame_bookend_record (-123))]
    = Some (Ok ([gs], c', h'))
    /\ frame gs = -123 /\ stage gs = STAGE 0x19
    /\ player gs = [(1, p)]
    /\ main_stick (controller_state p) = (1, 0.5)%float
    /\ BUTTON_A (controller_state p) = true
    /\ x p = 90%float /\ y p = (-10)%float /\ action p = DASHING
    /\ connected c' = true /\ _frame c' = -123.
Proof.
  eexists _, _, _, _. split; [vm_compute; reflexivity|].
  vm_compute. repeat split.
Qed.

(** In legacy-bookend mode the session-end record ends the frame. *)
Example game_end_flushes_legacy :
  exists c' h',
    handle_slippstream_events (sample 85) 8 (started (sample 85) true 2 9 1)
      (building (sample 85)) 1 game_end_record
    = Some (Ok (c', h', true))
    /\ handle_slippstream_events (sample 85) 8
         (started (sample 85) false 3 2 0) (building (sample 85)) 1
         game_end_record
       = Some (Ok (started (sample 85) false 3 2 0, h', false)).
Proof.
  eexists _, _. split; vm_compute; reflexivity.
Qed.

(** * Further properties of the decoder *)

(** ** Readers and dictionaries *)

Lemma read_be_range (n : nat) (event_bytes : list byte) (offset : nat)
    (acc v : Z) :
  read_be n event_bytes offset acc = Ok v ->
  acc * 256 ^ Z.of_nat n <= v < (acc + 1) * 256 ^ Z.of_nat n.
Proof.
  revert offset acc. induction n as [|n IH]; intros offset acc H.
  - injection H as <-. cbn. lia.
  - cbn [read_be] in H.
    destruct (event_bytes !! offset) as [b|]; [|discriminate H].
    apply IH in H. pose proof (byte_val_range b) as Hb.
    rewrite Nat2Z.inj_succ, Z.pow_succ_r by lia.
    assert (0 < 256 ^ Z.of_nat n) as Hpos by (apply Z.pow_pos_nonneg; lia).
    set (P := 256 ^ Z.of_nat n) in *. clearbody P. clear IH.
    destruct H as [Hlo Hhi].
    replace (acc * (256 * P)) with ((acc * 256) * P) by ring.
    replace ((acc + 1) * (256 * P)) with ((acc * 256 + 256) * P) by ring.
    split.
    + eapply Z.le_trans; [|exact Hlo]. apply Z.mul_le_mono_nonneg_r; lia.
    + eapply Z.lt_le_trans; [exact Hhi|].
      apply Z.mul_le_mono_nonneg_r; lia.
Qed.

Lemma read_be_short (n : nat) (event_bytes : list byte) (offset : nat)
    (acc : Z) :
  (0 < n)%nat ->
  (length event_bytes < offset + n)%nat ->
  read_be n event_bytes offset acc = Raise TypeError.
Proof.
  revert offset acc. induction n as [|n IH]; intros offset acc Hn Hlen.
  - lia.
  - cbn [read_be]. destruct (event_bytes !! offset) as [b|] eqn:Hb.
    + apply lookup_lt_Some in Hb. apply IH; lia.
    + reflexivity.
Qed.

Lemma read_u8_short (event_bytes : list byte) (offset : nat) :
  (length event_bytes <= offset)%nat ->
  read_u8 event_bytes offset = Raise TypeError.
Proof.
  intros Hlen. unfold read_u8. now rewrite lookup_ge_None_2.
Qed.

Lemma read_f32_short_buffer (event_bytes : list byte) (offset : nat) :
  (length event_bytes < offset + 4)%nat ->
  read_f32 event_bytes offset = Raise TypeError.
Proof.
  intros Hlen. unfold read_f32, read_u32. now rewrite read_be_short by lia.
Qed.

Lemma read_f32_in_range (event_bytes : list byte) (offset : nat) :
  (offset + 4 <= length event_bytes)%nat ->
  exists v, read_f32 event_bytes offset = Ok v.
Proof.
  intros Hlen. unfold read_f32, read_u32.
  destruct (read_be_in_range 4 event_bytes offset 0 Hlen) as [bits ->].
  cbn [rbind]. eauto.
Qed.

Lemma dict_keys_set {V : Type} (d : list (Z * V)) (k : Z) (v : V) :
  dict_keys (dict_set d k v)
  = match dict_get d k with
    | Some _ => dict_keys d
    | None => dict_keys d ++ [k]
    end.
Proof.
  unfold dict_keys. induction d as [|[k' v'] d IH]; cbn [dict_set dict_get].
  - reflexivity.
  - destruct (Z.eqb_spec k' k) as [-> | Hne]; cbn [map fst].
    + reflexivity.
    + rewrite IH. now destruct (dict_get d k).
Qed.

Lemma dict_get_keys {V : Type} (d : list (Z * V)) (k : Z) :
  is_Some (dict_get d k) <-> In k (dict_keys d).
Proof.
  unfold dict_keys. induction d as [|[k' v'] d IH]; cbn [dict_get map fst In].
  - split; [intros [v Hv]; discriminate Hv | tauto].
  - destruct (Z.eqb_spec k' k) as [-> | Hne].
    + split; [auto | eauto].
    + rewrite IH. split; [auto | intros [Heq | Hin]; [contradiction | exact Hin]].
Qed.

(** ** The payload-descriptor record *)

Lemma payloads_spec (n : nat) :
  forall (event_bytes : list byte) (cursor : nat) (sizes sizes' : list Z),
    payloads n event_bytes cursor sizes = Ok sizes' ->
    length sizes' = length sizes
    /\ (forall k : nat,
          (forall i, (i < n)%nat ->
                     read_u8 event_bytes (cursor + 3 * i) <> Ok (Z.of_nat k)) ->
          sizes' !! k = sizes !! k)
    /\ (forall (i : nat) (command command_len : Z),
          (i < n)%nat ->
          read_u8 event_bytes (cursor + 3 * i) = Ok command ->
          read_u16 event_bytes (cursor + 3 * i + 1) = Ok command_len ->
          (forall j, (i < j < n)%nat ->
                     read_u8 event_bytes (cursor + 3 * j) <> Ok command) ->
          sizes' !! Z.to_nat command = Some (command_len + 1))
    /\ (forall (k : nat) (v : Z),
          sizes' !! k = Some v -> sizes !! k = Some v \/ 1 <= v <= 65536).
Proof.
  induction n as [|n IH]; intros event_bytes cursor sizes sizes' H.
  - injection H as <-. split; [reflexivity|]. split; [reflexivity|].
    split; [intros; lia | auto].
  - cbn [payloads] in H.
    destruct (read_u8 event_bytes cursor) as [command|] eqn:Hcommand;
      cbn [rbind] in H; [|discriminate H].
    destruct (read_u16 event_bytes (cursor + 1)) as [command_len|] eqn:Hlen;
      cbn [rbind] in H; [|discriminate H].
    destruct (Nat.ltb_spec (Z.to_nat command) (length sizes)) as [Hlt | Hge];
      [|discriminate H].
    pose proof (read_u8_range _ _ _ Hcommand) as Hrange.
    destruct (IH _ _ _ _ H) as (Hlength & Hother & Hlast & Hvalues).
    rewrite length_insert in Hlength.
    assert (forall i, cursor + 3 + 3 * i = cursor + 3 * S i)%nat as Hshift
      by (intros; lia).
    split; [exact Hlength|]. split; [|split].
    + intros k Hk. rewrite Hother.
      * apply list_lookup_insert_ne. intros Heq.
        apply (Hk 0%nat); [lia|].
        rewrite Nat.mul_0_r, Nat.add_0_r, Hcommand. f_equal. lia.
      * intros i Hi. rewrite Hshift. apply Hk. lia.
    + intros i command' command_len' Hi Hc Hl Hlater.
      destruct i as [|i].
      * rewrite Nat.mul_0_r, Nat.add_0_r in Hc, Hl.
        assert (command' = command) as -> by congruence.
        assert (command_len' = command_len) as -> by congruence.
        rewrite Hother.
        -- now apply list_lookup_insert_eq.
        -- intros j Hj. rewrite Hshift, Z2Nat.id by lia. apply Hlater. lia.
      * apply (Hlast i); [lia | | |].
        -- now rewrite Hshift.
        -- now rewrite Hshift.
        -- intros j Hj. rewrite Hshift. apply Hlater. lia.
    + intros k v Hv. destruct (Hvalues k v Hv) as [Hold | Hnew]; [|auto].
      destruct (decide (Z.to_nat command = k)) as [<- | Hne].
      * rewrite list_lookup_insert_eq in Hold by exact Hlt.
        injection Hold as <-. right.
        pose proof (read_be_range 2 _ _ _ _ Hlen) as Hr. cbn in Hr. lia.
      * rewrite list_lookup_insert_ne in Hold by exact Hne. auto.
Qed.

Lemma slice_from_drop (event_bytes : list byte) (n : Z) :
  0 <= n -> slice_from event_bytes n = drop (Z.to_nat n) event_bytes.
Proof.
  intros Hn. unfold slice_from. destruct (Z.ltb_spec n 0); [lia | reflexivity].
Qed.

(** X1. A payload-descriptor record rewrites the size table in place: the
    table keeps its length, a command the record does not list keeps its
    entry, a listed command gets the declared length plus one (the last
    entry for a command wins), so every entry written lies between 1 and
    65536; nothing else of the console or of the heap changes, and the loop
    goes on after [payload_size + 1] bytes. *)
Theorem payload_descriptor_registers (E : Externals) (c : Console) (h : Heap)
    (g : ref) (event_bytes : list byte) (event_size : Z) (out : outcome) :
  dispatch E c h g event_bytes PAYLOADS event_size = Ok out ->
  exists (payload_size : Z) (sizes : list Z),
    read_u8 event_bytes 1 = Ok payload_size
    /\ out = Continue (set_eventsize c sizes) h
               (drop (Z.to_nat (payload_size + 1)) event_bytes)
    /\ length sizes = length (eventsize c)
    /\ (forall k : nat,
          (forall i, (i < Z.to_nat ((payload_size - 1) / 3))%nat ->
                     read_u8 event_bytes (2 + 3 * i) <> Ok (Z.of_nat k)) ->
          sizes !! k = eventsize c !! k)
    /\ (forall (i : nat) (command command_len : Z),
          (i < Z.to_nat ((payload_size - 1) / 3))%nat ->
          read_u8 event_bytes (2 + 3 * i) = Ok command ->
          read_u16 event_bytes (2 + 3 * i + 1) = Ok command_len ->
          (forall j, (i < j < Z.to_nat ((payload_size - 1) / 3))%nat ->
                     read_u8 event_bytes (2 + 3 * j) <> Ok command) ->
          sizes !! Z.to_nat command = Some (command_len + 1))
    /\ (forall (k : nat) (v : Z),
          sizes !! k = Some v ->
          eventsize c !! k = Some v \/ 1 <= v <= 65536).
Proof.
  cbn [dispatch]. intros H.
  destruct (event_bytes !! 1%nat) as [b|] eqn:Hb; cbn [rbind] in H;
    [|discriminate H].
  destruct (payloads _ event_bytes 2 (eventsize c)) as [sizes|] eqn:Hsizes;
    cbn [rbind] in H; [|discriminate H].
  injection H as <-. exists (byte_val b), sizes.
  pose proof (byte_val_range b) as Hrange.
  split; [unfold read_u8; now rewrite Hb|].
  split; [now rewrite slice_from_drop by lia|].
  exact (payloads_spec _ _ _ _ _ Hsizes).
Qed.

(** The sample descriptor registers 0x69 bytes for the post-frame command. *)
Lemma payload_descriptor_registers_witness :
  exists sizes,
    dispatch (sample 85) (initial_console false) (building (sample 85)) 1
      payloads_record PAYLOADS 0
    = Ok (Continue (set_eventsize (initial_console false) sizes)
            (building (sample 85)) [])
    /\ sizes !! 0x38%nat = Some 0x69
    /\ sizes !! 0x10%nat = Some 0.
Proof.
  destruct (payload_descriptor_registers (sample 85) (initial_console false)
              (building (sample 85)) 1 payloads_record 0
              (Continue
                 (set_eventsize (initial_console false)
                    (eventsize (started (sample 85) false 3 2 0)))
                 (building (sample 85)) []))
    as (payload_size & sizes & Hsize & Hout & _ & Hother & Hlisted & _);
    [vm_compute; reflexivity|].
  injection Hsize as <-. injection Hout as Hsizes.
  exists sizes. split; [rewrite <- Hsizes; vm_compute; reflexivity|].
  split.
  - apply (Hlisted 2%nat 0x38 0x68); [vm_compute; lia | reflexivity
                                      | reflexivity |].
    intros j Hj.
    match type of Hj with
    | context [Z.to_nat ?z] => change (Z.to_nat z) with 7%nat in Hj
    end.
    assert (j = 3 \/ j = 4 \/ j = 5 \/ j = 6)%nat as [-> | [-> | [-> | ->]]]
      by lia; discriminate.
  - rewrite (Hother 0x10%nat); [reflexivity|].
    intros i Hi.
    match type of Hi with
    | context [Z.to_nat ?z] => change (Z.to_nat z) with 7%nat in Hi
    end.
    assert (i = 0 \/ i = 1 \/ i = 2 \/ i = 3 \/ i = 4 \/ i = 5 \/ i = 6)%nat
      as [-> | [-> | [-> | [-> | [-> | [-> | ->]]]]]] by lia; discriminate.
Defined.

Section ConsumptionFacts.
Variable E : Externals.

Lemma dispatch_rest (c : Console) (h : Heap) (g : ref)
    (event_bytes : list byte) (ev : EventType) (event_size : Z)
    (c' : Console) (h' : Heap) (rest : list byte) :
  dispatch E c h g event_bytes ev event_size = Ok (Continue c' h' rest) ->
  ev <> PAYLOADS ->
  sliced_by_length ev = true /\ rest = slice_from event_bytes event_size.
Proof.
  intros H Hev.
  destruct ev; cbn [dispatch] in H; try contradiction;
    repeat match type of H with
           | rbind ?m _ = Ok _ =>
               destruct m eqn:?; cbn [rbind] in H; [|discriminate H]
           | (let '(_, _) := ?p in _) = _ => destruct p
           | (if ?b then _ else _) = _ => destruct b
           end;
    try discriminate H; injection H as <- <- <-; auto.
Qed.

(** X2. A record other than the payload descriptor is consumed by its
    declared length exactly: when the loop goes on after it, the buffer it
    goes on with is the buffer without its first [n] bytes, so a buffer of
    exactly [n] bytes is used up. *)
Theorem record_consumed_by_length (c : Console) (h : Heap) (g : ref)
    (first : byte) (tail : list byte) (n : Z) (ev : EventType)
    (c' : Console) (h' : Heap) (rest : list byte) :
  event_step E c h g (first :: tail) first = Ok (Continue c' h' rest) ->
  eventsize c !! Z.to_nat (byte_val first) = Some n ->
  EventType_of_value E (byte_val first) = Some ev ->
  ev <> PAYLOADS ->
  0 <= n ->
  rest = drop (Z.to_nat n) (first :: tail)
  /\ Z.of_nat (length rest) = Z.of_nat (length (first :: tail)) - n
  /\ (Z.of_nat (length (first :: tail)) = n -> rest = []).
Proof.
  unfold event_step. intros H Hsize Hev Hne Hn.
  rewrite Hsize in H. cbn [rbind] in H.
  destruct (Z.ltb_spec (Z.of_nat (length (first :: tail))) n) as [Hlt | Hge];
    [discriminate H|].
  rewrite Hev in H.
  destruct (dispatch_rest _ _ _ _ _ _ _ _ _ H Hne) as [_ ->].
  rewrite slice_from_drop by exact Hn.
  split; [reflexivity|]. split.
  - rewrite length_drop. lia.
  - intros Hexact. apply nil_length_inv. rewrite length_drop. lia.
Qed.

End ConsumptionFacts.

(** A post-frame record followed by three more bytes: three bytes are
    left. *)
Lemma record_consumed_by_length_witness :
  exists c' h',
    event_step (sample 85) (started (sample 85) false 3 2 0)
      (building (sample 85)) 1
      (post_frame_record 7 0 0x14 0 0 0x3f800000 0 ++ [x3c; x00; x00]) x38
    = Ok (Continue c' h' [x3c; x00; x00]).
Proof.
  eexists _, _.
  assert (event_step (sample 85) (started (sample 85) false 3 2 0)
            (building (sample 85)) 1
            (post_frame_record 7 0 0x14 0 0 0x3f800000 0 ++ [x3c; x00; x00])
            x38
          = Ok (Continue
                  (fst (post_frame_store (sample 85)
                          (started (sample 85) false 3 2 0)
                          (building (sample 85)) 1
                          (post_frame_record 7 0 0x14 0 0 0x3f800000 0
                           ++ [x3c; x00; x00])
                          (mkPostFrame 7 1 0 0 0 DASHING false 0 0 0 1 0)))
                  (snd (post_frame_store (sample 85)
                          (started (sample 85) false 3 2 0)
                          (building (sample 85)) 1
                          (post_frame_record 7 0 0x14 0 0 0x3f800000 0
                           ++ [x3c; x00; x00])
                          (mkPostFrame 7 1 0 0 0 DASHING false 0 0 0 1 0)))
                  (drop 0x69 (post_frame_record 7 0 0x14 0 0 0x3f800000 0
                              ++ [x3c; x00; x00])))) as Hstep
    by (vm_compute; reflexivity).
  destruct (record_consumed_by_length (sample 85) _ _ _ x38 _ 0x69 POST_FRAME
              _ _ _ Hstep) as (Hrest & _);
    [reflexivity | reflexivity | discriminate | lia |].
  rewrite Hstep. vm_compute. reflexivity.
Defined.

Lemma payload_descriptor_shape (E : Externals) (c : Console) (h : Heap)
    (g : ref) (event_bytes : list byte) (event_size : Z) (out : outcome) :
  dispatch E c h g event_bytes PAYLOADS event_size = Ok out ->
  exists sizes rest, out = Continue (set_eventsize c sizes) h rest.
Proof.
  cbn [dispatch]. intros H.
  destruct (event_bytes !! 1%nat); cbn [rbind] in H; [|discriminate H].
  destruct (payloads _ event_bytes 2 (eventsize c)); cbn [rbind] in H;
    [|discriminate H].
  injection H as <-. eauto.
Qed.

Lemma progress_check_sound (E : Externals) (sizes : list Z) :
  progress_check E sizes = true -> progress_table E sizes.
Proof.
  unfold progress_check, progress_table. intros Hcheck command n ev Hn Hev Hs.
  rewrite forallb_forall in Hcheck.
  specialize (Hcheck (command, n)). cbn [fst snd] in Hcheck.
  rewrite Hev, Hs in Hcheck. cbn [negb orb] in Hcheck.
  apply Z.ltb_lt, Hcheck.
  apply list_elem_of_In, list_elem_of_lookup. exists command.
  rewrite list_lookup_imap, Hn. reflexivity.
Qed.

Section LoopFacts.
Variable E : Externals.

Lemma snapshot_grows_refl (gs : GameState) : snapshot_grows gs gs.
Proof.
  repeat split; exists []; now rewrite app_nil_r.
Qed.

Lemma snapshot_grows_trans (a b d : GameState) :
  snapshot_grows a b -> snapshot_grows b d -> snapshot_grows a d.
Proof.
  intros (Hm1 & [k1 Hk1] & [p1 Hp1]) (Hm2 & [k2 Hk2] & [p2 Hp2]).
  split; [congruence|]. split.
  - exists (k1 ++ k2). now rewrite Hk2, Hk1, app_assoc.
  - exists (p1 ++ p2). now rewrite Hp2, Hp1, app_assoc.
Qed.

Lemma same_elsewhere_refl (g : ref) (h : Heap) : same_elsewhere g h h.
Proof. split; auto. Qed.

Lemma same_elsewhere_trans (g : ref) (a b d : Heap) :
  same_elsewhere g a b -> same_elsewhere g b d -> same_elsewhere g a d.
Proof.
  intros [Hn1 Ho1] [Hn2 Ho2]. split; [congruence|].
  intros g' Hne. now rewrite Ho2, Ho1.
Qed.

Lemma same_elsewhere_store (g : ref) (h : Heap) (gs : GameState) :
  same_elsewhere g h (store h g gs).
Proof.
  split; [reflexivity|]. intros g' Hne. unfold store. cbn [objects].
  now rewrite lookup_insert_ne.
Qed.

Lemma same_elsewhere_load (g g' : ref) (h h' : Heap) :
  same_elsewhere g h h' -> g' <> g -> load E h' g' = load E h g'.
Proof. intros [_ Ho] Hne. unfold load. now rewrite Ho. Qed.

Lemma console_kept_refl (g : ref) (c : Console) : console_kept g c c.
Proof. unfold console_kept. repeat split; auto. Qed.

Lemma console_kept_trans (g : ref) (a b d : Console) :
  console_kept g a b -> console_kept g b d -> console_kept g a d.
Proof.
  unfold console_kept.
  intros (Ht1 & Ha1 & Hc1 & Hp1) (Ht2 & Ha2 & Hc2 & Hp2).
  repeat split; try congruence.
  destruct Hp2 as [Hp2 | Hp2]; [rewrite Hp2; exact Hp1 | now right].
Qed.

Lemma console_kept_set_frame (g : ref) (c : Console) (v : Z) :
  console_kept g c (set_frame c v).
Proof. unfold console_kept. cbn. repeat split; auto. Qed.

Lemma grows_set_player (gs : GameState) (controller_port : Z)
    (p : PlayerState) (frame' : Z) (stage' : Stage) (distance' : float) :
  snapshot_grows gs
    (mkGameState frame' stage' (menu_state gs)
       (dict_set (player gs) controller_port p) (projectiles gs) distance').
Proof.
  split; [reflexivity|]. cbn [player projectiles]. split.
  - rewrite dict_keys_set. destruct (dict_get (player gs) controller_port).
    + exists []. now rewrite app_nil_r.
    + eauto.
  - exists []. now rewrite app_nil_r.
Qed.

Lemma game_start_kept (g : ref) (c c' : Console) (event_bytes : list byte) :
  game_start E c event_bytes = Ok c' ->
  console_kept g c c' /\ eventsize c' = eventsize c.
Proof.
  unfold game_start. intros H.
  repeat match type of H with
         | rbind ?m _ = Ok _ =>
             destruct m eqn:?; cbn [rbind] in H; [|discriminate H]
         | (if ?b then _ else _) = _ => destruct b; [discriminate H|]
         end.
  injection H as <-. unfold console_kept. cbn. repeat split; auto.
Qed.

Lemma pre_frame_kept (c : Console) (h : Heap) (g : ref)
    (event_bytes : list byte) (c' : Console) (h' : Heap) :
  pre_frame E c h g event_bytes = Ok (c', h') ->
  (c' = c \/ c' = set_frame c (frame (load E h g)))
  /\ exists gs', h' = store h g gs' /\ snapshot_grows (load E h g) gs'.
Proof.
  unfold pre_frame. intros H.
  repeat match type of H with
         | rbind ?m _ = Ok _ =>
             destruct m eqn:?; cbn [rbind] in H; [|discriminate H]
         end.
  injection H as <- <-. split.
  - destruct (_use_manual_bookends c); auto.
  - eexists. split; [reflexivity|]. apply grows_set_player.
Qed.

Lemma post_frame_store_kept (c : Console) (h : Heap) (g : ref)
    (event_bytes : list byte) (d : PostFrame) :
  fst (post_frame_store E c h g event_bytes d)
  = (if _use_manual_bookends c then set_frame c (pf_frame d) else c)
  /\ exists gs',
       snd (post_frame_store E c h g event_bytes d) = store h g gs'
       /\ frame gs' = pf_frame d
       /\ stage gs' = _current_stage c
       /\ distance gs' = distance (load E h g)
       /\ snapshot_grows (load E h g) gs'.
Proof.
  unfold post_frame_store. cbn [fst snd]. split; [reflexivity|].
  eexists. split; [reflexivity|]. cbn [frame stage distance].
  repeat split; try reflexivity.
  - cbn [player]. rewrite dict_keys_set, dict_get_set_eq, dict_keys_set.
    destruct (dict_get (player (load E h g)) (pf_port d)).
    + exists []. now rewrite app_nil_r.
    + eauto.
  - exists []. cbn [projectiles]. now rewrite app_nil_r.
Qed.

Lemma item_update_kept (h : Heap) (g : ref) (event_bytes : list byte)
    (h' : Heap) :
  item_update E h g event_bytes = Ok h' ->
  exists gs', h' = store h g gs' /\ snapshot_grows (load E h g) gs'.
Proof.
  unfold item_update. intros H.
  repeat match type of H with
         | rbind ?m _ = Ok _ =>
             destruct m eqn:?; cbn [rbind] in H; [|discriminate H]
         end.
  injection H as <-. eexists. split; [reflexivity|].
  split; [reflexivity|]. cbn [player projectiles]. split.
  - exists []. now rewrite app_nil_r.
  - eauto.
Qed.

(** What every record does, whichever it is. *)
Lemma dispatch_kept (c : Console) (h : Heap) (g : ref)
    (event_bytes : list byte) (ev : EventType) (event_size : Z)
    (out : outcome) :
  dispatch E c h g event_bytes ev event_size = Ok out ->
  console_kept g c (outcome_console out)
  /\ same_elsewhere g h (outcome_heap out)
  /\ snapshot_grows (load E h g) (load E (outcome_heap out) g)
  /\ (ev <> PAYLOADS -> eventsize (outcome_console out) = eventsize c).
Proof.
  intros H. destruct ev; cbn [dispatch] in H.
  - destruct (payload_descriptor_shape E c h g event_bytes event_size out H)
      as (sizes & rest & ->).
    cbn [outcome_console outcome_heap].
    split; [unfold console_kept; cbn; repeat split; auto|].
    split; [apply same_elsewhere_refl|].
    split; [apply snapshot_grows_refl | congruence].
  - injection H as <-. cbn [outcome_console outcome_heap].
    auto using console_kept_refl, same_elsewhere_refl, snapshot_grows_refl.
  - destruct (game_start E c event_bytes) as [c'|] eqn:Hstart;
      cbn [rbind] in H; [|discriminate H].
    injection H as <-. cbn [outcome_console outcome_heap].
    destruct (game_start_kept g _ _ _ Hstart) as [Hkept Hsizes].
    auto using same_elsewhere_refl, snapshot_grows_refl.
  - injection H as <-. cbn [outcome_console outcome_heap].
    auto using console_kept_refl, same_elsewhere_refl, snapshot_grows_refl.
  - destruct (pre_frame E c h g event_bytes) as [[c' h']|] eqn:Hpre;
      cbn [rbind] in H; [|discriminate H].
    injection H as <-. cbn [outcome_console outcome_heap fst snd].
    destruct (pre_frame_kept _ _ _ _ _ _ Hpre)
      as (Hc & gs' & -> & Hgrows).
    rewrite load_store_eq.
    split; [destruct Hc as [-> | ->];
            auto using console_kept_refl, console_kept_set_frame|].
    split; [apply same_elsewhere_store|].
    split; [exact Hgrows|]. intros _. now destruct Hc as [-> | ->].
  - unfold post_frame in H.
    destruct (post_frame_decode E event_bytes) as [d|]; cbn [rbind] in H;
      [|discriminate H].
    destruct (post_frame_store_kept c h g event_bytes d)
      as (Hfst & gs' & Hsnd & _ & _ & _ & Hgrows).
    rewrite Hfst, Hsnd in H.
    injection H as <-. cbn [outcome_console outcome_heap].
    rewrite load_store_eq.
    split; [destruct (_use_manual_bookends c);
            auto using console_kept_refl, console_kept_set_frame|].
    split; [apply same_elsewhere_store|].
    split; [exact Hgrows|]. intros _. now destruct (_use_manual_bookends c).
  - injection H as <-. cbn [outcome_console outcome_heap].
    auto using console_kept_refl, same_elsewhere_refl, snapshot_grows_refl.
  - unfold frame_bookend in H.
    match type of H with
    | (if ?b then _ else _) = _ => destruct b
    end; injection H as <-; cbn [outcome_console outcome_heap];
      rewrite load_store_eq;
      (split; [unfold console_kept; cbn; repeat split; auto|]);
      (split; [apply same_elsewhere_store|]);
      (split; [|reflexivity]);
      (split; [reflexivity|]); cbn [player projectiles];
      split; exists []; now rewrite app_nil_r.
  - destruct (item_update E h g event_bytes) as [h'|] eqn:Hitem;
      cbn [rbind] in H; [|discriminate H].
    injection H as <-. cbn [outcome_console outcome_heap].
    destruct (item_update_kept _ _ _ _ Hitem) as (gs' & -> & Hgrows).
    rewrite load_store_eq.
    auto using console_kept_refl, same_elsewhere_store.
  - injection H as <-. cbn [outcome_console outcome_heap].
    auto using console_kept_refl, same_elsewhere_refl, snapshot_grows_refl.
Qed.

Lemma event_step_kept (c : Console) (h : Heap) (g : ref)
    (event_bytes : list byte) (first : byte) (out : outcome) :
  event_step E c h g event_bytes first = Ok out ->
  console_kept g c (outcome_console out)
  /\ same_elsewhere g h (outcome_heap out)
  /\ snapshot_grows (load E h g) (load E (outcome_heap out) g).
Proof.
  unfold event_step. intros H.
  destruct (eventsize c !! Z.to_nat (byte_val first)) as [n|];
    cbn [rbind] in H; [|discriminate H].
  destruct (Z.of_nat (length event_bytes) <? n).
  - injection H as <-. cbn [outcome_console outcome_heap].
    auto using console_kept_refl, same_elsewhere_refl, snapshot_grows_refl.
  - destruct (EventType_of_value E (byte_val first)) as [ev|];
      [|discriminate H].
    destruct (dispatch_kept _ _ _ _ _ _ _ H) as (? & ? & ? & _). auto.
Qed.

Lemma events_loop_kept (fuel : nat) :
  forall (c : Console) (h : Heap) (g : ref) (event_bytes : list byte)
         (c' : Console) (h' : Heap) (frame_ended : bool),
    events_loop E fuel c h g event_bytes = Some (Ok (c', h', frame_ended)) ->
    console_kept g c c'
    /\ same_elsewhere g h h'
    /\ snapshot_grows (load E h g) (load E h' g).
Proof.
  induction fuel as [|fuel IH]; intros c h g event_bytes c' h' frame_ended H.
  - destruct event_bytes; [|discriminate H]. injection H as <- <- <-.
    auto using console_kept_refl, same_elsewhere_refl, snapshot_grows_refl.
  - destruct event_bytes as [|first rest].
    { injection H as <- <- <-.
      auto using console_kept_refl, same_elsewhere_refl, snapshot_grows_refl. }
    cbn [events_loop] in H.
    destruct (event_step E c h g (first :: rest) first) as [out|] eqn:Hstep;
      [|discriminate H].
    destruct (event_step_kept _ _ _ _ _ _ Hstep) as (Hc & Hh & Hg).
    destruct out as [c1 h1 rest1 | c1 h1 ended1];
      cbn [outcome_console outcome_heap] in Hc, Hh, Hg.
    + destruct (IH _ _ _ _ _ _ _ H) as (Hc' & Hh' & Hg').
      split; [|split];
        eauto using console_kept_trans, same_elsewhere_trans,
          snapshot_grows_trans.
    + injection H as <- <- <-. auto.
Qed.

(** The size table keeps its progress property through every record. *)
Lemma event_step_progress (c : Console) (h : Heap) (g : ref)
    (first : byte) (tail : list byte) (c' : Console) (h' : Heap)
    (rest : list byte) :
  progress_table E (eventsize c) ->
  event_step E c h g (first :: tail) first = Ok (Continue c' h' rest) ->
  progress_table E (eventsize c')
  /\ (length rest < length (first :: tail))%nat.
Proof.
  intros Hprog H. pose proof H as Hstep. unfold event_step in H.
  destruct (eventsize c !! Z.to_nat (byte_val first)) as [n|] eqn:Hn;
    cbn [rbind] in H; [|discriminate H].
  destruct (Z.ltb_spec (Z.of_nat (length (first :: tail))) n) as [Hlt | Hge];
    [discriminate H|].
  destruct (EventType_of_value E (byte_val first)) as [ev|] eqn:Hev;
    [|discriminate H].
  destruct (decide (ev = PAYLOADS)) as [-> | Hne].
  -     cbn [dispatch] in H.
    destruct ((first :: tail) !! 1%nat) as [b|] eqn:Hb; cbn [rbind] in H;
      [|discriminate H].
    destruct (payloads _ (first :: tail) 2 (eventsize c)) as [sizes'|]
      eqn:Hsizes; cbn [rbind] in H; [|discriminate H].
    injection H as <- <- <-. cbn [eventsize set_eventsize].
    destruct (payloads_spec _ _ _ _ _ Hsizes) as (_ & _ & _ & Hentries).
    split.
    + intros command m ev' Hm Hev' Hsliced.
      destruct (Hentries _ _ Hm) as [Hold | Hnew]; [eauto | lia].
    + pose proof (byte_val_range b). rewrite slice_from_drop by lia.
      rewrite length_drop. cbn [length]. destruct tail; [discriminate Hb|].
      cbn [length]. lia.
  - destruct (dispatch_rest E _ _ _ _ _ _ _ _ _ H Hne) as [Hsliced ->].
    destruct (dispatch_kept _ _ _ _ _ _ _ H) as (_ & _ & _ & Hsizes).
    cbn [outcome_console] in Hsizes. rewrite (Hsizes Hne).
    split; [exact Hprog|].
    assert (0 < n) as Hpos.
    { apply (Hprog (Z.to_nat (byte_val first)) n ev Hn); [|exact Hsliced].
      pose proof (byte_val_range first). now rewrite Z2Nat.id by lia. }
    rewrite slice_from_drop by lia. rewrite length_drop. cbn [length]. lia.
Qed.

(** X3. The dispatcher's loop ends: when every recognised command that is
    consumed by its registered length has a positive length registered, a
    buffer of [n] bytes is decoded in at most [n] turns, and with a result
    (a return value or an exception), whatever the bytes are. *)
Theorem events_loop_terminates (fuel : nat) :
  forall (c : Console) (h : Heap) (g : ref) (event_bytes : list byte),
    progress_table E (eventsize c) ->
    (length event_bytes <= fuel)%nat ->
    exists r, events_loop E fuel c h g event_bytes = Some r.
Proof.
  induction fuel as [|fuel IH]; intros c h g event_bytes Hprog Hfuel.
  - destruct event_bytes; [cbn; eauto | cbn [length] in Hfuel; lia].
  - destruct event_bytes as [|first tail]; [cbn; eauto|].
    cbn [events_loop].
    destruct (event_step E c h g (first :: tail) first)
      as [[c' h' rest | c' h' ended] | e] eqn:Hstep; eauto.
    destruct (event_step_progress _ _ _ _ _ _ _ _ Hprog Hstep)
      as [Hprog' Hshorter].
    apply IH; [exact Hprog' | lia].
Qed.

(** X4. Decoding a payload touches one snapshot: every other object of the
    heap is as it was and nothing is allocated; of the console, the
    snapshot under construction, the connection flag and the caller's
    choice of old versions are as they were, and the previous snapshot is
    the one it was or the snapshot just decoded into. *)
Theorem decoding_touches_one_snapshot (fuel : nat) (c : Console) (h : Heap)
    (g : ref) (event_bytes : list byte) (c' : Console) (h' : Heap)
    (frame_ended : bool) :
  handle_slippstream_events E fuel c h g event_bytes
  = Some (Ok (c', h', frame_ended)) ->
  next_ref h' = next_ref h
  /\ (forall g', g' <> g -> load E h' g' = load E h g')
  /\ _temp_gamestate c' = _temp_gamestate c
  /\ connected c' = connected c
  /\ _allow_old_version c' = _allow_old_version c
  /\ (_prev_gamestate c' = _prev_gamestate c \/ _prev_gamestate c' = g).
Proof.
  unfold handle_slippstream_events. intros H.
  destruct (events_loop_kept _ _ _ _ _ _ _ _ H)
    as ((Htemp & Hallow & Hconn & Hprev) & Hheap & _).
  pose proof (same_elsewhere_trans _ _ _ _
                (same_elsewhere_store g h (set_menu_state (load E h g) IN_GAME))
                Hheap) as Hsame.
  split; [exact (proj1 Hsame)|].
  split; [intros g' Hne; exact (same_elsewhere_load _ _ _ _ Hsame Hne)|].
  auto.
Qed.

(** X5. Decoding a payload only adds to the snapshot: afterwards its menu
    state is [IN_GAME], the ports it had are still its first ports and in
    the same order, and the projectiles it had are still its first
    projectiles. Nothing in the dispatcher removes a player or a
    projectile. *)
Theorem decoding_only_adds (fuel : nat) (c : Console) (h : Heap)
    (g : ref) (event_bytes : list byte) (c' : Console) (h' : Heap)
    (frame_ended : bool) :
  handle_slippstream_events E fuel c h g event_bytes
  = Some (Ok (c', h', frame_ended)) ->
  menu_state (load E h' g) = IN_GAME
  /\ (exists keys,
        dict_keys (player (load E h' g))
        = dict_keys (player (load E h g)) ++ keys)
  /\ (exists more,
        projectiles (load E h' g) = projectiles (load E h g) ++ more).
Proof.
  unfold handle_slippstream_events. intros H.
  destruct (events_loop_kept _ _ _ _ _ _ _ _ H) as (_ & _ & Hgrows).
  rewrite load_store_eq in Hgrows.
  destruct Hgrows as (Hmenu & Hkeys & Hmore). auto.
Qed.

End LoopFacts.

(** After the descriptor that also lists the gecko command, every command
    has a positive length: a post-frame record cut short ends the loop. *)
Lemma events_loop_terminates_witness :
  progress_table (sample 85) (eventsize (registered (sample 85)))
  /\ exists r,
       events_loop (sample 85) 3 (registered (sample 85))
         (building (sample 85)) 1 [x38; x00; x00]
       = Some r.
Proof.
  assert (progress_table (sample 85) (eventsize (registered (sample 85))))
    as Hprog by (apply progress_check_sound; vm_compute; reflexivity).
  split; [exact Hprog|].
  apply (events_loop_terminates (sample 85) 3 (registered (sample 85))
           (building (sample 85)) 1 [x38; x00; x00] Hprog).
  cbn [length]. lia.
Defined.

(** A frame of one player decoded into snapshot 1: the previous snapshot
    becomes snapshot 1, and snapshot 0 is as it was. *)
Lemma decoding_touches_one_snapshot_witness :
  exists c' h',
    handle_slippstream_events (sample 85) 2 (started (sample 85) false 3 2 0)
      (previous (sample 85) [(1, sample_player DASHING 3)]) 1
      (frame_records 7 0x14)
    = Some (Ok (c', h', true))
    /\ load (sample 85) h' 0
       = load (sample 85)
           (previous (sample 85) [(1, sample_player DASHING 3)]) 0
    /\ _prev_gamestate c' = 1%nat.
Proof.
  destruct (handle_slippstream_events (sample 85) 2
              (started (sample 85) false 3 2 0)
              (previous (sample 85) [(1, sample_player DASHING 3)]) 1
              (frame_records 7 0x14))
    as [[[[c' h'] [|]]|]|] eqn:Hrun; try (vm_compute in Hrun; discriminate Hrun).
  exists c', h'. split; [reflexivity|].
  destruct (decoding_touches_one_snapshot (sample 85) _ _ _ _ _ _ _ _ Hrun)
    as (_ & Helse & _).
  split; [apply Helse; discriminate|].
  symmetry in Hrun. vm_compute in Hrun. injection Hrun as -> _.
  reflexivity.
Defined.

(** A pre-frame record, a post-frame record and an item record for a
    snapshot that holds port 3: port 3 stays first, port 1 and one
    projectile are added. *)
Lemma decoding_only_adds_witness :
  exists c' h',
    handle_slippstream_events (sample 85) 3 (started (sample 85) false 3 2 0)
      (store (building (sample 85)) 1
         (set_player (new_GameState (sample 85))
            [(3, sample_player DASHING 0)])) 1
      (pre_frame_record 7 0 0 0
       ++ post_frame_record 7 0 0x14 0 0 0x3f800000 0
       ++ item_update_record 0)
    = Some (Ok (c', h', false))
    /\ menu_state (load (sample 85) h' 1) = IN_GAME
    /\ dict_keys (player (load (sample 85) h' 1)) = [3; 1]
    /\ length (projectiles (load (sample 85) h' 1)) = 1%nat.
Proof.
  destruct (handle_slippstream_events (sample 85) 3
              (started (sample 85) false 3 2 0)
              (store (building (sample 85)) 1
                 (set_player (new_GameState (sample 85))
                    [(3, sample_player DASHING 0)])) 1
              (pre_frame_record 7 0 0 0
               ++ post_frame_record 7 0 0x14 0 0 0x3f800000 0
               ++ item_update_record 0))
    as [[[[c' h'] [|]]|]|] eqn:Hrun; try (vm_compute in Hrun; discriminate Hrun).
  exists c', h'. split; [reflexivity|].
  destruct (decoding_only_adds (sample 85) _ _ _ _ _ _ _ _ Hrun)
    as (Hmenu & _ & _).
  split; [exact Hmenu|].
  symmetry in Hrun. vm_compute in Hrun. injection Hrun as -> ->.
  split; vm_compute; reflexivity.
Defined.

(** ** The session-start record and the side tables *)

Lemma dict_keys_set_present {V : Type} (d : list (Z * V)) (k : Z) (v : V) :
  In k (dict_keys d) -> dict_keys (dict_set d k v) = dict_keys d.
Proof.
  intros Hin. rewrite dict_keys_set.
  apply dict_get_keys in Hin. destruct Hin as [v' ->]. reflexivity.
Qed.

Lemma read_ports_spec (event_bytes : list byte) (base n : nat) :
  forall (i : Z) (d d' : list (Z * Z)),
    read_ports event_bytes base n i d = Ok d' ->
    (forall k, i <= k < i + Z.of_nat n ->
               exists v,
                 read_u8 event_bytes (base + 0x24 * Z.to_nat k) = Ok v
                 /\ dict_get d' k = Some v)
    /\ (forall k, ~ i <= k < i + Z.of_nat n -> dict_get d' k = dict_get d k)
    /\ ((forall k, i <= k < i + Z.of_nat n -> In k (dict_keys d)) ->
        dict_keys d' = dict_keys d).
Proof.
  induction n as [|n IH]; intros i d d' H; cbn [read_ports] in H.
  - injection H as <-. split; [intros k Hk; lia|]. split; auto.
  - destruct (read_u8 event_bytes (base + 0x24 * Z.to_nat i)) as [v|] eqn:Hv;
      cbn [rbind] in H; [|discriminate H].
    destruct (IH _ _ _ H) as (Hin & Hout & Hkeys). split; [|split].
    + intros k Hk. destruct (Z.eq_dec k i) as [-> | Hne].
      * exists v. split; [exact Hv|].
        rewrite Hout by lia. apply dict_get_set_eq.
      * apply Hin. lia.
    + intros k Hk. rewrite Hout by lia. apply dict_get_set_ne. lia.
    + intros Hall. rewrite Hkeys.
      * apply dict_keys_set_present, Hall. lia.
      * intros k Hk. rewrite dict_keys_set_present by (apply Hall; lia).
        apply Hall. lia.
Qed.

Lemma clear_inactive_spec (event_bytes : list byte) (n : nat) :
  forall (i : Z) (d d' : list (Z * Z)),
    clear_inactive event_bytes n i d = Ok d' ->
    (forall k, i <= k < i + Z.of_nat n ->
               exists player_type,
                 read_u8 event_bytes (0x66 + 0x24 * Z.to_nat k)
                 = Ok player_type
                 /\ dict_get d' k
                    = (if player_type =? 1 then dict_get d k else Some 0))
    /\ (forall k, ~ i <= k < i + Z.of_nat n -> dict_get d' k = dict_get d k)
    /\ ((forall k, i <= k < i + Z.of_nat n -> In k (dict_keys d)) ->
        dict_keys d' = dict_keys d).
Proof.
  induction n as [|n IH]; intros i d d' H; cbn [clear_inactive] in H.
  - injection H as <-. split; [intros k Hk; lia|]. split; auto.
  - destruct (read_u8 event_bytes (0x66 + 0x24 * Z.to_nat i)) as [v|] eqn:Hv;
      cbn [rbind] in H; [|discriminate H].
    destruct (IH _ _ _ H) as (Hin & Hout & Hkeys). split; [|split].
    + intros k Hk. destruct (Z.eq_dec k i) as [-> | Hne].
      * exists v. split; [exact Hv|]. rewrite Hout by lia.
        destruct (v =? 1); [reflexivity | apply dict_get_set_eq].
      * destruct (Hin k) as (t & Ht & Hget); [lia|].
        exists t. split; [exact Ht|]. rewrite Hget.
        destruct (t =? 1); [|reflexivity].
        destruct (v =? 1); [reflexivity | apply dict_get_set_ne; lia].
    + intros k Hk. rewrite Hout by lia.
      destruct (v =? 1); [reflexivity | apply dict_get_set_ne; lia].
    + intros Hall.
      assert (dict_keys (if v =? 1 then d else dict_set d i 0) = dict_keys d)
        as Hsame.
      { destruct (v =? 1); [reflexivity|].
        apply dict_keys_set_present, Hall. lia. }
      rewrite Hkeys, Hsame; [reflexivity|].
      intros k Hk. rewrite Hsame. apply Hall. lia.
Qed.

(** X6. What a decoded session-start record leaves in the console: the
    last delivered index is reset to -10000; for each of the four ports the
    costume is the byte at 0x68 + 0x24 * port, and the CPU level is the byte
    at 0x74 + 0x24 * port when the player-type byte at 0x66 + 0x24 * port is
    1 and 0 otherwise; entries of the two tables under other keys are kept,
    and tables with the four keys of [__init__] keep exactly these keys;
    the stage is the table's stage for the id at 0x13, [NO_STAGE] for an id
    without one. *)
Theorem game_start_side_tables (E : Externals) (c c' : Console)
    (event_bytes : list byte) :
  game_start E c event_bytes = Ok c' ->
  _frame c' = -10000
  /\ (forall port, 0 <= port < 4 ->
        exists costume' level player_type,
          read_u8 event_bytes (0x68 + 0x24 * Z.to_nat port) = Ok costume'
          /\ read_u8 event_bytes (0x74 + 0x24 * Z.to_nat port) = Ok level
          /\ read_u8 event_bytes (0x66 + 0x24 * Z.to_nat port)
             = Ok player_type
          /\ dict_get (_costumes c') port = Some costume'
          /\ dict_get (_cpu_level c') port
             = Some (if player_type =? 1 then level else 0))
  /\ (forall k, ~ 0 <= k < 4 ->
        dict_get (_costumes c') k = dict_get (_costumes c) k
        /\ dict_get (_cpu_level c') k = dict_get (_cpu_level c) k)
  /\ (ports_tracked c -> ports_tracked c')
  /\ (exists stage_id,
        read_u16 event_bytes 0x13 = Ok stage_id
        /\ _current_stage c' = default NO_STAGE (to_internal_stage E stage_id)).
Proof.
  unfold game_start. intros H.
  repeat match type of H with
         | rbind ?m _ = Ok _ =>
             destruct m eqn:?; cbn [rbind] in H; [|discriminate H]
         | (if ?b then _ else _) = _ => destruct b; [discriminate H|]
         end.
  injection H as <-. cbn [_frame _costumes _cpu_level _current_stage].
  match goal with
  | Hc : read_ports _ 0x68 4 0 _ = Ok _,
    Hl : read_ports _ 0x74 4 0 _ = Ok _,
    Ha : clear_inactive _ 4 0 _ = Ok _ |- _ =>
      destruct (read_ports_spec _ _ _ _ _ _ Hc) as (Hc1 & Hc2 & Hc3);
      destruct (read_ports_spec _ _ _ _ _ _ Hl) as (Hl1 & Hl2 & Hl3);
      destruct (clear_inactive_spec _ _ _ _ _ Ha) as (Ha1 & Ha2 & Ha3)
  end.
  split; [reflexivity|]. split; [|split; [|split]].
  - intros port Hport.
    destruct (Hc1 port) as (costume' & Hcostume & Hget1); [lia|].
    destruct (Hl1 port) as (level & Hlevel & Hget2); [lia|].
    destruct (Ha1 port) as (player_type & Htype & Hget3); [lia|].
    exists costume', level, player_type.
    repeat split; try assumption.
    rewrite Hget3, Hget2. now destruct (player_type =? 1).
  - intros k Hk. split; [apply Hc2; lia|].
    rewrite Ha2, Hl2 by lia. reflexivity.
  - intros [Hk1 Hk2]. unfold ports_tracked. cbn [_costumes _cpu_level].
    assert (forall (keys : list Z) (k : Z),
              keys = [0; 1; 2; 3] -> 0 <= k < 0 + Z.of_nat 4 -> In k keys)
      as Hfour.
    { intros keys k -> Hk. cbn [In]. lia. }
    match goal with
    | Hl : read_ports _ 0x74 4 0 _ = Ok ?levels |- _ =>
        assert (dict_keys levels = [0; 1; 2; 3]) as Hk3
          by (rewrite Hl3; [exact Hk2 | intros k Hk; now apply Hfour])
    end.
    split.
    + rewrite Hc3; [exact Hk1 | intros k Hk; now apply Hfour].
    + rewrite Ha3; [exact Hk3 | intros k Hk; now apply Hfour].
  - eexists. split; reflexivity.
Qed.

(** The session-start record of a sample stream, from a fresh console: the
    index is reset and the four ports are still the keys of the tables. *)
Lemma game_start_side_tables_witness :
  exists c',
    game_start (sample 85) (initial_console false)
      (game_start_record 3 2 0 0x20)
    = Ok c'
    /\ _frame c' = -10000
    /\ ports_tracked c'.
Proof.
  destruct (game_start (sample 85) (initial_console false)
              (game_start_record 3 2 0 0x20)) as [c'|] eqn:Hstart;
    [|vm_compute in Hstart; discriminate Hstart].
  exists c'. split; [reflexivity|].
  destruct (game_start_side_tables (sample 85) _ _ _ Hstart)
    as (Hframe & _ & _ & Htracked & _).
  split; [exact Hframe|]. apply Htracked. split; reflexivity.
Defined.

(** ** The pre-frame record *)

Section PortFacts.
Variable E : Externals.

Lemma dispatch_tracked (c : Console) (h : Heap) (g : ref)
    (event_bytes : list byte) (ev : EventType) (event_size : Z)
    (out : outcome) :
  dispatch E c h g event_bytes ev event_size = Ok out ->
  ports_tracked c -> ports_tracked (outcome_console out).
Proof.
  intros H Htracked. destruct ev; cbn [dispatch] in H.
  - destruct (payload_descriptor_shape E c h g event_bytes event_size out H)
      as (sizes & rest & ->). exact Htracked.
  - injection H as <-. exact Htracked.
  - destruct (game_start E c event_bytes) as [c'|] eqn:Hstart;
      cbn [rbind] in H; [|discriminate H].
    injection H as <-. cbn [outcome_console].
    now apply (game_start_side_tables E _ _ _ Hstart).
  - injection H as <-. exact Htracked.
  - destruct (pre_frame E c h g event_bytes) as [[c' h']|] eqn:Hpre;
      cbn [rbind] in H; [|discriminate H].
    injection H as <-. cbn [outcome_console fst].
    destruct (pre_frame_kept E _ _ _ _ _ _ Hpre) as ([-> | ->] & _);
      exact Htracked.
  - unfold post_frame in H.
    destruct (post_frame_decode E event_bytes) as [d|]; cbn [rbind] in H;
      [|discriminate H].
    destruct (post_frame_store_kept E c h g event_bytes d) as (Hfst & _).
    rewrite Hfst in H. injection H as <-. cbn [outcome_console].
    destruct (_use_manual_bookends c); exact Htracked.
  - injection H as <-. exact Htracked.
  - unfold frame_bookend in H.
    match type of H with
    | (if ?b then _ else _) = _ => destruct b
    end; injection H as <-; exact Htracked.
  - destruct (item_update E h g event_bytes) as [h'|]; cbn [rbind] in H;
      [|discriminate H].
    injection H as <-. exact Htracked.
  - injection H as <-. exact Htracked.
Qed.

Lemma events_loop_tracked (fuel : nat) :
  forall (c : Console) (h : Heap) (g : ref) (event_bytes : list byte)
         (c' : Console) (h' : Heap) (frame_ended : bool),
    events_loop E fuel c h g event_bytes = Some (Ok (c', h', frame_ended)) ->
    ports_tracked c -> ports_tracked c'.
Proof.
  induction fuel as [|fuel IH];
    intros c h g event_bytes c' h' frame_ended H Htracked.
  - destruct event_bytes; [|discriminate H]. now injection H as <- <- <-.
  - destruct event_bytes as [|first rest]; [now injection H as <- <- <-|].
    cbn [events_loop] in H. unfold event_step in H.
    destruct (eventsize c !! Z.to_nat (byte_val first)) as [n|];
      cbn [rbind] in H; [|discriminate H].
    destruct (Z.of_nat (length (first :: rest)) <? n);
      [now injection H as <- <- <-|].
    destruct (EventType_of_value E (byte_val first)) as [ev|];
      [|discriminate H].
    destruct (dispatch E c h g (first :: rest) ev n) as [out|] eqn:Hout;
      [|discriminate H].
    pose proof (dispatch_tracked _ _ _ _ _ _ _ Hout Htracked) as Hnext.
    destruct out as [c1 h1 rest1 | c1 h1 ended1]; cbn [outcome_console] in Hnext.
    + exact (IH _ _ _ _ _ _ _ H Hnext).
    + now injection H as <- <- <-.
Qed.

(** X7. The side tables only ever hold the four ports: on a console that
    has decoded any payload since its tables held the four keys of
    [__init__], a pre-frame record whose port byte is 4 or more raises
    [KeyError], whatever else the record holds. *)
Theorem pre_frame_unknown_port (fuel : nat) (c0 : Console) (h0 : Heap)
    (g0 : ref) (payload : list byte) (c : Console) (h1 : Heap)
    (frame_ended : bool) (h : Heap) (g : ref) (event_bytes : list byte)
    (port : Z) :
  ports_tracked c0 ->
  handle_slippstream_events E fuel c0 h0 g0 payload
  = Some (Ok (c, h1, frame_ended)) ->
  read_u8 event_bytes 0x5 = Ok port ->
  4 <= port ->
  pre_frame E c h g event_bytes = Raise KeyError.
Proof.
  intros Htracked Hrun Hport Hfour.
  apply (events_loop_tracked _ _ _ _ _ _ _ _ Hrun) in Htracked.
  destruct Htracked as [Hkeys _].
  unfold pre_frame. rewrite Hport. cbn [rbind].
  replace (port + 1 - 1) with port by lia.
  destruct (dict_get (_costumes c) port) as [v|] eqn:Hget; [|reflexivity].
  assert (In port (dict_keys (_costumes c))) as Hin
    by (apply dict_get_keys; eauto).
  rewrite Hkeys in Hin. cbn [In] in Hin. lia.
Qed.

End PortFacts.

(** After the descriptor and the session-start record of a sample stream,
    a pre-frame record for port byte 4. *)
Lemma pre_frame_unknown_port_witness :
  exists c h1 frame_ended,
    handle_slippstream_events (sample 85) 4 (initial_console false)
      (initial_heap (sample 85)) 1
      (payloads_record ++ game_start_record 3 2 0 0x20)
    = Some (Ok (c, h1, frame_ended))
    /\ pre_frame (sample 85) c (building (sample 85)) 1
         (pre_frame_record 7 4 0 0)
       = Raise KeyError.
Proof.
  destruct (handle_slippstream_events (sample 85) 4 (initial_console false)
              (initial_heap (sample 85)) 1
              (payloads_record ++ game_start_record 3 2 0 0x20))
    as [[[[c h1] ended]|]|] eqn:Hrun;
    try (vm_compute in Hrun; discriminate Hrun).
  exists c, h1, ended. split; [reflexivity|].
  apply (pre_frame_unknown_port (sample 85) 4 (initial_console false)
           (initial_heap (sample 85)) 1
           (payloads_record ++ game_start_record 3 2 0 0x20)
           c h1 ended (building (sample 85)) 1 (pre_frame_record 7 4 0 0) 4
           (conj eq_refl eq_refl) Hrun);
    [vm_compute; reflexivity | lia].
Defined.

(** ** The post-frame record: when it decodes, and what a short one gives *)

Ltac invert_ok H :=
  repeat match type of H with
         | rbind ?m _ = Ok _ =>
             destruct m eqn:?; cbn [rbind] in H; [|discriminate H]
         end.

Lemma read_f32_ok_length (event_bytes : list byte) (offset : nat) (v : float) :
  read_f32 event_bytes offset = Ok v ->
  (offset + 4 <= length event_bytes)%nat.
Proof.
  intros H.
  destruct (Nat.le_gt_cases (offset + 4) (length event_bytes)) as [Hle | Hgt];
    [exact Hle|].
  rewrite read_f32_short_buffer in H by lia. discriminate H.
Qed.

Lemma read_f32_raises (event_bytes : list byte) (offset : nat) (e : exn) :
  read_f32 event_bytes offset = Raise e -> e = TypeError.
Proof.
  intros H.
  destruct (Nat.le_gt_cases (offset + 4) (length event_bytes)) as [Hle | Hgt].
  - destruct (read_f32_in_range _ _ Hle) as [v Hv]. congruence.
  - rewrite read_f32_short_buffer in H by lia. congruence.
Qed.

Lemma int_of_float_raises (v : float) (e : exn) :
  int_of_float v = Raise e -> e = OverflowError \/ e = ValueError.
Proof.
  unfold int_of_float. destruct (Prim2SF v); intros H; try discriminate H;
    injection H as <-; auto.
Qed.

(** The handlers around the hit-stun field: a field that is not there and a
    NaN give 0, an infinity is not caught. *)
Lemma hitstun_field (event_bytes : list byte) :
  except ValueError
    (except TypeError
       (raw <- read_f32 event_bytes 0x2B ;; int_of_float raw) 0) 0
  = match read_f32 event_bytes 0x2B with
    | Raise _ => Ok 0
    | Ok raw =>
        match int_of_float raw with
        | Ok n => Ok n
        | Raise OverflowError => Raise OverflowError
        | Raise _ => Ok 0
        end
    end.
Proof.
  destruct (read_f32 event_bytes 0x2B) as [raw|e] eqn:Hraw; cbn [rbind].
  - destruct (int_of_float raw) as [n|e] eqn:Hn; [reflexivity|].
    destruct (int_of_float_raises _ _ Hn) as [-> | ->]; reflexivity.
  - rewrite (read_f32_raises _ _ _ Hraw). reflexivity.
Qed.

Section PostFrameRecord.
Variable E : Externals.

(** X8. When [__post_frame] decodes. [event_bytes] is what the dispatcher
    hands it: all the bytes left in the payload from the command byte of
    the record on, not the record cut to its declared length. The decoder
    returns exactly when at least 0x26 bytes are left (up to the end of the
    action-frame counter), the byte at 0x7 is a member of [Character], the
    floats at 0x16 (percent) and 0x22 (action-frame counter) are finite
    numbers, and the float at 0x2B (hit-stun), if four bytes are left there,
    is not an infinity. A NaN or an infinity as percent or counter, and an
    infinite hit-stun, raise out of the decoder. The bound is on the bytes
    left, not on the record: a record shorter than 0x26 bytes that is
    followed by other records in its payload can decode, from the bytes of
    those records ([post_frame_truncated_then_next]). *)
Theorem post_frame_decodes_iff (c : Console) (h : Heap) (g : ref)
    (event_bytes : list byte) :
  (exists r, post_frame E c h g event_bytes = Ok r)
  <-> (0x26 <= length event_bytes)%nat
      /\ (exists character_id,
            read_u8 event_bytes 0x7 = Ok character_id
            /\ Character_member E character_id = true)
      /\ (exists raw n,
            read_f32 event_bytes 0x16 = Ok raw /\ int_of_float raw = Ok n)
      /\ (exists raw n,
            read_f32 event_bytes 0x22 = Ok raw /\ int_of_float raw = Ok n)
      /\ (forall raw,
            read_f32 event_bytes 0x2B = Ok raw ->
            int_of_float raw <> Raise OverflowError).
Proof.
  unfold post_frame, post_frame_decode. rewrite hitstun_field. split.
  - intros [r H].
    match type of H with
    | rbind ?m _ = _ => destruct m as [d|] eqn:Hd; [|discriminate H]
    end.
    invert_ok Hd.
    match goal with
    | Hm : (if Character_member E ?ch then _ else _) = Ok _ |- _ =>
        destruct (Character_member E ch) eqn:Hmember; [|discriminate Hm]
    end.
    split; [|split; [|split; [|split]]].
    + match goal with
      | Hf : read_f32 event_bytes 0x22 = Ok _ |- _ =>
          apply read_f32_ok_length in Hf; lia
      end.
    + eauto.
    + eauto.
    + eauto.
    + intros raw Hraw Hinf.
      match goal with
      | Hs : match read_f32 event_bytes 0x2B with _ => _ end = Ok _ |- _ =>
          rewrite Hraw, Hinf in Hs; discriminate Hs
      end.
  - intros (Hlen & (ch & Hch & Hmember) & (p & pn & Hp & Hpn)
            & (a & an & Ha & Han) & Hstun).
    destruct (read_be_in_range 4 event_bytes 0x1 0) as [u Hu]; [lia|].
    destruct (read_u8_in_range event_bytes 0x5) as [port Hport]; [lia|].
    destruct (read_f32_in_range event_bytes 0xa) as [x' Hx]; [lia|].
    destruct (read_f32_in_range event_bytes 0xe) as [y' Hy]; [lia|].
    destruct (read_be_in_range 2 event_bytes 0x8 0) as [act Hact]; [lia|].
    destruct (read_f32_in_range event_bytes 0x12) as [f Hf]; [lia|].
    destruct (read_f32_in_range event_bytes 0x1A) as [s Hs]; [lia|].
    destruct (read_u8_in_range event_bytes 0x21) as [st Hst]; [lia|].
    unfold read_i32, read_u32, read_u16.
    rewrite Hu, Hport, Hx, Hy, Hch, Hact, Hf, Hp, Hs, Hst, Ha. cbn [rbind].
    rewrite Hmember. cbn [rbind]. rewrite Hpn, Han. cbn [rbind].
    destruct (read_f32 event_bytes 0x2B) as [raw|e] eqn:Hraw;
      [|cbn [rbind]; eauto].
    destruct (int_of_float raw) as [n|e] eqn:Hn; [cbn [rbind]; eauto|].
    destruct (int_of_float_raises _ _ Hn) as [-> | ->];
      [|cbn [rbind]; eauto].
    now destruct (Hstun raw eq_refl).
Qed.

Lemma post_frame_decode_hitstun (event_bytes : list byte) (d : PostFrame) :
  post_frame_decode E event_bytes = Ok d ->
  (length event_bytes < 0x2F)%nat ->
  pf_hitstun_frames_left d = 0.
Proof.
  unfold post_frame_decode. rewrite hitstun_field. intros H Hlen.
  rewrite (read_f32_short_buffer event_bytes 0x2B) in H by lia.
  invert_ok H. injection H as <-. reflexivity.
Qed.

(** X9. The defaults of the handlers in [__post_frame]. [event_bytes] is
    what the dispatcher hands the decoder: all the bytes left in the payload
    from the command byte of the record on. When at most 0x27 bytes are
    left, which is a record of an old protocol revision (one that ends with
    the action-frame counter) at the very end of its payload, the player
    gets: no hit-lag, no hit-stun, on the ground, one jump left, not
    invulnerable, all five speeds 0 and the four ECB points at (0, 0); and
    since the player counts as on the ground, never off stage. The bound is
    on the bytes left, not on the record: such a record followed by other
    records takes these fields from their bytes
    ([post_frame_reads_next_record],
    [short_post_frame_records_in_one_payload]). *)
Theorem post_frame_short_record (c : Console) (h : Heap) (g : ref)
    (event_bytes : list byte) (c' : Console) (h' : Heap) :
  post_frame E c h g event_bytes = Ok (c', h') ->
  (length event_bytes <= 0x27)%nat ->
  exists port p,
    read_u8 event_bytes 0x5 = Ok port
    /\ dict_get (player (load E h' g)) (port + 1) = Some p
    /\ hitlag p = false
    /\ hitstun_frames_left p = 0
    /\ on_ground p = true
    /\ jumps_left p = 1
    /\ invulnerable p = false
    /\ (speed_air_x_self p, speed_y_self p, speed_x_attack p,
        speed_y_attack p, speed_ground_x_self p) = (0, 0, 0, 0, 0)%float
    /\ (ecb_top p, ecb_bottom p, ecb_left p, ecb_right p)
       = ((0, 0), (0, 0), (0, 0), (0, 0))%float
    /\ off_stage p = false.
Proof.
  intros H Hlen.
  destruct (post_frame_inv E _ _ _ _ _ H) as (d & Hd & Hstore).
  destruct (post_frame_decode_port E _ _ Hd) as (port & Hport & Hpf).
  pose proof (post_frame_decode_hitstun _ _ Hd) as Hstun.
  exists port. rewrite <- Hpf.
  apply (f_equal snd) in Hstore. cbn [snd] in Hstore. subst h'.
  unfold post_frame_store. cbn [snd]. rewrite load_store_eq.
  cbn [player]. rewrite dict_get_set_eq. eexists.
  split; [exact Hport|]. split; [reflexivity|].
  cbn [hitlag hitstun_frames_left on_ground jumps_left invulnerable
       speed_air_x_self speed_y_self speed_x_attack speed_y_attack
       speed_ground_x_self ecb_top ecb_bottom ecb_left ecb_right off_stage].
  unfold read_u8_or, read_f32_or.
  rewrite !read_u8_short by lia. rewrite !read_f32_short_buffer by lia.
  rewrite Hstun by lia.
  repeat (split; [reflexivity|]).
  cbn [negb]. destruct (EDGE_GROUND_POSITION E _); [apply andb_false_r|];
    reflexivity.
Qed.

End PostFrameRecord.

(** A record of 0x26 zero bytes after the command byte. *)
Lemma post_frame_short_record_witness :
  exists c' h' p,
    post_frame (sample 85) (started (sample 85) false 3 2 0)
      (building (sample 85)) 1 (record 0x26 [(0%nat, [x38])])
    = Ok (c', h')
    /\ dict_get (player (load (sample 85) h' 1)) 1 = Some p
    /\ on_ground p = true
    /\ jumps_left p = 1
    /\ off_stage p = false.
Proof.
  destruct (post_frame (sample 85) (started (sample 85) false 3 2 0)
              (building (sample 85)) 1 (record 0x26 [(0%nat, [x38])]))
    as [[c' h']|] eqn:Hpost; [|vm_compute in Hpost; discriminate Hpost].
  destruct (post_frame_short_record (sample 85) _ _ _ _ _ _ Hpost)
    as (port & p & Hport & Hget & _ & _ & Hground & Hjumps & _ & _ & _ & Hoff);
    [vm_compute; lia|].
  vm_compute in Hport. injection Hport as <-.
  exists c', h', p. auto.
Defined.

(** The first 0x10 bytes of a post-frame record do not decode when nothing
    follows them; followed in the payload by the post-frame record of
    another port they do, and the fields from 0x10 on are read in that
    record: the shield strength is its horizontal position, 90. *)
Example post_frame_truncated_then_next :
  post_frame (sample 85) (started (sample 85) false 3 2 0)
    (building (sample 85)) 1
    (take 0x10 (post_frame_record 7 0 0x14 0 0 0x3f800000 0))
  = Raise TypeError
  /\ exists c' h' p,
       post_frame (sample 85) (started (sample 85) false 3 2 0)
         (building (sample 85)) 1
         (take 0x10 (post_frame_record 7 0 0x14 0 0 0x3f800000 0)
          ++ post_frame_record 7 1 0x14 0x42b40000 0 0x3f800000 0)
       = Ok (c', h')
       /\ dict_get (player (load (sample 85) h' 1)) 1 = Some p
       /\ action p = DASHING
       /\ shield_strength p = 90%float.
Proof.
  split; [vm_compute; reflexivity|].
  eexists _, _, _. split; [vm_compute; reflexivity|].
  split; [vm_compute; reflexivity|].
  split; vm_compute; reflexivity.
Qed.

(** The same record of 0x27 bytes, now followed in its payload by the
    post-frame record of another port: the decoder is handed both, and the
    fields the short record does not have are read in the record that
    follows. The hit-lag flag is bit 0x20 of the command byte 0x38 of that
    record, the jumps left are a byte of its position. *)
Example post_frame_reads_next_record :
  exists c' h' p,
    post_frame (sample 85) (started (sample 85) false 3 2 0)
      (building (sample 85)) 1
      (record 0x27 [(0%nat, [x38])]
       ++ post_frame_record 7 1 0x14 0x42b40000 0xc1200000 0x3f800000 1)
    = Ok (c', h')
    /\ dict_get (player (load (sample 85) h' 1)) 1 = Some p
    /\ hitlag p = true
    /\ jumps_left p = 0xb4
    /\ speed_air_x_self p = (-10)%float
    /\ ecb_top p = (1, 0)%float.
Proof.
  eexists _, _, _. split; [vm_compute; reflexivity|].
  split; [vm_compute; reflexivity|].
  vm_compute. repeat split.
Qed.

(** The same through the dispatcher. A stream of an old revision registers
    0x27 bytes for the post-frame record and sends, in one payload, the
    records of ports 1 and 2 one after the other. The record of port 1 is
    decoded from the buffer that still holds the record of port 2, and
    gets its hit-lag flag from the command byte of that record; the record
    of port 2, the last of the payload, gets the default. *)
Example short_post_frame_records_in_one_payload :
  exists c' h' p q,
    events_loop (sample 85) 8 (initial_console true) (building (sample 85)) 1
      ([x35; x16; x36; x00; xe4; x37; x00; x3b; x38; x00; x26; x39; x00; x02;
        x3a; x00; x08; x3b; x00; x2a; x3c; x00; x08]
       ++ game_start_record 0 1 0 0x20
       ++ record 0x27 [(0, [x38]); (1, be32 7)]%nat
       ++ record 0x27 [(0, [x38]); (1, be32 7); (5, [x01])]%nat)
    = Some (Ok (c', h', false))
    /\ eventsize c' !! 0x38%nat = Some 0x27
    /\ dict_get (player (load (sample 85) h' 1)) 1 = Some p
    /\ hitlag p = true
    /\ dict_get (player (load (sample 85) h' 1)) 2 = Some q
    /\ hitlag q = false.
Proof.
  eexists _, _, _, _. split; [vm_compute; reflexivity|].
  split; [vm_compute; reflexivity|].
  split; [vm_compute; reflexivity|].
  split; [vm_compute; reflexivity|].
  split; vm_compute; reflexivity.
Qed.

(** A NaN as percent is not caught. *)
Example post_frame_nan_percent :
  post_frame (sample 85) (started (sample 85) false 3 2 0)
    (building (sample 85)) 1
    (record 0x69 [(0, [x38]); (0x16, be32 0x7fc00000)]%nat)
  = Raise ValueError.
Proof. vm_compute. reflexivity. Qed.

(** A NaN as hit-stun is caught and gives 0; an infinity is not caught. *)
Example post_frame_nan_hitstun :
  exists c' h' p,
    post_frame (sample 85) (started (sample 85) false 3 2 0)
      (building (sample 85)) 1
      (record 0x69 [(0, [x38]); (0x2B, be32 0x7fc00000)]%nat)
    = Ok (c', h')
    /\ dict_get (player (load (sample 85) h' 1)) 1 = Some p
    /\ hitstun_frames_left p = 0.
Proof.
  eexists _, _, _. split; [vm_compute; reflexivity|].
  split; vm_compute; reflexivity.
Qed.

Example post_frame_infinite_hitstun :
  post_frame (sample 85) (started (sample 85) false 3 2 0)
    (building (sample 85)) 1
    (record 0x69 [(0, [x38]); (0x2B, be32 0x7f800000)]%nat)
  = Raise OverflowError.
Proof. vm_compute. reflexivity. Qed.

(** ** The two frame records of one port *)

Section FrameRecords.
Variable E : Externals.

Lemma pre_frame_player (c : Console) (h : Heap) (g : ref)
    (event_bytes : list byte) (c' : Console) (h' : Heap) (port : Z) :
  pre_frame E c h g event_bytes = Ok (c', h') ->
  read_u8 event_bytes 0x5 = Ok port ->
  exists p,
    dict_get (player (load E h' g)) (port + 1) = Some p
    /\ dict_get (_costumes c) port = Some (costume p)
    /\ dict_get (_cpu_level c) port = Some (cpu_level p)
    /\ (forall k, k <> port + 1 ->
          dict_get (player (load E h' g)) k
          = dict_get (player (load E h g)) k).
Proof.
  intros Hpre Hport.
  unfold pre_frame in Hpre. rewrite Hport in Hpre. cbn [rbind] in Hpre.
  replace (port + 1 - 1) with port in Hpre by lia.
  destruct (dict_get (_costumes c) port) as [costume'|];
    cbn [rbind] in Hpre; [|discriminate Hpre].
  destruct (dict_get (_cpu_level c) port) as [cpu_level'|];
    cbn [rbind] in Hpre; [|discriminate Hpre].
  invert_ok Hpre. injection Hpre as <- <-.
  rewrite load_store_eq. cbn [player]. rewrite dict_get_set_eq.
  eexists. split; [reflexivity|]. cbn [costume cpu_level].
  repeat (split; [reflexivity|]).
  intros k Hk. now rewrite dict_get_set_ne by congruence.
Qed.

Lemma post_frame_store_keeps (c : Console) (h : Heap) (g : ref)
    (event_bytes : list byte) (d : PostFrame) (p : PlayerState) :
  dict_get (player (load E h g)) (pf_port d) = Some p ->
  exists p',
    dict_get (player (load E (snd (post_frame_store E c h g event_bytes d)) g))
      (pf_port d) = Some p'
    /\ controller_state p' = controller_state p
    /\ costume p' = costume p
    /\ cpu_level p' = cpu_level p
    /\ iasa p' = iasa p.
Proof.
  intros Hget. unfold post_frame_store. cbn [snd]. rewrite load_store_eq.
  cbn [player]. rewrite dict_get_set_eq. eexists. split; [reflexivity|].
  cbn [controller_state costume cpu_level iasa].
  unfold player_or_new. rewrite Hget. cbn [default]. auto.
Qed.

Lemma post_frame_store_others (c : Console) (h : Heap) (g : ref)
    (event_bytes : list byte) (d : PostFrame) (k : Z) :
  k <> pf_port d ->
  dict_get (player (load E (snd (post_frame_store E c h g event_bytes d)) g)) k
  = dict_get (player (load E h g)) k.
Proof.
  intros Hk. unfold post_frame_store. cbn [snd]. rewrite load_store_eq.
  cbn [player]. now rewrite !dict_get_set_ne by congruence.
Qed.

(** X10. The two frame records of a port write different fields of its
    player: after a pre-frame record and then a post-frame record for the
    same port, the player still has the controller state, the costume and
    the CPU level the pre-frame record gave it, costume and level being the
    entries of the side tables for the port; and the players of the other
    ports are as they were before the two records. *)
Theorem pre_then_post_frame (c : Console) (h : Heap) (g : ref)
    (pre post : list byte) (c1 c2 : Console) (h1 h2 : Heap) (port : Z) :
  pre_frame E c h g pre = Ok (c1, h1) ->
  post_frame E c1 h1 g post = Ok (c2, h2) ->
  read_u8 pre 0x5 = Ok port ->
  read_u8 post 0x5 = Ok port ->
  exists p1 p2,
    dict_get (player (load E h1 g)) (port + 1) = Some p1
    /\ dict_get (player (load E h2 g)) (port + 1) = Some p2
    /\ controller_state p2 = controller_state p1
    /\ costume p2 = costume p1
    /\ cpu_level p2 = cpu_level p1
    /\ dict_get (_costumes c) port = Some (costume p1)
    /\ dict_get (_cpu_level c) port = Some (cpu_level p1)
    /\ (forall k, k <> port + 1 ->
          dict_get (player (load E h2 g)) k
          = dict_get (player (load E h g)) k).
Proof.
  intros Hpre Hpost Hport1 Hport2.
  destruct (post_frame_inv E _ _ _ _ _ Hpost) as (d & Hd & Hstore).
  destruct (post_frame_decode_port E _ _ Hd) as (port' & Hport' & Hpf).
  rewrite Hport2 in Hport'. injection Hport' as <-.
  apply (f_equal snd) in Hstore. cbn [snd] in Hstore. subst h2.
  destruct (pre_frame_player _ _ _ _ _ _ _ Hpre Hport1)
    as (p1 & Hp1 & Hcostume & Hlevel & Hothers).
  rewrite <- Hpf in *.
  destruct (post_frame_store_keeps c1 h1 g post d p1 Hp1)
    as (p2 & Hp2 & Hcontroller & Hcostume2 & Hlevel2 & _).
  exists p1, p2. repeat (split; [assumption|]).
  intros k Hk. rewrite post_frame_store_others by exact Hk.
  apply Hothers, Hk.
Qed.

(** X11. In legacy-bookend mode every frame record sets the last delivered
    index to the index of the snapshot, so a frame-bookend record that
    follows one is taken for an old frame: it makes the snapshot the
    previous one, and does not end the frame. *)
Theorem legacy_bookend_never_ends_frame (c : Console) (h : Heap) (g : ref)
    (event_bytes bookend : list byte) (c1 : Console) (h1 : Heap)
    (event_size : Z) :
  _use_manual_bookends c = true ->
  pre_frame E c h g event_bytes = Ok (c1, h1)
  \/ post_frame E c h g event_bytes = Ok (c1, h1) ->
  exists c2 h2,
    dispatch E c1 h1 g bookend FRAME_BOOKEND event_size
    = Ok (Return c2 h2 false)
    /\ _prev_gamestate c2 = g
    /\ _frame c2 = frame (load E h2 g).
Proof.
  intros Hlegacy Hrecord.
  assert (_frame c1 = frame (load E h1 g)) as Hframe.
  { destruct Hrecord as [Hpre | Hpost].
    - unfold pre_frame in Hpre. invert_ok Hpre. injection Hpre as <- <-.
      rewrite Hlegacy, load_store_eq. reflexivity.
    - destruct (post_frame_inv E _ _ _ _ _ Hpost) as (d & _ & Hstore).
      destruct (post_frame_store_kept E c h g event_bytes d)
        as (Hfst & gs' & Hsnd & Hgs & _).
      rewrite <- Hstore in Hfst, Hsnd. cbn [fst snd] in Hfst, Hsnd.
      rewrite Hfst, Hsnd, Hlegacy, load_store_eq, Hgs. reflexivity. }
  cbn [dispatch]. unfold frame_bookend. rewrite load_store_eq.
  cbn [frame _frame set_prev_gamestate]. rewrite Hframe, Z.leb_refl.
  eexists _, _. split; [reflexivity|]. cbn [_prev_gamestate _frame].
  rewrite load_store_eq. auto.
Qed.

End FrameRecords.

(** ** The distance of the frame-bookend record *)

Lemma first_two_counter (players : list (Z * PlayerState)) :
  forall (i : Z) (found : float * float * float * float),
    2 <= i -> snd (fold_left first_two_step players (i, found)) = found.
Proof.
  induction players as [|item players IH]; intros i found Hi; [reflexivity|].
  destruct found as [[[one_x one_y] two_x] two_y].
  cbn [fold_left first_two_step].
  destruct (Z.eqb_spec i 0); [lia|]. destruct (Z.eqb_spec i 1); [lia|].
  apply IH. lia.
Qed.

(** X12. What a frame-bookend record stores. When the snapshot holds two
    players or more, the distance it gets is the distance between the two
    that were put into the snapshot first, (x a, y a) and (x b, y b),
    whatever their ports and whatever the third and later players are: the
    square root, in binary64, of xdist * xdist + ydist * ydist, where xdist
    and ydist are the binary32 differences x a - x b and y a - y b. Nothing
    else of the snapshot changes, and the console keeps all but the
    reference to the previous snapshot. *)
Theorem bookend_distance_first_two (E : Externals) (c : Console) (h : Heap)
    (g : ref) (event_bytes : list byte) (port_a port_b : Z)
    (a b : PlayerState) (others : list (Z * PlayerState)) :
  player (load E h g) = (port_a, a) :: (port_b, b) :: others ->
  let c' := fst (frame_bookend E c h g event_bytes) in
  let gs' := load E (snd (frame_bookend E c h g event_bytes)) g in
  let xdist := SF2Prim (SFsub 24 128 (Prim2SF (x a)) (Prim2SF (x b))) in
  let ydist := SF2Prim (SFsub 24 128 (Prim2SF (y a)) (Prim2SF (y b))) in
  distance gs' = PrimFloat.sqrt (xdist * xdist + ydist * ydist)%float
  /\ (frame gs', stage gs', menu_state gs', player gs', projectiles gs')
     = (frame (load E h g), stage (load E h g), menu_state (load E h g),
        player (load E h g), projectiles (load E h g))
  /\ c' = set_prev_gamestate c g.
Proof.
  intros Hplayers. cbn zeta. unfold frame_bookend. cbn [fst snd].
  rewrite load_store_eq.
  cbn [distance frame stage menu_state player projectiles].
  split; [|split; reflexivity].
  assert (first_two ((port_a, a) :: (port_b, b) :: others)
          = (x a, y a, x b, y b)) as Hfirst.
  { change (first_two ((port_a, a) :: (port_b, b) :: others))
      with (snd (fold_left first_two_step others (2, (x a, y a, x b, y b)))).
    apply first_two_counter. lia. }
  unfold bookend_distance. rewrite Hplayers, Hfirst. reflexivity.
Qed.

(** Ports 3, 1 and 2, put into the snapshot in this order, at (4, 5), (1, 1)
    and (100, 100): the distance stored is 5, the distance between the
    players of ports 3 and 1. *)
Lemma bookend_distance_first_two_witness :
  let h :=
    store (building (sample 85)) 1
      (set_player (new_GameState (sample 85))
         [(3, player_at 4 5); (1, player_at 1 1);
          (2, player_at 100 100)]) in
  distance
    (load (sample 85)
       (snd (frame_bookend (sample 85) (started (sample 85) false 3 2 0)
               h 1 (frame_bookend_record 7))) 1)
  = 5%float.
Proof.
  cbn zeta.
  rewrite (proj1 (bookend_distance_first_two (sample 85)
                    (started (sample 85) false 3 2 0)
                    (store (building (sample 85)) 1
                       (set_player (new_GameState (sample 85))
                          [(3, player_at 4 5); (1, player_at 1 1);
                           (2, player_at 100 100)]))
                    1 (frame_bookend_record 7) 3 1
                    (player_at 4 5) (player_at 1 1)
                    [(2, player_at 100 100)] eq_refl)).
  vm_compute. reflexivity.
Defined.

(** Ports 3 and 1 at (3, 4) and at the origin, port 2 somewhere else: the
    distance is 5. *)
Example bookend_distance_three_players :
  bookend_distance
    [(3, mkPlayerState 0 3 4 0 60 4 true DASHING 1 false 0 false 0 1 true
           0 0 0 0 0 false false false (0, 0)%float (0, 0)%float
           (0, 0)%float (0, 0)%float 0 0 sample_ControllerState);
     (1, sample_player DASHING 0);
     (2, mkPlayerState 0 100 100 0 60 4 true DASHING 1 false 0 false 0 1
           true 0 0 0 0 0 false false false (0, 0)%float (0, 0)%float
           (0, 0)%float (0, 0)%float 0 0 sample_ControllerState)]
  = 5%float.
Proof. vm_compute. reflexivity. Qed.

(** Port 1 with button A held, then its post-frame record: the button is
    still held in the snapshot. *)
Lemma pre_then_post_frame_witness :
  exists c1 h1 c2 h2 p,
    pre_frame (sample 85) (started (sample 85) false 3 2 0)
      (building (sample 85)) 1 (pre_frame_record 7 0 0x3f800000 0x0100)
    = Ok (c1, h1)
    /\ post_frame (sample 85) c1 h1 1
         (post_frame_record 7 0 0x14 0 0 0x3f800000 0)
       = Ok (c2, h2)
    /\ dict_get (player (load (sample 85) h2 1)) 1 = Some p
    /\ BUTTON_A (controller_state p) = true
    /\ action p = DASHING.
Proof.
  destruct (pre_frame (sample 85) (started (sample 85) false 3 2 0)
              (building (sample 85)) 1
              (pre_frame_record 7 0 0x3f800000 0x0100))
    as [[c1 h1]|] eqn:Hpre; [|vm_compute in Hpre; discriminate Hpre].
  destruct (post_frame (sample 85) c1 h1 1
              (post_frame_record 7 0 0x14 0 0 0x3f800000 0))
    as [[c2 h2]|] eqn:Hpost.
  - destruct (pre_then_post_frame (sample 85) _ _ _ _ _ _ _ _ _ 0 Hpre Hpost)
      as (p1 & p2 & Hp1 & Hp2 & Hcontroller & _);
      [vm_compute; reflexivity | vm_compute; reflexivity |].
    exists c1, h1, c2, h2, p2. split; [reflexivity|]. split; [exact Hpost|].
    split; [exact Hp2|]. rewrite Hcontroller.
    symmetry in Hpre. vm_compute in Hpre. injection Hpre as -> ->.
    symmetry in Hpost. vm_compute in Hpost. injection Hpost as -> ->.
    vm_compute in Hp1. injection Hp1 as <-.
    vm_compute in Hp2. injection Hp2 as <-.
    split; reflexivity.
  - symmetry in Hpre. vm_compute in Hpre. injection Hpre as -> ->.
    vm_compute in Hpost. discriminate Hpost.
Defined.

(** Version 2.9.1 on a console that allows old versions: a bookend after
    the post-frame record of frame 7 does not end the frame. *)
Lemma legacy_bookend_never_ends_frame_witness :
  exists c1 h1 c2 h2,
    post_frame (sample 85) (started (sample 85) true 2 9 1)
      (building (sample 85)) 1 (post_frame_record 7 0 0x14 0 0 0x3f800000 0)
    = Ok (c1, h1)
    /\ dispatch (sample 85) c1 h1 1 (frame_bookend_record 7) FRAME_BOOKEND 9
       = Ok (Return c2 h2 false).
Proof.
  destruct (post_frame (sample 85) (started (sample 85) true 2 9 1)
              (building (sample 85)) 1
              (post_frame_record 7 0 0x14 0 0 0x3f800000 0))
    as [[c1 h1]|] eqn:Hpost; [|vm_compute in Hpost; discriminate Hpost].
  destruct (legacy_bookend_never_ends_frame (sample 85)
              (started (sample 85) true 2 9 1) (building (sample 85)) 1
              (post_frame_record 7 0 0x14 0 0 0x3f800000 0)
              (frame_bookend_record 7) c1 h1 9)
    as (c2 & h2 & Hbookend & _);
    [vm_compute; reflexivity | right; exact Hpost |].
  exists c1, h1, c2, h2. split; [reflexivity | exact Hbookend].
Defined.

(** ** [step] and the host's loop *)

Section StepFacts.
Variable E : Externals.

Lemma handle_kept (fuel : nat) (c : Console) (h : Heap) (g : ref)
    (event_bytes : list byte) (c' : Console) (h' : Heap)
    (frame_ended : bool) :
  handle_slippstream_events E fuel c h g event_bytes
  = Some (Ok (c', h', frame_ended)) ->
  console_kept g c c' /\ same_elsewhere g h h'.
Proof.
  unfold handle_slippstream_events. intros H.
  destruct (events_loop_kept E _ _ _ _ _ _ _ _ H) as (Hc & Hh & _).
  split; [exact Hc|].
  exact (same_elsewhere_trans _ _ _ _ (same_elsewhere_store g h _) Hh).
Qed.

(** What the loop over the messages does, message by message. *)
Lemma step_loop_spec (fuel : nat) (messages : list message) :
  forall (c : Console) (h : Heap) (g : ref) (c' : Console) (h' : Heap)
         (r : option ref) (rest : list message),
    step_loop E fuel c h g messages = Some (Ok (c', h', r, rest)) ->
    same_elsewhere g h h'
    /\ (_prev_gamestate c' = _prev_gamestate c \/ _prev_gamestate c' = g)
    /\ (exists used, messages = used ++ rest /\ (r <> None -> used <> []))
    /\ match r with
       | Some g' => g' = g /\ _temp_gamestate c' = None
       | None => rest = [] /\ _temp_gamestate c' = _temp_gamestate c
       end.
Proof.
  induction messages as [|m messages IH]; intros c h g c' h' r rest H.
  - injection H as <- <- <- <-.
    split; [apply same_elsewhere_refl|]. split; [auto|].
    split; [exists []; split; [reflexivity | congruence] | auto].
  - assert (forall c0 h0,
              step_loop E fuel c0 h0 g messages = Some (Ok (c', h', r, rest)) ->
              same_elsewhere g h h0 ->
              (_prev_gamestate c0 = _prev_gamestate c
               \/ _prev_gamestate c0 = g) ->
              _temp_gamestate c0 = _temp_gamestate c ->
              same_elsewhere g h h'
              /\ (_prev_gamestate c' = _prev_gamestate c
                  \/ _prev_gamestate c' = g)
              /\ (exists used,
                    m :: messages = used ++ rest /\ (r <> None -> used <> []))
              /\ match r with
                 | Some g' => g' = g /\ _temp_gamestate c' = None
                 | None => rest = [] /\ _temp_gamestate c' = _temp_gamestate c
                 end) as Hnext.
    { intros c0 h0 H0 Hh0 Hp0 Ht0.
      destruct (IH _ _ _ _ _ _ _ H0) as (Hh & Hp & (used & Hused & _) & Hr).
      split; [exact (same_elsewhere_trans _ _ _ _ Hh0 Hh)|].
      split; [destruct Hp as [Hp | Hp]; [rewrite Hp; exact Hp0 | auto]|].
      split; [exists (m :: used); split;
              [now rewrite Hused | discriminate]|].
      destruct r; [exact Hr | now rewrite <- Ht0]. }
    assert (forall c0 h0,
              finish E c0 h0 g = (c', h', g) ->
              r = Some g -> rest = messages ->
              same_elsewhere g h h0 ->
              (_prev_gamestate c0 = _prev_gamestate c
               \/ _prev_gamestate c0 = g) ->
              same_elsewhere g h h'
              /\ (_prev_gamestate c' = _prev_gamestate c
                  \/ _prev_gamestate c' = g)
              /\ (exists used,
                    m :: messages = used ++ rest /\ (r <> None -> used <> []))
              /\ match r with
                 | Some g' => g' = g /\ _temp_gamestate c' = None
                 | None => rest = [] /\ _temp_gamestate c' = _temp_gamestate c
                 end) as Hdone.
    { intros c0 h0 Hfin -> -> Hh0 Hp0. unfold finish in Hfin.
      injection Hfin as <- <-.
      split; [exact (same_elsewhere_trans _ _ _ _ Hh0
                       (same_elsewhere_store g h0 _))|].
      split; [exact Hp0|].
      split; [exists [m]; split; [reflexivity | discriminate] | auto]. }
    destruct m; cbn [step_loop] in H.
    + apply (Hnext _ _ H); auto using same_elsewhere_refl.
    + destruct (0 <? length payload)%nat;
        [|apply (Hnext _ _ H); auto using same_elsewhere_refl].
      destruct (handle_slippstream_events E fuel c h g payload)
        as [[[[c1 h1] ended]|]|] eqn:Hrun; try discriminate H.
      destruct (handle_kept _ _ _ _ _ _ _ _ Hrun)
        as ((Htemp & _ & _ & Hprev) & Hheap).
      destruct ended.
      * injection H as <- <- <- <-. now apply (Hdone c1 h1).
      * now apply (Hnext _ _ H).
    + destruct (_use_manual_bookends c && negb (_frame c =? -10000)).
      * injection H as <- <- <- <-.
        apply (Hdone c h); auto using same_elsewhere_refl.
      * apply (Hnext _ _ H); auto using same_elsewhere_refl.
    + apply (Hnext _ _ H); auto using same_elsewhere_refl.
Qed.

(** X13. One call of [step]: it works on the snapshot under construction,
    a fresh one if there is none. When it returns a snapshot, that is this
    very snapshot, at least one message has been taken, and the console
    holds no snapshot under construction any more; when it returns nothing,
    every message has been taken and the console keeps the snapshot, with
    what has been decoded into it, for the next call. The messages not yet
    taken are the last ones, in order. *)
Theorem step_lifecycle (fuel : nat) (c : Console) (h : Heap)
    (messages : list message) (c' : Console) (h' : Heap) (r : option ref)
    (rest : list message) :
  step E fuel c h messages = Some (Ok (c', h', r, rest)) ->
  (exists used, messages = used ++ rest /\ (r <> None -> used <> []))
  /\ match r with
     | Some g =>
         g = default (next_ref h) (_temp_gamestate c)
         /\ _temp_gamestate c' = None
     | None =>
         rest = []
         /\ _temp_gamestate c'
            = Some (default (next_ref h) (_temp_gamestate c))
     end.
Proof.
  unfold step. intros H.
  destruct (_temp_gamestate c) as [g|] eqn:Htemp; cbn [default].
  - destruct (step_loop_spec _ _ _ _ _ _ _ _ _ H) as (_ & _ & Hused & Hr).
    split; [exact Hused|]. destruct r; [exact Hr|].
    rewrite Htemp in Hr. exact Hr.
  - cbn [alloc] in H.
    destruct (step_loop_spec _ _ _ _ _ _ _ _ _ H) as (_ & _ & Hused & Hr).
    split; [exact Hused|]. destruct r; exact Hr.
Qed.

Lemma step_heap (fuel : nat) (c : Console) (h : Heap)
    (messages : list message) (c' : Console) (h' : Heap) (r : option ref)
    (rest : list message) :
  step E fuel c h messages = Some (Ok (c', h', r, rest)) ->
  allocated c h ->
  allocated c' h'
  /\ (next_ref h <= next_ref h')%nat
  /\ (forall g, (g < next_ref h)%nat -> _temp_gamestate c <> Some g ->
                objects h' !! g = objects h !! g)
  /\ (forall g, r = Some g ->
                (g < next_ref h')%nat /\ _temp_gamestate c' = None).
Proof.
  unfold step, allocated. intros H [Hprev Htemp].
  destruct (_temp_gamestate c) as [g|] eqn:Hc.
  - destruct (step_loop_spec _ _ _ _ _ _ _ _ _ H)
      as ([Hnext Hobjects] & Hp & _ & Hr).
    rewrite Hnext. split; [|split; [lia|split]].
    + split; [destruct Hp as [-> | ->]; lia|].
      destruct r; destruct Hr as [_ ->]; [exact I | now rewrite Hc].
    + intros g' _ Hne. apply Hobjects. intros ->. now apply Hne.
    + intros g' ->. destruct Hr as [-> ->]. auto.
  - cbn [alloc] in H.
    destruct (step_loop_spec _ _ _ _ _ _ _ _ _ H)
      as ([Hnext Hobjects] & Hp & _ & Hr).
    cbn [next_ref objects set_temp_gamestate _prev_gamestate
         _temp_gamestate] in Hnext, Hobjects, Hp, Hr.
    rewrite Hnext. split; [|split; [lia|split]].
    + split; [destruct Hp as [-> | ->]; lia|].
      destruct r; destruct Hr as [_ ->]; [exact I | lia].
    + intros g' Hlt _. rewrite Hobjects by lia.
      apply lookup_insert_ne. lia.
    + intros g' ->. destruct Hr as [-> ->]. split; [lia | reflexivity].
Qed.

Lemma run_heap (calls fuel : nat) :
  forall (c : Console) (h : Heap) (messages : list message)
         (gamestates : list GameState) (c' : Console) (h' : Heap),
    run E calls fuel c h messages = Some (Ok (gamestates, c', h')) ->
    allocated c h ->
    forall g, (g < next_ref h)%nat -> _temp_gamestate c <> Some g ->
              objects h' !! g = objects h !! g.
Proof.
  induction calls as [|calls IH];
    intros c h messages gamestates c' h' H Halloc g Hg Hne.
  - injection H as _ _ <-. reflexivity.
  - cbn [run] in H.
    destruct (step E fuel c h messages) as [[[[[c1 h1] r] rest]|]|] eqn:Hstep;
      try discriminate H.
    destruct (step_heap _ _ _ _ _ _ _ _ Hstep Halloc)
      as (Halloc1 & Hle & Hsame & Hfinal).
    destruct r as [g1|].
    + destruct (run E calls fuel c1 h1 rest) as [[[[gs c2] h2]|]|] eqn:Hrun;
        try discriminate H.
      injection H as _ _ <-.
      destruct (Hfinal g1 eq_refl) as [_ Hnone].
      rewrite (IH _ _ _ _ _ _ Hrun Halloc1 g) by (try lia; congruence).
      now apply Hsame.
    + injection H as _ _ <-. now apply Hsame.
Qed.

Lemma run_count (calls fuel : nat) :
  forall (c : Console) (h : Heap) (messages : list message)
         (gamestates : list GameState) (c' : Console) (h' : Heap),
    run E calls fuel c h messages = Some (Ok (gamestates, c', h')) ->
    (length gamestates <= length messages)%nat
    /\ (length gamestates <= calls)%nat.
Proof.
  induction calls as [|calls IH];
    intros c h messages gamestates c' h' H.
  - injection H as <- _ _. cbn [length]. lia.
  - cbn [run] in H.
    destruct (step E fuel c h messages) as [[[[[c1 h1] r] rest]|]|] eqn:Hstep;
      try discriminate H.
    destruct r as [g1|]; [|injection H as <- _ _; cbn [length]; lia].
    destruct (run E calls fuel c1 h1 rest) as [[[[gs c2] h2]|]|] eqn:Hrun;
      try discriminate H.
    injection H as <- _ _. destruct (IH _ _ _ _ _ _ Hrun) as [Hrest Hcalls].
    assert (length rest < length messages)%nat as Hshorter.
    { unfold step in Hstep.
      destruct (_temp_gamestate c); [|cbn [alloc] in Hstep];
        destruct (step_loop_spec _ _ _ _ _ _ _ _ _ Hstep)
          as (_ & _ & (used & -> & Hused) & _);
        rewrite length_app; destruct used; cbn [length];
          try lia; now destruct Hused. }
    cbn [length]. lia.
Qed.

(** X14. A snapshot that [step] has returned is final: no later call of
    [step], however many and whatever the messages, changes it. Each call
    after it decodes into a snapshot of its own. *)
Theorem returned_snapshot_is_final (fuel fuel' calls : nat) (c : Console)
    (h : Heap) (messages later : list message) (c1 : Console) (h1 : Heap)
    (g : ref) (rest : list message) (gamestates : list GameState)
    (c2 : Console) (h2 : Heap) :
  allocated c h ->
  step E fuel c h messages = Some (Ok (c1, h1, Some g, rest)) ->
  run E calls fuel' c1 h1 later = Some (Ok (gamestates, c2, h2)) ->
  load E h2 g = load E h1 g.
Proof.
  intros Halloc Hstep Hrun.
  destruct (step_heap _ _ _ _ _ _ _ _ Hstep Halloc)
    as (Halloc1 & _ & _ & Hfinal).
  destruct (Hfinal g eq_refl) as [Hg Hnone].
  unfold load. f_equal.
  apply (run_heap _ _ _ _ _ _ _ _ Hrun Halloc1 g Hg). congruence.
Qed.

(** X15. The host's loop delivers at most one snapshot for each message of
    the transport, and at most one for each call of [step]. *)
Theorem run_delivers_at_most_one_per_message (calls fuel : nat) (c : Console)
    (h : Heap) (messages : list message) (gamestates : list GameState)
    (c' : Console) (h' : Heap) :
  run E calls fuel c h messages = Some (Ok (gamestates, c', h')) ->
  (length gamestates <= Nat.min calls (length messages))%nat.
Proof.
  intros H. destruct (run_count _ _ _ _ _ _ _ _ H) as [Hmessages Hcalls].
  apply Nat.min_glb; assumption.
Qed.

End StepFacts.

(** A frame and then a message of another type: the call returns snapshot
    1 and leaves the other message. *)
Lemma step_lifecycle_witness :
  exists c' h',
    step (sample 85) 8 (started (sample 85) false 3 2 0)
      (building (sample 85))
      [game_event (frame_records 1 0x0e); other_message]
    = Some (Ok (c', h', Some 1%nat, [other_message]))
    /\ _temp_gamestate c' = None.
Proof.
  destruct (step (sample 85) 8 (started (sample 85) false 3 2 0)
              (building (sample 85))
              [game_event (frame_records 1 0x0e); other_message])
    as [[[[[c' h'] [g|]] rest]|]|] eqn:Hstep;
    try (vm_compute in Hstep; discriminate Hstep).
  destruct (step_lifecycle (sample 85) _ _ _ _ _ _ _ _ Hstep)
    as (_ & Hg & Htemp).
  exists c', h'. split; [|exact Htemp].
  rewrite Hg. symmetry in Hstep. vm_compute in Hstep.
  injection Hstep as _ _ _ ->. reflexivity.
Defined.

(** The snapshot of frame 1 is as it was after frame 2 has been decoded. *)
Lemma returned_snapshot_is_final_witness :
  exists c1 h1 gamestates c2 h2,
    step (sample 85) 8 (started (sample 85) false 3 2 0)
      (building (sample 85))
      [game_event (frame_records 1 0x0e); game_event (frame_records 2 0x0e)]
    = Some (Ok (c1, h1, Some 1%nat, [game_event (frame_records 2 0x0e)]))
    /\ run (sample 85) 2 8 c1 h1 [game_event (frame_records 2 0x0e)]
       = Some (Ok (gamestates, c2, h2))
    /\ length gamestates = 1%nat
    /\ load (sample 85) h2 1 = load (sample 85) h1 1.
Proof.
  destruct (step (sample 85) 8 (started (sample 85) false 3 2 0)
              (building (sample 85))
              [game_event (frame_records 1 0x0e);
               game_event (frame_records 2 0x0e)])
    as [[[[[c1 h1] r] rest]|]|] eqn:Hstep;
    try (vm_compute in Hstep; discriminate Hstep).
  assert (r = Some 1%nat /\ rest = [game_event (frame_records 2 0x0e)])
    as [-> ->].
  { pose proof Hstep as Hrun. symmetry in Hrun. vm_compute in Hrun.
    injection Hrun as _ _ -> ->. split; reflexivity. }
  destruct (run (sample 85) 2 8 c1 h1 [game_event (frame_records 2 0x0e)])
    as [[[[gamestates c2] h2]|]|] eqn:Hrun.
  - exists c1, h1, gamestates, c2, h2.
    split; [reflexivity|]. split; [exact Hrun|]. split.
    + pose proof Hstep as Hone. symmetry in Hone. vm_compute in Hone.
      injection Hone as -> ->. symmetry in Hrun. vm_compute in Hrun.
      injection Hrun as -> _ _. reflexivity.
    + apply (returned_snapshot_is_final (sample 85) 8 8 2
               (started (sample 85) false 3 2 0) (building (sample 85))
               [game_event (frame_records 1 0x0e);
                game_event (frame_records 2 0x0e)]
               [game_event (frame_records 2 0x0e)] c1 h1 1
               [game_event (frame_records 2 0x0e)] gamestates c2 h2);
        [split; vm_compute; lia | exact Hstep | exact Hrun].
  - symmetry in Hstep. vm_compute in Hstep. injection Hstep as -> ->.
    vm_compute in Hrun. discriminate Hrun.
  - symmetry in Hstep. vm_compute in Hstep. injection Hstep as -> ->.
    vm_compute in Hrun. discriminate Hrun.
Defined.

(** Three messages, one of them a frame that is not new: two snapshots. *)
Lemma run_delivers_at_most_one_per_message_witness :
  exists gamestates c' h',
    run (sample 85) 4 8 (started (sample 85) false 3 2 0)
      (building (sample 85))
      [game_event (frame_records 1 0x0e); game_event (frame_records 1 0x0e);
       game_event (frame_records 2 0x0e)]
    = Some (Ok (gamestates, c', h'))
    /\ (length gamestates <= 3)%nat.
Proof.
  destruct (run (sample 85) 4 8 (started (sample 85) false 3 2 0)
              (building (sample 85))
              [game_event (frame_records 1 0x0e);
               game_event (frame_records 1 0x0e);
               game_event (frame_records 2 0x0e)])
    as [[[[gamestates c'] h']|]|] eqn:Hrun;
    try (vm_compute in Hrun; discriminate Hrun).
  exists gamestates, c', h'. split; [reflexivity|].
  exact (run_delivers_at_most_one_per_message (sample 85) _ _ _ _ _ _ _ _
           Hrun).
Defined.

(** ** The end of a frame *)

Lemma dict_get_map {V : Type} (f : V -> V) (d : list (Z * V)) (k : Z) :
  dict_get (map (fun item : Z * V => (fst item, f (snd item))) d) k
  = f <$> dict_get d k.
Proof.
  induction d as [|[k' v] d IH]; [reflexivity|].
  cbn [map dict_get fst snd]. destruct (k' =? k); [reflexivity | exact IH].
Qed.

Lemma dict_keys_map {V : Type} (f : V -> V) (d : list (Z * V)) :
  dict_keys (map (fun item : Z * V => (fst item, f (snd item))) d)
  = dict_keys d.
Proof.
  unfold dict_keys. rewrite map_map. reflexivity.
Qed.

Section FrameEnd.
Variable E : Externals.

(** X16. What the two fix-ups at the end of [step] do to the snapshot it
    returns: the ports and their order, the frame index, the stage, the menu
    state, the projectiles and the distance are kept; of each player only
    the action-frame counter and the IASA flag can change: the counter is one
    more for a character and action state in the zero-indexed set and
    unchanged otherwise, and the flag is cleared for an action state below
    NEUTRAL_ATTACK_1 or above DAIR and unchanged otherwise. *)
Theorem finish_fixes (c : Console) (h : Heap) (g : ref) :
  let '(c', h', r) := finish E c h g in
  r = g
  /\ c' = set_temp_gamestate c None
  /\ (frame (load E h' g), stage (load E h' g), menu_state (load E h' g),
      projectiles (load E h' g), distance (load E h' g))
     = (frame (load E h g), stage (load E h g), menu_state (load E h g),
        projectiles (load E h g), distance (load E h g))
  /\ dict_keys (player (load E h' g)) = dict_keys (player (load E h g))
  /\ forall port,
       dict_get (player (load E h' g)) port
       = (fun p =>
            let fixed :=
              if zero_indices E (character p) (Action_value E (action p))
              then set_action_frame p (action_frame p + 1) else p in
            if (Action_value E (action p) <? Action_value E NEUTRAL_ATTACK_1)
               || (Action_value E DAIR <? Action_value E (action p))
            then set_iasa fixed false else fixed)
         <$> dict_get (player (load E h g)) port.
Proof.
  unfold finish. rewrite load_store_eq.
  split; [reflexivity|]. split; [reflexivity|]. split; [reflexivity|].
  set (fix_frame := fun p : PlayerState =>
         if zero_indices E (character p) (Action_value E (action p))
         then set_action_frame p (action_frame p + 1) else p).
  set (fix_iasa := fun p : PlayerState =>
         if (Action_value E (action p) <? Action_value E NEUTRAL_ATTACK_1)
            || (Action_value E DAIR <? Action_value E (action p))
         then set_iasa p false else p).
  change (player (fixiasa E (fixframeindexing E (load E h g))))
    with (map (fun item : Z * PlayerState => (fst item, fix_iasa (snd item)))
            (map (fun item : Z * PlayerState =>
                    (fst item, fix_frame (snd item)))
               (player (load E h g)))).
  split; [now rewrite !dict_keys_map|].
  intros port. rewrite !dict_get_map.
  destruct (dict_get (player (load E h g)) port) as [p|]; [|reflexivity].
  cbn [fmap option_fmap option_map]. f_equal. unfold fix_iasa, fix_frame.
  now destruct (zero_indices E (character p) (Action_value E (action p))).
Qed.

(** X17. A payload is decoded up to its first frame-bookend record and no
    further: whatever follows the record in the same payload is dropped
    undecoded, and the bytes of the record itself after the command byte are
    not read either (the index is the one the frame records left in the
    snapshot). *)
Theorem bookend_discards_rest (fuel : nat) (c : Console) (h : Heap) (g : ref)
    (first : byte) (tail tail' : list byte) (n : Z) :
  eventsize c !! Z.to_nat (byte_val first) = Some n ->
  EventType_of_value E (byte_val first) = Some FRAME_BOOKEND ->
  n <= Z.of_nat (length (first :: tail)) ->
  n <= Z.of_nat (length (first :: tail')) ->
  events_loop E (S fuel) c h g (first :: tail)
  = events_loop E (S fuel) c h g (first :: tail')
  /\ exists c' h' frame_ended,
       events_loop E (S fuel) c h g (first :: tail)
       = Some (Ok (c', h', frame_ended))
       /\ _prev_gamestate c' = g
       /\ frame (load E h' g) = frame (load E h g).
Proof.
  intros Hsize Hev Hlen Hlen'. cbn [events_loop]. unfold event_step.
  rewrite Hsize, Hev. cbn [rbind].
  destruct (Z.ltb_spec (Z.of_nat (length (first :: tail))) n); [lia|].
  destruct (Z.ltb_spec (Z.of_nat (length (first :: tail'))) n); [lia|].
  cbn [dispatch]. unfold frame_bookend. rewrite load_store_eq. cbn [frame].
  split; [reflexivity|].
  destruct (frame (load E h g) <=? _frame (set_prev_gamestate c g));
    eexists _, _, _; (split; [reflexivity|]);
    cbn [_prev_gamestate set_frame set_prev_gamestate];
    rewrite load_store_eq; auto.
Qed.

(** X18. When [__item_update] decodes, and what it does. [event_bytes] is
    what the dispatcher hands it: all the bytes left in the payload from the
    command byte of the record on, not the record cut to its declared
    length. The decoder returns exactly when at least 0x1c bytes are left
    (up to the end of the vertical position), and then adds one projectile
    at the end of the list and changes nothing else of the snapshot; its
    subtype is the member for the id at 0x5 when there is one and
    [UNKNOWN_PROJECTILE] otherwise. The bound is on the bytes left, not on
    the record: a record shorter than 0x1c bytes that is followed by other
    records in its payload decodes, from the bytes of those records
    ([item_update_reads_next_record]). *)
Theorem item_update_appends (h : Heap) (g : ref) (event_bytes : list byte) :
  ((exists h', item_update E h g event_bytes = Ok h')
   <-> (0x1c <= length event_bytes)%nat)
  /\ forall h',
       item_update E h g event_bytes = Ok h' ->
       exists projectile subtype_id,
         projectiles (load E h' g) = projectiles (load E h g) ++ [projectile]
         /\ read_u16 event_bytes 0x5 = Ok subtype_id
         /\ subtype projectile
            = (if ProjectileSubtype_member E subtype_id
               then PROJECTILE subtype_id else UNKNOWN_PROJECTILE)
         /\ (frame (load E h' g), stage (load E h' g),
             menu_state (load E h' g), player (load E h' g),
             distance (load E h' g))
            = (frame (load E h g), stage (load E h g),
               menu_state (load E h g), player (load E h g),
               distance (load E h g))
         /\ same_elsewhere g h h'.
Proof.
  split; [split|].
  - intros [h' H]. unfold item_update in H. invert_ok H.
    match goal with
    | Hy : read_f32 event_bytes 0x18 = Ok _ |- _ =>
        apply read_f32_ok_length in Hy; lia
    end.
  - intros Hlen. unfold item_update.
    destruct (read_f32_in_range event_bytes 0x14) as [x' ->]; [lia|].
    destruct (read_f32_in_range event_bytes 0x18) as [y' ->]; [lia|].
    destruct (read_f32_in_range event_bytes 0xc) as [xs ->]; [lia|].
    destruct (read_f32_in_range event_bytes 0x10) as [ys ->]; [lia|].
    destruct (read_be_in_range 2 event_bytes 0x5 0) as [id Hid]; [lia|].
    unfold read_u16. rewrite Hid. cbn [rbind]. eauto.
  - intros h' H. unfold item_update in H. invert_ok H. injection H as <-.
    rewrite load_store_eq. cbn [projectiles frame stage menu_state player
                                distance].
    eexists _, _. split; [reflexivity|]. split; [reflexivity|].
    cbn [subtype]. split; [reflexivity|]. split; [reflexivity|].
    apply same_elsewhere_store.
Qed.

End FrameEnd.

(** The first 0x10 bytes of an item record do not decode when nothing
    follows them; followed in the payload by two frame-bookend records (18
    bytes), they do, and the projectile is read across the three records:
    its owner is missing, its vertical speed is the float whose first byte
    is the command byte 0x3c of the first bookend, and its horizontal
    position begins with the last byte of that bookend's frame index. *)
Example item_update_reads_next_record :
  item_update (sample 85) (building (sample 85)) 1
    (take 0x10 (item_update_record 0))
  = Raise TypeError
  /\ exists h' projectile,
       item_update (sample 85) (building (sample 85)) 1
         (take 0x10 (item_update_record 0)
          ++ frame_bookend_record 7 ++ frame_bookend_record 7)
       = Ok h'
       /\ projectiles (load (sample 85) h' 1) = [projectile]
       /\ owner projectile = -1
       /\ y_speed projectile = float32_of_bits 0x3c000000
       /\ proj_x projectile = float32_of_bits 0x07000000.
Proof.
  split; [vm_compute; reflexivity|].
  eexists _, _. split; [vm_compute; reflexivity|].
  split; [vm_compute; reflexivity|].
  split; [vm_compute; reflexivity|].
  split; vm_compute; reflexivity.
Qed.

(** A bookend of frame 7 in a snapshot of frame 7: what follows it in the
    payload does not matter. *)
Lemma bookend_discards_rest_witness :
  events_loop (sample 85) 1 (started (sample 85) false 3 2 0)
    (building (sample 85)) 1
    (frame_bookend_record 7 ++ post_frame_record 8 0 0x14 0 0 0x3f800000 0)
  = events_loop (sample 85) 1 (started (sample 85) false 3 2 0)
      (building (sample 85)) 1 (frame_bookend_record 7).
Proof.
  apply (proj1 (bookend_discards_rest (sample 85) 0
                  (started (sample 85) false 3 2 0) (building (sample 85)) 1
                  x3c
                  (tl (frame_bookend_record 7
                       ++ post_frame_record 8 0 0x14 0 0 0x3f800000 0))
                  (tl (frame_bookend_record 7)) 9
                  ltac:(vm_compute; reflexivity) eq_refl
                  ltac:(vm_compute; discriminate)
                  ltac:(vm_compute; discriminate))).
Defined.

(** * The menu events *)

Section MenuFacts.
Import MenuEvent.
Variable M : MenuExternals.
Variable event_bytes : list byte.

Lemma update_player_inv (d d' : players) (port : Z)
    (f : MenuPlayerState -> MenuPlayerState) :
  update_player d port f = Ok d' ->
  exists p, dict_get d port = Some p /\ d' = dict_set d port (f p).
Proof.
  unfold update_player. destruct (dict_get d port) as [p|]; [|discriminate].
  intros [= <-]. eauto.
Qed.

Lemma keeps_refl {A : Type} (view : MenuPlayerState -> A) (d : players) :
  keeps view d d.
Proof. split; auto. Qed.

Lemma keeps_trans {A : Type} (view : MenuPlayerState -> A)
    (d1 d2 d3 : players) :
  keeps view d1 d2 -> keeps view d2 d3 -> keeps view d1 d3.
Proof.
  intros [Hk1 Hv1] [Hk2 Hv2]. split; [congruence|].
  intros k. now rewrite Hv2, Hv1.
Qed.

Lemma update_player_keeps {A : Type} (view : MenuPlayerState -> A)
    (d d' : players) (port : Z) (f : MenuPlayerState -> MenuPlayerState) :
  (forall p, view (f p) = view p) ->
  update_player d port f = Ok d' -> keeps view d d'.
Proof.
  intros Hf H. destruct (update_player_inv _ _ _ _ H) as (p & Hp & ->).
  split.
  - apply dict_keys_set_present, dict_get_keys. eauto.
  - intros k. destruct (Z.eq_dec port k) as [<- | Hne].
    + rewrite dict_get_set_eq, Hp. cbn. now rewrite Hf.
    + now rewrite dict_get_set_ne.
Qed.

Lemma update_player_other (d d' : players) (port k : Z)
    (f : MenuPlayerState -> MenuPlayerState) :
  update_player d port f = Ok d' -> k <> port ->
  dict_get d' k = dict_get d k.
Proof.
  intros H Hne. destruct (update_player_inv _ _ _ _ H) as (p & _ & ->).
  apply dict_get_set_ne. congruence.
Qed.

Lemma update_player_at (d d' : players) (port : Z)
    (f : MenuPlayerState -> MenuPlayerState) :
  update_player d port f = Ok d' ->
  exists p, dict_get d port = Some p /\ dict_get d' port = Some (f p).
Proof.
  intros H. destruct (update_player_inv _ _ _ _ H) as (p & Hp & ->).
  exists p. split; [exact Hp | apply dict_get_set_eq].
Qed.

Lemma each_port_keeps {A : Type} (view : MenuPlayerState -> A)
    (body : Z -> nat -> players -> result players) (items : list (Z * nat)) :
  (forall port offset d d',
     body port offset d = Ok d' -> keeps view d d') ->
  forall d d', each_port items body d = Ok d' -> keeps view d d'.
Proof.
  intros Hbody. induction items as [|[port offset] items IH]; intros d d' H.
  - injection H as <-. apply keeps_refl.
  - cbn [each_port] in H.
    destruct (body port offset d) as [d1|] eqn:Hd1; cbn [rbind] in H;
      [|discriminate H].
    eauto using keeps_trans.
Qed.

Lemma each_port_other
    (body : Z -> nat -> players -> result players) (items : list (Z * nat))
    (k : Z) :
  (forall port offset d d',
     body port offset d = Ok d' -> k <> port ->
     dict_get d' k = dict_get d k) ->
  ~ In k (map fst items) ->
  forall d d', each_port items body d = Ok d' ->
               dict_get d' k = dict_get d k.
Proof.
  intros Hbody. induction items as [|[port offset] items IH];
    intros Hnotin d d' H.
  - now injection H as <-.
  - cbn [each_port] in H. cbn [map fst In] in Hnotin.
    destruct (body port offset d) as [d1|] eqn:Hd1; cbn [rbind] in H;
      [|discriminate H].
    apply Decidable.not_or in Hnotin. destruct Hnotin as [Hne Hnotin].
    rewrite (IH Hnotin _ _ H). apply (Hbody _ _ _ _ Hd1). congruence.
Qed.

(** What a pass that writes one attribute per port leaves at each port. *)
Lemma each_port_sets
    (body : Z -> nat -> players -> result players) (items : list (Z * nat))
    (written : nat -> MenuPlayerState -> Prop) :
  (forall port offset d d',
     body port offset d = Ok d' ->
     (exists p, dict_get d' port = Some p /\ written offset p)
     /\ forall k, k <> port -> dict_get d' k = dict_get d k) ->
  List.NoDup (map fst items) ->
  forall d d', each_port items body d = Ok d' ->
  forall port offset, In (port, offset) items ->
    exists p, dict_get d' port = Some p /\ written offset p.
Proof.
  intros Hbody. induction items as [|[port0 offset0] items IH];
    intros Hnodup d d' H port offset Hin; [destruct Hin|].
  cbn [each_port] in H. cbn [map fst] in Hnodup.
  apply NoDup_cons_iff in Hnodup. destruct Hnodup as [Hfresh Hnodup].
  destruct (body port0 offset0 d) as [d1|] eqn:Hd1; cbn [rbind] in H;
    [|discriminate H].
  destruct Hin as [[= -> ->] | Hin]; [|exact (IH Hnodup _ _ H _ _ Hin)].
  destruct (Hbody _ _ _ _ Hd1) as [(p & Hp & Hwritten) _].
  exists p. split; [|exact Hwritten]. rewrite <- Hp.
  apply (each_port_other body items port); [|exact Hfresh | exact H].
  intros port1 offset1 d2 d3 Hd3 Hne. now apply (Hbody _ _ _ _ Hd3).
Qed.

Lemma loop_ports_keeps {A : Type} (view : MenuPlayerState -> A)
    (body : Z -> players -> result players) (n : nat) :
  (forall i d d', body i d = Ok d' -> keeps view d d') ->
  forall i d, keeps view d (fst (loop_ports n i body d)).
Proof.
  intros Hbody. induction n as [|n IH]; intros i d; cbn [loop_ports].
  - apply keeps_refl.
  - destruct (body i d) as [d1|] eqn:Hd1; [|apply keeps_refl].
    eauto using keeps_trans.
Qed.

Lemma passing_keeps {A : Type} (view : MenuPlayerState -> A)
    (handled : exn -> bool) (r : players * option exn) (d d' : players) :
  keeps view d (fst r) -> passing handled r = Ok d' -> keeps view d d'.
Proof.
  destruct r as [d1 [e|]]; cbn [passing fst]; intros Hkeeps H.
  - destruct (handled e); [|discriminate H]. now injection H as <-.
  - now injection H as <-.
Qed.

Lemma clear_cpu_level_keeps {A : Type} (view : MenuPlayerState -> A)
    (d : players) :
  (forall v p, view (set_player_cpu_level v p) = view p) ->
  keeps view d (clear_cpu_level d).
Proof.
  intros Hview. unfold clear_cpu_level.
  set (f := fun p : MenuPlayerState =>
              if bool_decide (controller_status p = CONTROLLER_CPU)
              then p else set_player_cpu_level 0 p).
  change (keeps view d
            (map (fun item : Z * MenuPlayerState => (fst item, f (snd item)))
               d)).
  split; [apply dict_keys_map|].
  intros k. rewrite dict_get_map. destruct (dict_get d k) as [p|]; cbn;
    [|reflexivity].
  unfold f. destruct (bool_decide _); [reflexivity | now rewrite Hview].
Qed.

End MenuFacts.

Section MenuDecoderFacts.
Import MenuEvent.
Variable M : MenuExternals.
Variable event_bytes : list byte.

Section Views.
Context {A : Type} (view : MenuPlayerState -> A).

Lemma status_body_keeps (port : Z) (offset : nat) (d d' : players) :
  (forall v p, view (set_controller_status v p) = view p) ->
  status_body M event_bytes port offset d = Ok d' -> keeps view d d'.
Proof.
  intros Hview H. unfold status_body in H. invert_ok H.
  eauto using update_player_keeps.
Qed.

Lemma cursor_body_keeps (port : Z) (offset : nat) (d d' : players) :
  (forall v p, view (set_cursor_x v p) = view p) ->
  (forall v p, view (set_cursor_y v p) = view p) ->
  cursor_body event_bytes port offset d = Ok d' -> keeps view d d'.
Proof.
  intros Hx Hy H. unfold cursor_body in H. invert_ok H.
  eauto using update_player_keeps, keeps_trans.
Qed.

Lemma character_body_keeps (port : Z) (offset : nat) (d d' : players) :
  (forall v p, view (set_character_selected v p) = view p) ->
  character_body M event_bytes port offset d = Ok d' -> keeps view d d'.
Proof.
  intros Hview H. unfold character_body in H. invert_ok H.
  eauto using update_player_keeps.
Qed.

Lemma coin_body_keeps (port : Z) (offset : nat) (d d' : players) :
  (forall v p, view (set_coin_down v p) = view p) ->
  coin_body event_bytes port offset d = Ok d' -> keeps view d d'.
Proof.
  intros Hview H. unfold coin_body in H. eauto using update_player_keeps.
Qed.

Lemma costume_body_keeps (i : Z) (d d' : players) :
  (forall v p, view (set_player_costume v p) = view p) ->
  costume_body event_bytes i d = Ok d' -> keeps view d d'.
Proof.
  intros Hview H. unfold costume_body in H. invert_ok H.
  eauto using update_player_keeps.
Qed.

Lemma slider_body_keeps (i : Z) (d d' : players) :
  (forall v p, view (set_is_holding_cpu_slider v p) = view p) ->
  slider_body event_bytes i d = Ok d' -> keeps view d d'.
Proof.
  intros Hview H. unfold slider_body in H. invert_ok H.
  eauto using update_player_keeps.
Qed.

Lemma level_body_keeps (i : Z) (d d' : players) :
  (forall v p, view (set_player_cpu_level v p) = view p) ->
  level_body i d = Ok d' -> keeps view d d'.
Proof.
  intros Hview H. unfold level_body in H.
  destruct (dict_get d (i + 1)) as [p|]; cbn [rbind] in H; [|discriminate H].
  destruct (truthy (is_holding_cpu_slider p)).
  - invert_ok H. eauto using update_player_keeps.
  - eauto using update_player_keeps.
Qed.

(** The character-select block after the cursors. *)
Lemma css_tail_keeps (d2 d3 d4 : players) :
  (forall v p, view (set_character_selected v p) = view p) ->
  (forall v p, view (set_coin_down v p) = view p) ->
  each_port [(1, 0x29%nat); (2, 0x2A%nat); (3, 0x2B%nat); (4, 0x2C%nat)]
    (character_body M event_bytes) d2 = Ok d3 ->
  each_port [(1, 0x2D%nat); (2, 0x2E%nat); (3, 0x2F%nat); (4, 0x30%nat)]
    (coin_body event_bytes) d3 = Ok d4 ->
  keeps view d2 d4.
Proof.
  intros Hcharacter Hcoin H3 H4.
  apply (keeps_trans _ _ d3).
  - apply (each_port_keeps view _ _
             (fun port offset d d' H =>
                character_body_keeps port offset d d' Hcharacter H) _ _ H3).
  - apply (each_port_keeps view _ _
             (fun port offset d d' H =>
                coin_body_keeps port offset d d' Hcoin H) _ _ H4).
Qed.

(** The passes over the players after the two blocks. *)
Lemma menu_tail_keeps (online : bool) (d3 d4 d5 d6 : players) :
  (forall v p, view (set_player_costume v p) = view p) ->
  (forall v p, view (set_is_holding_cpu_slider v p) = view p) ->
  (forall v p, view (set_player_cpu_level v p) = view p) ->
  (if online
   then passing is_TypeError (loop_ports 4 0 (costume_body event_bytes) d3)
   else Ok d3) = Ok d4 ->
  passing is_TypeError_or_KeyError
    (loop_ports 4 0 (slider_body event_bytes) d4) = Ok d5 ->
  passing is_TypeError_or_KeyError (loop_ports 4 0 level_body d5) = Ok d6 ->
  keeps view d3 (clear_cpu_level d6).
Proof.
  intros Hcostume Hholding Hlevel H4 H5 H6.
  apply (keeps_trans _ _ d4).
  { destruct online; [|injection H4 as <-; apply keeps_refl].
    apply (passing_keeps view _ _ _ _ (loop_ports_keeps view _ 4
             (fun i d d' H => costume_body_keeps i d d' Hcostume H) 0 d3) H4). }
  apply (keeps_trans _ _ d5).
  { apply (passing_keeps view _ _ _ _ (loop_ports_keeps view _ 4
             (fun i d d' H => slider_body_keeps i d d' Hholding H) 0 d4) H5). }
  apply (keeps_trans _ _ d6).
  { apply (passing_keeps view _ _ _ _ (loop_ports_keeps view _ 4
             (fun i d d' H => level_body_keeps i d d' Hlevel H) 0 d5) H6). }
  apply clear_cpu_level_keeps, Hlevel.
Qed.

End Views.

(** The steps of the decoder, one after the other. *)
Lemma handle_inv (gs gs' : MenuGameState) :
  handle_slippstream_menu_event M event_bytes gs = Ok gs' ->
  exists scene gs2 gs3 d4 d5 d6,
    read_u16 event_bytes 0x1 = Ok scene
    /\ (let gs1 :=
          mkMenuGameState (frame gs) (stage gs) (fst (scene_branch scene))
            (if snd (scene_branch scene) then reset_ports M (player gs)
             else player gs)
            (ready_to_start gs) (stage_select_cursor_x gs)
            (stage_select_cursor_y gs) (submenu gs) (menu_selection gs) in
        (if at_css (fst (scene_branch scene))
         then css_block M event_bytes gs1 else Ok gs1) = Ok gs2)
    /\ (if bool_decide (fst (scene_branch scene) = STAGE_SELECT)
        then stage_block M event_bytes gs2 else Ok gs2) = Ok gs3
    /\ read_i32 event_bytes 0x39 = Ok (frame gs')
    /\ (if bool_decide (fst (scene_branch scene) = SLIPPI_ONLINE_CSS)
        then passing is_TypeError
               (loop_ports 4 0 (costume_body event_bytes) (player gs3))
        else Ok (player gs3)) = Ok d4
    /\ passing is_TypeError_or_KeyError
         (loop_ports 4 0 (slider_body event_bytes) d4) = Ok d5
    /\ passing is_TypeError_or_KeyError (loop_ports 4 0 level_body d5)
       = Ok d6
    /\ player gs' = clear_cpu_level d6
    /\ menu_state gs' = fst (scene_branch scene)
    /\ (stage gs', ready_to_start gs', stage_select_cursor_x gs',
        stage_select_cursor_y gs')
       = (stage gs3, ready_to_start gs3, stage_select_cursor_x gs3,
          stage_select_cursor_y gs3).
Proof.
  unfold handle_slippstream_menu_event. intros H.
  destruct (read_u16 event_bytes 1) as [scene|]; cbn [rbind] in H;
    [|discriminate H].
  exists scene.
  destruct (scene_branch scene) as [menu replaced]. cbn [fst snd].
  invert_ok H. injection H as <-.
  cbn [frame player menu_state stage ready_to_start stage_select_cursor_x
       stage_select_cursor_y].
  eexists _, _, _, _, _. repeat (split; [eassumption || reflexivity|]).
  reflexivity.
Qed.

Lemma css_block_inv (gs gs' : MenuGameState) :
  css_block M event_bytes gs = Ok gs' ->
  exists d1 d2 d3,
    each_port [(1, 0x25%nat); (2, 0x26%nat); (3, 0x27%nat); (4, 0x28%nat)]
      (status_body M event_bytes) (player gs) = Ok d1
    /\ each_port [(1, 0x3%nat); (2, 0xB%nat); (3, 0x13%nat); (4, 0x1B%nat)]
         (cursor_body event_bytes) d1 = Ok d2
    /\ each_port [(1, 0x29%nat); (2, 0x2A%nat); (3, 0x2B%nat); (4, 0x2C%nat)]
         (character_body M event_bytes) d2 = Ok d3
    /\ each_port [(1, 0x2D%nat); (2, 0x2E%nat); (3, 0x2F%nat); (4, 0x30%nat)]
         (coin_body event_bytes) d3 = Ok (player gs')
    /\ read_u8 event_bytes 0x23 = Ok (ready_to_start gs')
    /\ (frame gs', stage gs', menu_state gs') = (frame gs, stage gs,
                                                  menu_state gs).
Proof.
  unfold css_block. intros H. invert_ok H. injection H as <-.
  cbn [player ready_to_start frame stage menu_state].
  eexists _, _, _. repeat (split; [eassumption || reflexivity|]).
  reflexivity.
Qed.

Lemma stage_block_player (gs gs' : MenuGameState) :
  stage_block M event_bytes gs = Ok gs' -> player gs' = player gs.
Proof.
  unfold stage_block. intros H. invert_ok H. now injection H as <-.
Qed.

(** From the players the scene starts with to the players of the result:
    whatever the scene, the ports are kept, and so is every attribute that
    none of the passes writes. *)
Lemma handle_keeps {A : Type} (view : MenuPlayerState -> A)
    (gs gs' : MenuGameState) (scene : Z) :
  (forall v p, view (set_controller_status v p) = view p) ->
  (forall v p, view (set_cursor_x v p) = view p) ->
  (forall v p, view (set_cursor_y v p) = view p) ->
  (forall v p, view (set_character_selected v p) = view p) ->
  (forall v p, view (set_coin_down v p) = view p) ->
  (forall v p, view (set_player_costume v p) = view p) ->
  (forall v p, view (set_is_holding_cpu_slider v p) = view p) ->
  (forall v p, view (set_player_cpu_level v p) = view p) ->
  handle_slippstream_menu_event M event_bytes gs = Ok gs' ->
  read_u16 event_bytes 0x1 = Ok scene ->
  keeps view
    (if snd (scene_branch scene) then reset_ports M (player gs)
     else player gs)
    (player gs').
Proof.
  intros Hstatus Hx Hy Hcharacter Hcoin Hcostume Hholding Hlevel H Hscene.
  destruct (handle_inv _ _ H)
    as (scene' & gs2 & gs3 & d4 & d5 & d6 & Hscene' & H2 & H3 & _ & H4 & H5
        & H6 & -> & _).
  rewrite Hscene in Hscene'. injection Hscene' as <-. cbn zeta in H2.
  assert (player gs3 = player gs2) as Hplayers.
  { destruct (bool_decide (fst (scene_branch scene) = STAGE_SELECT));
      [exact (stage_block_player _ _ H3)|].
    now injection H3 as <-. }
  apply (keeps_trans _ _ (player gs3)).
  - rewrite Hplayers. destruct (at_css _); [|injection H2 as <-; apply keeps_refl].
    destruct (css_block_inv _ _ H2)
      as (d1 & d2 & d3 & Hd1 & Hd2 & Hd3 & Hd4 & _).
    cbn [player] in Hd1.
    apply (keeps_trans _ _ d1).
    { apply (each_port_keeps view _ _
               (fun port offset d d' H =>
                  status_body_keeps view port offset d d' Hstatus H)
               _ _ Hd1). }
    apply (keeps_trans _ _ d2).
    { apply (each_port_keeps view _ _
               (fun port offset d d' H =>
                  cursor_body_keeps view port offset d d' Hx Hy H)
               _ _ Hd2). }
    exact (css_tail_keeps view _ _ _ Hcharacter Hcoin Hd3 Hd4).
  - exact (menu_tail_keeps view _ _ _ _ _ Hcostume Hholding Hlevel H4 H5 H6).
Qed.

Lemma read_i32_ok_length (buffer : list byte) (offset : nat) (v : Z) :
  read_i32 buffer offset = Ok v -> (offset + 4 <= length buffer)%nat.
Proof.
  intros H.
  destruct (Nat.le_gt_cases (offset + 4) (length buffer)) as [|Hgt];
    [assumption|].
  unfold read_i32, read_u32 in H. rewrite read_be_short in H by lia.
  discriminate H.
Qed.

End MenuDecoderFacts.

Section MenuEvents.
Import MenuEvent.
Variable M : MenuExternals.
Variable event_bytes : list byte.

(** X19. After a menu event that decodes, no player whose controller
    status is not [CONTROLLER_CPU] has a CPU level: the level of every such
    player of the snapshot is 0, whatever the scene and whatever the slider
    bytes of the event. *)
Theorem menu_event_cpu_levels (gs gs' : MenuGameState) :
  handle_slippstream_menu_event M event_bytes gs = Ok gs' ->
  forall port p,
    dict_get (player gs') port = Some p ->
    controller_status p <> CONTROLLER_CPU ->
    cpu_level (in_game p) = 0.
Proof.
  intros H port p Hp Hstatus.
  destruct (handle_inv _ _ _ _ H)
    as (scene & gs2 & gs3 & d4 & d5 & d6 & _ & _ & _ & _ & _ & _ & _
        & Hplayers & _).
  rewrite Hplayers in Hp. unfold clear_cpu_level in Hp.
  set (f := fun p : MenuPlayerState =>
              if bool_decide (controller_status p = CONTROLLER_CPU)
              then p else set_player_cpu_level 0 p) in Hp.
  change (dict_get
            (map (fun item : Z * MenuPlayerState => (fst item, f (snd item)))
               d6) port = Some p) in Hp.
  rewrite dict_get_map in Hp.
  destruct (dict_get d6 port) as [p6|]; [|discriminate Hp].
  injection Hp as <-. unfold f in *.
  destruct (bool_decide_reflect (controller_status p6 = CONTROLLER_CPU));
    [contradiction | reflexivity].
Qed.

Lemma dict_keys_set_in {V : Type} (d : list (Z * V)) (k k' : Z) (v : V) :
  In k (dict_keys (dict_set d k' v)) <-> In k (dict_keys d) \/ k = k'.
Proof.
  rewrite dict_keys_set. destruct (dict_get d k') as [v'|] eqn:Hget.
  - split; [auto|]. intros [Hin | ->]; [exact Hin|].
    apply dict_get_keys. eauto.
  - rewrite in_app_iff. cbn [In]. intuition congruence.
Qed.

Lemma reset_ports_keys (d : players) (k : Z) :
  In k (dict_keys (reset_ports M d)) <-> In k (dict_keys d) \/ 1 <= k <= 4.
Proof.
  unfold reset_ports. rewrite !dict_keys_set_in. intuition lia.
Qed.

Lemma reset_ports_get (d : players) (k : Z) :
  1 <= k <= 4 -> dict_get (reset_ports M d) k = Some (new_MenuPlayerState M).
Proof.
  intros Hk. unfold reset_ports.
  assert (k = 1 \/ k = 2 \/ k = 3 \/ k = 4) as [-> | [-> | [-> | ->]]] by lia;
    rewrite ?dict_get_set_eq;
    repeat (rewrite dict_get_set_ne by lia; rewrite ?dict_get_set_eq);
    reflexivity.
Qed.

(** X20. What a menu event that decodes does to the snapshot as a whole:
    the menu state is the one of the scene at 0x1, [UNKNOWN_MENU] for a scene
    that is none of the seven known ones; the frame index is the signed word
    at 0x39, so the event has at least 0x3d bytes; and the ports of the
    snapshot are the ports it had, in their order, with ports 1 to 4 added
    on the two character-select scenes (0x02 and 0x08): no scene removes a
    player. *)
Theorem menu_event_scene (gs gs' : MenuGameState) :
  handle_slippstream_menu_event M event_bytes gs = Ok gs' ->
  exists scene,
    read_u16 event_bytes 0x1 = Ok scene
    /\ menu_state gs'
       = match scene with
         | 0x02 => CHARACTER_SELECT
         | 0x0102 | 0x0108 => STAGE_SELECT
         | 0x0202 => IN_GAME
         | 0x0001 => MAIN_MENU
         | 0x0008 => SLIPPI_ONLINE_CSS
         | 0x0000 => PRESS_START
         | _ => UNKNOWN_MENU
         end
    /\ read_i32 event_bytes 0x39 = Ok (frame gs')
    /\ (0x3d <= length event_bytes)%nat
    /\ (exists added,
          dict_keys (player gs') = dict_keys (player gs) ++ added)
    /\ (forall k,
          In k (dict_keys (player gs'))
          <-> In k (dict_keys (player gs))
              \/ ((scene = 0x02 \/ scene = 0x08) /\ 1 <= k <= 4)).
Proof.
  intros H.
  destruct (handle_inv _ _ _ _ H)
    as (scene & gs2 & gs3 & d4 & d5 & d6 & Hscene & _ & _ & Hframe & _ & _
        & _ & _ & Hmenu & _).
  pose proof (handle_keeps M event_bytes (fun _ => tt) gs gs' scene
                ltac:(reflexivity) ltac:(reflexivity) ltac:(reflexivity)
                ltac:(reflexivity) ltac:(reflexivity) ltac:(reflexivity)
                ltac:(reflexivity) ltac:(reflexivity) H Hscene)
    as [Hkeys _].
  exists scene. split; [exact Hscene|]. split; [|split; [exact Hframe|split]].
  - rewrite Hmenu. unfold scene_branch.
    destruct scene as [|p|p]; [reflexivity | | reflexivity].
    do 11 (try (destruct p as [p|p|]; try reflexivity)).
  - apply read_i32_ok_length in Hframe. lia.
  - rewrite Hkeys. split.
    + destruct (snd (scene_branch scene));
        [|exists []; now rewrite app_nil_r].
      unfold reset_ports. rewrite !dict_keys_set.
      repeat match goal with
             | |- context [match ?o with Some _ => _ | None => _ end] =>
                 destruct o
             end;
        rewrite <- ?app_assoc; eauto.
      exists []. now rewrite app_nil_r.
    + intros k.
      assert (snd (scene_branch scene) = true <-> scene = 0x02 \/ scene = 0x08)
        as Hreplaced.
      { unfold scene_branch.
        repeat match goal with
               | |- context [?a =? ?b] => destruct (Z.eqb_spec a b)
               end; cbn [orb snd]; try subst scene; split;
          try discriminate; intros; try lia; auto. }
      destruct (snd (scene_branch scene)).
      * rewrite reset_ports_keys. intuition auto.
      * intuition (auto; discriminate).
Qed.

End MenuEvents.

Section CharacterSelect.
Import MenuEvent.
Variable M : MenuExternals.
Variable event_bytes : list byte.

Lemma keeps_get {A : Type} (view : MenuPlayerState -> A) (d d' : players)
    (k : Z) (p' : MenuPlayerState) :
  keeps view d d' -> dict_get d' k = Some p' ->
  exists p, dict_get d k = Some p /\ view p' = view p.
Proof.
  intros [_ Hview] Hp'. specialize (Hview k). rewrite Hp' in Hview.
  destruct (dict_get d k) as [p|]; [|discriminate Hview].
  injection Hview as Hview. eauto.
Qed.

Lemma status_body_sets (port : Z) (offset : nat) (d d' : players) :
  status_body M event_bytes port offset d = Ok d' ->
  (exists p,
     dict_get d' port = Some p
     /\ exists v, read_u8 event_bytes offset = Ok v
                  /\ ControllerStatus_of_value M v
                     = Some (controller_status p))
  /\ forall k, k <> port -> dict_get d' k = dict_get d k.
Proof.
  unfold status_body. intros H.
  destruct (read_u8 event_bytes offset) as [v|]; cbn [rbind] in H;
    [|discriminate H].
  destruct (ControllerStatus_of_value M v) as [status|] eqn:Hstatus;
    cbn [rbind] in H; [|discriminate H].
  split; [|intros k Hk; exact (update_player_other _ _ _ _ _ H Hk)].
  destruct (update_player_at _ _ _ _ H) as (p & _ & Hp).
  eexists. split; [exact Hp|]. exists v. split; [reflexivity|].
  exact Hstatus.
Qed.

Lemma cursor_body_sets (port : Z) (offset : nat) (d d' : players) :
  cursor_body event_bytes port offset d = Ok d' ->
  (exists p,
     dict_get d' port = Some p
     /\ read_f32 event_bytes offset = Ok (cursor_x p)
     /\ read_f32 event_bytes (offset + 4) = Ok (cursor_y p))
  /\ forall k, k <> port -> dict_get d' k = dict_get d k.
Proof.
  unfold cursor_body. intros H.
  destruct (read_f32 event_bytes offset) as [cursor_x'|]; cbn [rbind] in H;
    [|discriminate H].
  destruct (update_player d port (set_cursor_x cursor_x')) as [d1|] eqn:Hd1;
    cbn [rbind] in H; [|discriminate H].
  destruct (read_f32 event_bytes (offset + 4)) as [cursor_y'|];
    cbn [rbind] in H; [|discriminate H].
  split.
  - destruct (update_player_at _ _ _ _ Hd1) as (p & _ & Hp1).
    destruct (update_player_at _ _ _ _ H) as (p1 & Hp1' & Hp).
    rewrite Hp1 in Hp1'. injection Hp1' as <-.
    eexists. split; [exact Hp|]. split; reflexivity.
  - intros k Hk. rewrite (update_player_other _ _ _ _ _ H Hk).
    exact (update_player_other _ _ _ _ _ Hd1 Hk).
Qed.

(** X21. On the two character-select scenes (0x02 and 0x08) a menu event
    that decodes rebuilds the four ports: each of the ports 1 to 4 is in
    the snapshot afterwards; its controller status is the member of
    [ControllerStatus] for the byte at 0x24 + port, its cursor is the pair
    of floats at 8 * port - 5 and 8 * port - 1, and its in-game attributes,
    costume and CPU level apart, are those of a new [PlayerState()],
    whatever the player of the port was before; the ready-to-start flag is
    the byte at 0x23. *)
Theorem css_event_ports (gs gs' : MenuGameState) (scene : Z) :
  handle_slippstream_menu_event M event_bytes gs = Ok gs' ->
  read_u16 event_bytes 0x1 = Ok scene ->
  scene = 0x02 \/ scene = 0x08 ->
  read_u8 event_bytes 0x23 = Ok (ready_to_start gs')
  /\ forall port, 1 <= port <= 4 ->
       exists p status_byte,
         dict_get (player gs') port = Some p
         /\ read_u8 event_bytes (Z.to_nat (0x24 + port)) = Ok status_byte
         /\ ControllerStatus_of_value M status_byte
            = Some (controller_status p)
         /\ read_f32 event_bytes (Z.to_nat (8 * port - 5)) = Ok (cursor_x p)
         /\ read_f32 event_bytes (Z.to_nat (8 * port - 1)) = Ok (cursor_y p)
         /\ without_costume_and_level (in_game p)
            = without_costume_and_level (in_game (new_MenuPlayerState M)).
Proof.
  intros H Hscene Hcss.
  pose proof (handle_keeps M event_bytes
                (fun p => without_costume_and_level (in_game p)) gs gs' scene
                ltac:(reflexivity) ltac:(reflexivity) ltac:(reflexivity)
                ltac:(reflexivity) ltac:(reflexivity) ltac:(reflexivity)
                ltac:(reflexivity) ltac:(reflexivity) H Hscene) as Hgame.
  destruct (handle_inv _ _ _ _ H)
    as (scene' & gs2 & gs3 & d4 & d5 & d6 & Hscene' & H2 & H3 & _ & H4 & H5
        & H6 & Hplayers & _ & Hrest).
  rewrite Hscene in Hscene'. injection Hscene' as <-. cbn zeta in H2.
  assert (at_css (fst (scene_branch scene)) = true
          /\ snd (scene_branch scene) = true
          /\ bool_decide (fst (scene_branch scene) = STAGE_SELECT) = false)
    as (Hat & Hreplaced & Hstage)
    by (destruct Hcss as [-> | ->]; repeat split; reflexivity).
  rewrite Hat in H2. rewrite Hstage in H3. injection H3 as <-.
  rewrite Hreplaced in Hgame.
  destruct (css_block_inv _ _ _ _ H2)
    as (d1 & d2 & d3 & Hd1 & Hd2 & Hd3 & Hd4 & Hready & _).
  split; [injection Hrest as _ -> _ _; exact Hready|].
  assert (keeps controller_status d1 (player gs')) as Hstatus.
  { rewrite Hplayers.
    apply (keeps_trans _ _ d2);
      [apply (each_port_keeps _ _ _
                (fun port offset d d' H =>
                   cursor_body_keeps event_bytes controller_status port
                     offset d d' ltac:(reflexivity) ltac:(reflexivity) H)
                _ _ Hd2)|].
    apply (keeps_trans _ _ (player gs2));
      [exact (css_tail_keeps M event_bytes controller_status _ _ _
                ltac:(reflexivity) ltac:(reflexivity) Hd3 Hd4)|].
    exact (menu_tail_keeps event_bytes controller_status _ _ _ _ _
             ltac:(reflexivity) ltac:(reflexivity) ltac:(reflexivity)
             H4 H5 H6). }
  assert (keeps (fun p => (cursor_x p, cursor_y p)) d2 (player gs'))
    as Hcursor.
  { rewrite Hplayers.
    apply (keeps_trans _ _ (player gs2));
      [exact (css_tail_keeps M event_bytes
                (fun p => (cursor_x p, cursor_y p)) _ _ _
                ltac:(reflexivity) ltac:(reflexivity) Hd3 Hd4)|].
    exact (menu_tail_keeps event_bytes
             (fun p => (cursor_x p, cursor_y p)) _ _ _ _ _
             ltac:(reflexivity) ltac:(reflexivity) ltac:(reflexivity)
             H4 H5 H6). }
  assert (List.NoDup [1; 2; 3; 4]) as Hports
    by (repeat constructor; cbn [In]; lia).
  intros port Hport.
  assert (In (port, Z.to_nat (0x24 + port))
            [(1, 0x25%nat); (2, 0x26%nat); (3, 0x27%nat); (4, 0x28%nat)]
          /\ In (port, Z.to_nat (8 * port - 5))
               [(1, 0x3%nat); (2, 0xB%nat); (3, 0x13%nat); (4, 0x1B%nat)]
          /\ (Z.to_nat (8 * port - 5) + 4 = Z.to_nat (8 * port - 1))%nat)
    as (Hin1 & Hin2 & Hoffset).
  { assert (port = 1 \/ port = 2 \/ port = 3 \/ port = 4)
      as [-> | [-> | [-> | ->]]] by lia; cbn; auto 10. }
  destruct (each_port_sets (status_body M event_bytes)
              [(1, 0x25%nat); (2, 0x26%nat); (3, 0x27%nat); (4, 0x28%nat)]
              (fun offset p =>
                 exists v, read_u8 event_bytes offset = Ok v
                           /\ ControllerStatus_of_value M v
                              = Some (controller_status p))
              (status_body_sets) Hports _ _ Hd1 _ _ Hin1)
    as (p1 & Hp1 & v & Hv & Hvalue).
  destruct (each_port_sets (cursor_body event_bytes)
              [(1, 0x3%nat); (2, 0xB%nat); (3, 0x13%nat); (4, 0x1B%nat)]
              (fun offset p =>
                 read_f32 event_bytes offset = Ok (cursor_x p)
                 /\ read_f32 event_bytes (offset + 4) = Ok (cursor_y p))
              (cursor_body_sets) Hports _ _ Hd2 _ _ Hin2)
    as (p2 & Hp2 & Hx & Hy).
  rewrite Hoffset in Hy.
  destruct Hgame as [_ Hgame]. specialize (Hgame port).
  rewrite (reset_ports_get M _ _ Hport) in Hgame.
  destruct (dict_get (player gs') port) as [p|] eqn:Hp;
    [|discriminate Hgame].
  cbn [fmap option_fmap option_map] in Hgame. apply (inj Some) in Hgame.
  destruct (keeps_get _ _ _ _ _ Hstatus Hp) as (q1 & Hq1 & Heq1).
  destruct (keeps_get _ _ _ _ _ Hcursor Hp) as (q2 & Hq2 & Heq2).
  rewrite Hp1 in Hq1. injection Hq1 as <-.
  rewrite Hp2 in Hq2. injection Hq2 as <-.
  injection Heq2 as Hx2 Hy2.
  exists p, v. split; [reflexivity|]. split; [exact Hv|].
  split; [now rewrite Heq1|]. split; [now rewrite Hx2|].
  split; [now rewrite Hy2 | exact Hgame].
Qed.

End CharacterSelect.

(** A character-select event on an empty snapshot: port 2 is a CPU with
    the cursor at (-20, -1.5), and not holding the slider its level is 1;
    port 1 is no CPU and its level is 0. *)
Lemma css_event_ports_witness :
  exists gs' p1 p2,
    MenuEvent.handle_slippstream_menu_event sample_menu (menu_record 2 x00)
      sample_MenuGameState
    = Ok gs'
    /\ dict_get (MenuEvent.player gs') 1 = Some p1
    /\ dict_get (MenuEvent.player gs') 2 = Some p2
    /\ MenuEvent.controller_status p2 = CONTROLLER_CPU
    /\ MenuEvent.cursor_x p2 = (-20)%float
    /\ cpu_level (MenuEvent.in_game p2) = 1
    /\ cpu_level (MenuEvent.in_game p1) = 0.
Proof.
  destruct (MenuEvent.handle_slippstream_menu_event sample_menu
              (menu_record 2 x00) sample_MenuGameState)
    as [gs'|] eqn:Hrun; [|vm_compute in Hrun; discriminate Hrun].
  destruct (css_event_ports sample_menu (menu_record 2 x00)
              sample_MenuGameState gs' 2 Hrun)
    as [_ Hports]; [vm_compute; reflexivity | left; reflexivity |].
  destruct (Hports 1) as (p1 & v1 & Hp1 & _); [lia|].
  destruct (Hports 2) as (p2 & v2 & Hp2 & _); [lia|].
  exists gs', p1, p2. split; [reflexivity|].
  split; [exact Hp1|]. split; [exact Hp2|].
  symmetry in Hrun. vm_compute in Hrun. injection Hrun as ->.
  vm_compute in Hp1. injection Hp1 as <-.
  vm_compute in Hp2. injection Hp2 as <-.
  repeat split; vm_compute; reflexivity.
Defined.

(** The level of port 1, no CPU, after the event above. *)
Lemma menu_event_cpu_levels_witness :
  exists gs' p,
    MenuEvent.handle_slippstream_menu_event sample_menu (menu_record 2 x00)
      sample_MenuGameState
    = Ok gs'
    /\ dict_get (MenuEvent.player gs') 1 = Some p
    /\ cpu_level (MenuEvent.in_game p) = 0.
Proof.
  destruct (MenuEvent.handle_slippstream_menu_event sample_menu
              (menu_record 2 x00) sample_MenuGameState)
    as [gs'|] eqn:Hrun; [|vm_compute in Hrun; discriminate Hrun].
  destruct (dict_get (MenuEvent.player gs') 1) as [p|] eqn:Hp.
  - exists gs', p. split; [reflexivity|]. split; [exact Hp|].
    apply (menu_event_cpu_levels sample_menu (menu_record 2 x00)
             sample_MenuGameState gs' Hrun 1 p Hp).
    symmetry in Hrun. vm_compute in Hrun. injection Hrun as ->.
    vm_compute in Hp. injection Hp as <-. discriminate.
  - symmetry in Hrun. vm_compute in Hrun. injection Hrun as ->.
    vm_compute in Hp. discriminate Hp.
Defined.

(** A stage-select event: the menu state, the frame index, and no player
    added. *)
Lemma menu_event_scene_witness :
  exists gs',
    MenuEvent.handle_slippstream_menu_event sample_menu
      (menu_record 0x0102 x00) sample_MenuGameState
    = Ok gs'
    /\ MenuEvent.menu_state gs' = STAGE_SELECT
    /\ MenuEvent.frame gs' = 77
    /\ MenuEvent.player gs' = [].
Proof.
  destruct (MenuEvent.handle_slippstream_menu_event sample_menu
              (menu_record 0x0102 x00) sample_MenuGameState)
    as [gs'|] eqn:Hrun; [|vm_compute in Hrun; discriminate Hrun].
  destruct (menu_event_scene sample_menu (menu_record 0x0102 x00)
              sample_MenuGameState gs' Hrun)
    as (scene & Hscene & Hmenu & Hframe & _ & _ & Hkeys).
  vm_compute in Hscene. injection Hscene as <-.
  assert (read_i32 (menu_record 0x0102 x00) 0x39 = Ok 77) as Hword
    by (vm_compute; reflexivity).
  rewrite Hword in Hframe. injection Hframe as Hframe.
  exists gs'. split; [reflexivity|]. split; [exact Hmenu|].
  split; [now rewrite <- Hframe|].
  destruct (MenuEvent.player gs') as [|[k p] rest]; [reflexivity|].
  destruct (proj1 (Hkeys k)) as [[] | [[Hscene | Hscene] _]];
    [left; reflexivity | discriminate Hscene | discriminate Hscene].
Defined.

Section CpuLevel.
Import MenuEvent.
Variable M : MenuExternals.
Variable event_bytes : list byte.

Lemma loop_ports_other (body : Z -> players -> result players) (n : nat) :
  (forall i d d', body i d = Ok d' ->
                  forall k, k <> i + 1 -> dict_get d' k = dict_get d k) ->
  forall i d k,
    k < i + 1 \/ i + Z.of_nat n < k ->
    dict_get (fst (loop_ports n i body d)) k = dict_get d k.
Proof.
  intros Hbody. induction n as [|n IH]; intros i d k Hk; cbn [loop_ports];
    [reflexivity|].
  destruct (body i d) as [d1|] eqn:Hd1; [|reflexivity].
  rewrite IH by lia. apply (Hbody _ _ _ Hd1). lia.
Qed.

(** What a loop that runs to its end leaves at each of its ports. *)
Lemma loop_ports_sets (body : Z -> players -> result players) (n : nat)
    (written : Z -> MenuPlayerState -> Prop) :
  (forall i d d',
     body i d = Ok d' ->
     (exists p, dict_get d' (i + 1) = Some p /\ written i p)
     /\ forall k, k <> i + 1 -> dict_get d' k = dict_get d k) ->
  forall i d d',
    loop_ports n i body d = (d', None) ->
    forall j, i <= j < i + Z.of_nat n ->
              exists p, dict_get d' (j + 1) = Some p /\ written j p.
Proof.
  intros Hbody. induction n as [|n IH]; intros i d d' H j Hj; [lia|].
  cbn [loop_ports] in H.
  destruct (body i d) as [d1|] eqn:Hd1; [|discriminate H].
  destruct (Z.eq_dec j i) as [-> | Hne]; [|apply (IH _ _ _ H); lia].
  destruct (Hbody _ _ _ Hd1) as [(p & Hp & Hwritten) _].
  exists p. split; [|exact Hwritten]. rewrite <- Hp.
  replace d' with (fst (loop_ports n (i + 1) body d1)) by now rewrite H.
  apply loop_ports_other; [|lia].
  intros i0 d0 d0' H0. now apply (Hbody _ _ _ H0).
Qed.

(** A loop none of whose passes can raise what the handler takes runs to its
    end. *)
Lemma passing_completes (handled : exn -> bool)
    (body : Z -> players -> result players) (n : nat) :
  (forall i d d', body i d = Ok d' -> dict_keys d' = dict_keys d) ->
  forall i d d',
    passing handled (loop_ports n i body d) = Ok d' ->
    (forall j dj e, i <= j < i + Z.of_nat n -> dict_keys dj = dict_keys d ->
                    body j dj = Raise e -> handled e = false) ->
    loop_ports n i body d = (d', None).
Proof.
  intros Hkeys. induction n as [|n IH]; intros i d d' H Hraise;
    cbn [loop_ports] in *.
  - cbn [passing] in H. now injection H as <-.
  - destruct (body i d) as [d1|e] eqn:Hd1.
    + apply IH; [exact H|]. intros j dj e Hj Hdj.
      apply Hraise; [lia|]. rewrite Hdj. exact (Hkeys _ _ _ Hd1).
    + cbn [passing] in H.
      rewrite (Hraise i d e ltac:(lia) eq_refl Hd1) in H. discriminate H.
Qed.

Lemma slider_body_sets (i : Z) (d d' : players) :
  slider_body event_bytes i d = Ok d' ->
  (exists p,
     dict_get d' (i + 1) = Some p
     /\ if PrimFloat.ltb (cursor_y p) 0
        then exists v, read_u8 event_bytes (45 + Z.to_nat i) = Ok v
                       /\ is_holding_cpu_slider p = HOLDING_BYTE v
        else is_holding_cpu_slider p = HOLDING_FLAG false)
  /\ forall k, k <> i + 1 -> dict_get d' k = dict_get d k.
Proof.
  unfold slider_body. intros H.
  destruct (dict_get d (i + 1)) as [p|] eqn:Hp; cbn [rbind] in H;
    [|discriminate H].
  destruct (PrimFloat.ltb (cursor_y p) 0) eqn:Hy.
  - destruct (read_u8 event_bytes (45 + Z.to_nat i)) as [v|] eqn:Hv;
      cbn [rbind] in H; [|discriminate H].
    split; [|intros k Hk; exact (update_player_other _ _ _ _ _ H Hk)].
    destruct (update_player_at _ _ _ _ H) as (p0 & Hp0 & Hp').
    rewrite Hp in Hp0. injection Hp0 as <-.
    eexists. split; [exact Hp'|]. cbn [cursor_y set_is_holding_cpu_slider].
    rewrite Hy. eauto.
  - cbn [rbind] in H.
    split; [|intros k Hk; exact (update_player_other _ _ _ _ _ H Hk)].
    destruct (update_player_at _ _ _ _ H) as (p0 & Hp0 & Hp').
    rewrite Hp in Hp0. injection Hp0 as <-.
    eexists. split; [exact Hp'|]. cbn [cursor_y set_is_holding_cpu_slider].
    now rewrite Hy.
Qed.

Lemma slider_body_raises (i : Z) (d : players) (e : exn) :
  slider_body event_bytes i d = Raise e ->
  dict_get d (i + 1) = None
  \/ (length event_bytes <= 45 + Z.to_nat i)%nat.
Proof.
  unfold slider_body. intros H.
  destruct (dict_get d (i + 1)) as [p|] eqn:Hp; [|now left].
  right. cbn [rbind] in H.
  destruct (Nat.le_gt_cases (length event_bytes) (45 + Z.to_nat i))
    as [|Hgt]; [assumption|].
  destruct (read_u8_in_range event_bytes (45 + Z.to_nat i) Hgt) as [v Hv].
  rewrite Hv in H. unfold update_player in H. rewrite Hp in H.
  destruct (PrimFloat.ltb (cursor_y p) 0); discriminate H.
Qed.

Lemma level_body_sets (i : Z) (d d' : players) :
  level_body i d = Ok d' ->
  (exists p,
     dict_get d' (i + 1) = Some p
     /\ if truthy (is_holding_cpu_slider p)
        then int_of_float ((cursor_x p - start_x i) / 1.2)%float
             = Ok (cpu_level (in_game p) - 1)
        else cpu_level (in_game p) = 1)
  /\ forall k, k <> i + 1 -> dict_get d' k = dict_get d k.
Proof.
  unfold level_body. intros H.
  destruct (dict_get d (i + 1)) as [p|] eqn:Hp; cbn [rbind] in H;
    [|discriminate H].
  destruct (truthy (is_holding_cpu_slider p)) eqn:Hholding.
  - destruct (int_of_float ((cursor_x p - start_x i) / 1.2)%float)
      as [steps|] eqn:Hsteps; cbn [rbind] in H; [|discriminate H].
    split; [|intros k Hk; exact (update_player_other _ _ _ _ _ H Hk)].
    destruct (update_player_at _ _ _ _ H) as (p0 & Hp0 & Hp').
    rewrite Hp in Hp0. injection Hp0 as <-.
    eexists. split; [exact Hp'|].
    cbn [is_holding_cpu_slider set_player_cpu_level set_in_game cursor_x
         in_game cpu_level set_cpu_level].
    rewrite Hholding, Hsteps. f_equal. lia.
  - split; [|intros k Hk; exact (update_player_other _ _ _ _ _ H Hk)].
    destruct (update_player_at _ _ _ _ H) as (p0 & Hp0 & Hp').
    rewrite Hp in Hp0. injection Hp0 as <-.
    eexists. split; [exact Hp'|].
    cbn [is_holding_cpu_slider set_player_cpu_level set_in_game cursor_x
         in_game cpu_level set_cpu_level].
    now rewrite Hholding.
Qed.

Lemma level_body_raises (i : Z) (d : players) (e : exn) :
  level_body i d = Raise e ->
  is_TypeError_or_KeyError e = true -> dict_get d (i + 1) = None.
Proof.
  unfold level_body. intros H Hhandled.
  destruct (dict_get d (i + 1)) as [p|] eqn:Hp; [|reflexivity].
  cbn [rbind] in H. unfold update_player in H. rewrite Hp in H.
  destruct (truthy (is_holding_cpu_slider p)); [|discriminate H].
  destruct (int_of_float ((cursor_x p - start_x i) / 1.2)%float)
    as [steps|e'] eqn:Hsteps; cbn [rbind] in H; [discriminate H|].
  injection H as <-.
  destruct (int_of_float_raises _ _ Hsteps) as [-> | ->];
    discriminate Hhandled.
Qed.

(** X22. The CPU levels of a character-select event (scenes 0x02 and
    0x08) that decodes, port by port: the slider counts as held when the
    cursor is above it (vertical position below 0) and the byte at
    44 + port is not 0; a port that is no CPU has level 0; a CPU port whose
    slider is not held has level 1; a CPU port whose slider is held has
    level 1 + int((cursor_x - start_x) / 1.2), where [start_x] is
    -30.9 + 15.4 * (port - 1). *)
Theorem css_event_cpu_levels (gs gs' : MenuGameState) (scene : Z) :
  handle_slippstream_menu_event M event_bytes gs = Ok gs' ->
  read_u16 event_bytes 0x1 = Ok scene ->
  scene = 0x02 \/ scene = 0x08 ->
  forall port, 1 <= port <= 4 ->
    exists p slider_byte,
      dict_get (player gs') port = Some p
      /\ read_u8 event_bytes (Z.to_nat (44 + port)) = Ok slider_byte
      /\ is_holding_cpu_slider p
         = (if PrimFloat.ltb (cursor_y p) 0 then HOLDING_BYTE slider_byte
            else HOLDING_FLAG false)
      /\ (controller_status p <> CONTROLLER_CPU ->
          cpu_level (in_game p) = 0)
      /\ (controller_status p = CONTROLLER_CPU ->
          if PrimFloat.ltb (cursor_y p) 0 && negb (slider_byte =? 0)
          then int_of_float
                 ((cursor_x p - start_x (port - 1)) / 1.2)%float
               = Ok (cpu_level (in_game p) - 1)
          else cpu_level (in_game p) = 1).
Proof.
  intros H Hscene Hcss port Hport.
  pose proof (handle_keeps M event_bytes (fun _ => tt) gs gs' scene
                ltac:(reflexivity) ltac:(reflexivity) ltac:(reflexivity)
                ltac:(reflexivity) ltac:(reflexivity) ltac:(reflexivity)
                ltac:(reflexivity) ltac:(reflexivity) H Hscene)
    as [Hkeys _].
  destruct (handle_inv _ _ _ _ H)
    as (scene' & gs2 & gs3 & d4 & d5 & d6 & Hscene' & _ & _ & Hframe & _
        & H5 & H6 & Hplayers & _).
  rewrite Hscene in Hscene'. injection Hscene' as <-.
  apply read_i32_ok_length in Hframe.
  assert (snd (scene_branch scene) = true) as Hreplaced
    by (destruct Hcss as [-> | ->]; reflexivity).
  rewrite Hreplaced in Hkeys.
  (* the ports 1 to 4 are there from the slider loop on *)
  pose proof (clear_cpu_level_keeps (fun _ => tt) d6 ltac:(reflexivity))
    as [Hkeys6 _].
  rewrite Hplayers, Hkeys6 in Hkeys.
  pose proof (passing_keeps (fun _ => tt) _ _ d5 _
                (loop_ports_keeps (fun _ => tt) _ 4
                   (fun i d d' H =>
                      level_body_keeps (fun _ => tt) i d d'
                        ltac:(reflexivity) H) 0 d5) H6) as [Hkeys5 _].
  pose proof (passing_keeps (fun _ => tt) _ _ d4 _
                (loop_ports_keeps (fun _ => tt) _ 4
                   (fun i d d' H =>
                      slider_body_keeps event_bytes (fun _ => tt) i d d'
                        ltac:(reflexivity) H) 0 d4) H5) as [Hkeys4 _].
  assert (forall (d : players) (j : Z),
            dict_keys d = dict_keys d6 -> 0 <= j < 4 ->
            dict_get d (j + 1) <> None) as Hthere.
  { intros d j Hd Hj Hnone.
    assert (is_Some (dict_get d (j + 1))) as [p Hp]; [|congruence].
    apply dict_get_keys. rewrite Hd, Hkeys. apply reset_ports_keys. lia. }
  (* both loops run to their end *)
  assert (loop_ports 4 0 (slider_body event_bytes) d4 = (d5, None))
    as Hslider.
  { apply (passing_completes is_TypeError_or_KeyError); [|exact H5|].
    - intros i d d' Hbody.
      exact (proj1 (slider_body_keeps event_bytes (fun _ => tt) i d d'
                      ltac:(reflexivity) Hbody)).
    - intros j dj e Hj Hdj Hraise. exfalso.
      destruct (slider_body_raises _ _ _ Hraise) as [Hnone | Hshort].
      + apply (Hthere dj j); [congruence | lia | exact Hnone].
      + lia. }
  assert (loop_ports 4 0 level_body d5 = (d6, None)) as Hlevel.
  { apply (passing_completes is_TypeError_or_KeyError); [|exact H6|].
    - intros i d d' Hbody.
      exact (proj1 (level_body_keeps (fun _ => tt) i d d'
                      ltac:(reflexivity) Hbody)).
    - intros j dj e Hj Hdj Hraise.
      destruct (is_TypeError_or_KeyError e) eqn:Hhandled; [|reflexivity].
      exfalso. apply (Hthere dj j); [congruence | lia|].
      exact (level_body_raises _ _ _ Hraise Hhandled). }
  destruct (loop_ports_sets _ 4 _ slider_body_sets _ _ _ Hslider (port - 1))
    as (p5 & Hp5 & Hholding); [lia|].
  destruct (loop_ports_sets _ 4 _ level_body_sets _ _ _ Hlevel (port - 1))
    as (p6 & Hp6 & Hwritten); [lia|].
  replace (port - 1 + 1) with port in Hp5, Hp6 by lia.
  replace (45 + Z.to_nat (port - 1))%nat with (Z.to_nat (44 + port))
    in Hholding by lia.
  (* the level loop keeps the cursor and the slider flag *)
  pose proof (passing_keeps
                (fun p => (cursor_y p, is_holding_cpu_slider p)) _ _ d5 _
                (loop_ports_keeps _ _ 4
                   (fun i d d' H =>
                      level_body_keeps
                        (fun p => (cursor_y p, is_holding_cpu_slider p))
                        i d d' ltac:(reflexivity) H) 0 d5) H6) as Hsame.
  destruct (keeps_get _ _ _ _ _ Hsame Hp6) as (q & Hq & Hview).
  rewrite Hp5 in Hq. injection Hq as <-. injection Hview as Hy Hflag.
  rewrite <- Hy, <- Hflag in Hholding.
  assert (exists slider_byte,
            read_u8 event_bytes (Z.to_nat (44 + port)) = Ok slider_byte
            /\ is_holding_cpu_slider p6
               = (if PrimFloat.ltb (cursor_y p6) 0
                  then HOLDING_BYTE slider_byte else HOLDING_FLAG false))
    as (slider_byte & Hbyte & Hvalue).
  { destruct (PrimFloat.ltb (cursor_y p6) 0); [exact Hholding|].
    destruct (read_u8_in_range event_bytes (Z.to_nat (44 + port)))
      as [v Hv]; [lia | eauto]. }
  assert (truthy (is_holding_cpu_slider p6)
          = PrimFloat.ltb (cursor_y p6) 0 && negb (slider_byte =? 0))
    as Htruthy.
  { rewrite Hvalue. now destruct (PrimFloat.ltb (cursor_y p6) 0). }
  rewrite Htruthy in Hwritten.
  (* the last loop *)
  rewrite Hplayers. unfold clear_cpu_level.
  set (f := fun p : MenuPlayerState =>
              if bool_decide (controller_status p = CONTROLLER_CPU)
              then p else set_player_cpu_level 0 p).
  change (exists p slider_byte0,
            dict_get
              (map (fun item : Z * MenuPlayerState =>
                      (fst item, f (snd item))) d6) port = Some p
            /\ read_u8 event_bytes (Z.to_nat (44 + port)) = Ok slider_byte0
            /\ is_holding_cpu_slider p
               = (if PrimFloat.ltb (cursor_y p) 0
                  then HOLDING_BYTE slider_byte0 else HOLDING_FLAG false)
            /\ (controller_status p <> CONTROLLER_CPU ->
                cpu_level (in_game p) = 0)
            /\ (controller_status p = CONTROLLER_CPU ->
                if PrimFloat.ltb (cursor_y p) 0 && negb (slider_byte0 =? 0)
                then int_of_float
                       ((cursor_x p - start_x (port - 1)) / 1.2)%float
                     = Ok (cpu_level (in_game p) - 1)
                else cpu_level (in_game p) = 1)).
  rewrite dict_get_map, Hp6. cbn [fmap option_fmap option_map].
  exists (f p6), slider_byte. split; [reflexivity|]. unfold f.
  destruct (bool_decide_reflect (controller_status p6 = CONTROLLER_CPU))
    as [Hcpu | Hcpu].
  - split; [exact Hbyte|]. split; [exact Hvalue|].
    split; [contradiction | intros _; exact Hwritten].
  - split; [exact Hbyte|]. split; [exact Hvalue|].
    split; [reflexivity | intros Hcpu'; contradiction].
Qed.

End CpuLevel.

(** Port 2, a CPU, with the cursor at (-20, -1.5) and the slider byte 1:
    the level is 1 + int((-20 - (-15.5)) / 1.2) = 1 + int(-3.75) = -2. The
    decoder does not clamp the level. *)
Lemma css_event_cpu_levels_witness :
  exists gs' p,
    MenuEvent.handle_slippstream_menu_event sample_menu (menu_record 2 x01)
      sample_MenuGameState
    = Ok gs'
    /\ dict_get (MenuEvent.player gs') 2 = Some p
    /\ MenuEvent.is_holding_cpu_slider p = HOLDING_BYTE 1
    /\ cpu_level (MenuEvent.in_game p) = -2.
Proof.
  destruct (MenuEvent.handle_slippstream_menu_event sample_menu
              (menu_record 2 x01) sample_MenuGameState)
    as [gs'|] eqn:Hrun; [|vm_compute in Hrun; discriminate Hrun].
  destruct (css_event_cpu_levels sample_menu (menu_record 2 x01)
              sample_MenuGameState gs' 2 Hrun) with (port := 2)
    as (p & slider_byte & Hp & _);
    [vm_compute; reflexivity | left; reflexivity | lia |].
  exists gs', p. split; [reflexivity|]. split; [exact Hp|].
  symmetry in Hrun. vm_compute in Hrun. injection Hrun as ->.
  vm_compute in Hp. injection Hp as <-.
  split; vm_compute; reflexivity.
Defined.

Section OnlineCostume.
Import MenuEvent.
Variable M : MenuExternals.
Variable event_bytes : list byte.

Lemma costume_body_sets (v : Z) (i : Z) (d d' : players) :
  read_u8 event_bytes 0x3F = Ok v ->
  costume_body event_bytes i d = Ok d' ->
  (exists p, dict_get d' (i + 1) = Some p /\ costume (in_game p) = v)
  /\ forall k, k <> i + 1 -> dict_get d' k = dict_get d k.
Proof.
  unfold costume_body. intros Hv H. rewrite Hv in H. cbn [rbind] in H.
  split; [|intros k Hk; exact (update_player_other _ _ _ _ _ H Hk)].
  destruct (update_player_at _ _ _ _ H) as (p & _ & Hp).
  eexists. split; [exact Hp | reflexivity].
Qed.

(** The two loops on the slider and the last loop. *)
Lemma levels_tail_keeps {A : Type} (view : MenuPlayerState -> A)
    (d4 d5 d6 : players) :
  (forall v p, view (set_is_holding_cpu_slider v p) = view p) ->
  (forall v p, view (set_player_cpu_level v p) = view p) ->
  passing is_TypeError_or_KeyError
    (loop_ports 4 0 (slider_body event_bytes) d4) = Ok d5 ->
  passing is_TypeError_or_KeyError (loop_ports 4 0 level_body d5) = Ok d6 ->
  keeps view d4 (clear_cpu_level d6).
Proof.
  intros Hholding Hlevel H5 H6.
  apply (keeps_trans _ _ d5).
  { apply (passing_keeps view _ _ _ _ (loop_ports_keeps view _ 4
             (fun i d d' H =>
                slider_body_keeps event_bytes view i d d' Hholding H) 0 d4)
             H5). }
  apply (keeps_trans _ _ d6).
  { apply (passing_keeps view _ _ _ _ (loop_ports_keeps view _ 4
             (fun i d d' H => level_body_keeps view i d d' Hlevel H) 0 d5)
             H6). }
  apply clear_cpu_level_keeps, Hlevel.
Qed.

(** X23. The costume after a character-select event that decodes. On the
    local screen (scene 0x02) the decoder does not write it: the four ports
    have the costume of a new [PlayerState()]. On the online screen (scene
    0x08) all four ports get one and the same costume, the byte at 0x3f, and
    keep the costume of a new [PlayerState()] when the event is too short to
    have that byte. *)
Theorem css_event_costume (gs gs' : MenuGameState) (scene : Z) :
  handle_slippstream_menu_event M event_bytes gs = Ok gs' ->
  read_u16 event_bytes 0x1 = Ok scene ->
  scene = 0x02 \/ scene = 0x08 ->
  forall port, 1 <= port <= 4 ->
    exists p,
      dict_get (player gs') port = Some p
      /\ costume (in_game p)
         = (if scene =? 0x08
            then read_u8_or event_bytes 0x3F
                   (costume (in_game (new_MenuPlayerState M)))
            else costume (in_game (new_MenuPlayerState M))).
Proof.
  intros H Hscene Hcss port Hport.
  destruct (handle_inv _ _ _ _ H)
    as (scene' & gs2 & gs3 & d4 & d5 & d6 & Hscene' & H2 & H3 & _ & H4 & H5
        & H6 & Hplayers & _).
  rewrite Hscene in Hscene'. injection Hscene' as <-. cbn zeta in H2.
  assert (at_css (fst (scene_branch scene)) = true
          /\ snd (scene_branch scene) = true
          /\ bool_decide (fst (scene_branch scene) = STAGE_SELECT) = false
          /\ bool_decide (fst (scene_branch scene) = SLIPPI_ONLINE_CSS)
             = (scene =? 0x08))
    as (Hat & Hreplaced & Hstage & Honline)
    by (destruct Hcss as [-> | ->]; repeat split; reflexivity).
  rewrite Hat, Hreplaced in H2. rewrite Hstage in H3. injection H3 as <-.
  rewrite Honline in H4.
  destruct (css_block_inv _ _ _ _ H2)
    as (d1 & d2 & d3 & Hd1 & Hd2 & Hd3 & Hd4 & _).
  cbn [player] in Hd1.
  set (view := fun p : MenuPlayerState => costume (in_game p)).
  (* up to the costume loop the costume is the one of a new player *)
  assert (keeps view (reset_ports M (player gs)) (player gs2)) as Hbefore.
  { apply (keeps_trans _ _ d1);
      [apply (each_port_keeps view _ _
                (fun port offset d d' H =>
                   status_body_keeps M event_bytes view port offset d d'
                     ltac:(reflexivity) H) _ _ Hd1)|].
    apply (keeps_trans _ _ d2);
      [apply (each_port_keeps view _ _
                (fun port offset d d' H =>
                   cursor_body_keeps event_bytes view port offset d d'
                     ltac:(reflexivity) ltac:(reflexivity) H) _ _ Hd2)|].
    exact (css_tail_keeps M event_bytes view _ _ _
             ltac:(reflexivity) ltac:(reflexivity) Hd3 Hd4). }
  (* after it the costume is kept *)
  assert (keeps view d4 (player gs')) as Hafter.
  { rewrite Hplayers.
    exact (levels_tail_keeps view _ _ _
             ltac:(reflexivity) ltac:(reflexivity) H5 H6). }
  assert (exists p4,
            dict_get d4 port = Some p4
            /\ view p4
               = (if scene =? 0x08
                  then read_u8_or event_bytes 0x3F
                         (costume (in_game (new_MenuPlayerState M)))
                  else costume (in_game (new_MenuPlayerState M))))
    as (p4 & Hp4 & Hcostume).
  { assert (exists p2, dict_get (player gs2) port = Some p2
                       /\ view p2
                          = costume (in_game (new_MenuPlayerState M)))
      as (p2 & Hp2 & Hnew).
    { destruct Hbefore as [_ Hview]. specialize (Hview port).
      rewrite (reset_ports_get M _ _ Hport) in Hview.
      destruct (dict_get (player gs2) port) as [p2|];
        [|discriminate Hview].
      injection Hview as Hview. eauto. }
    destruct (scene =? 0x08); [|injection H4 as <-; eauto].
    unfold read_u8_or.
    destruct (read_u8 event_bytes 0x3F) as [v|e] eqn:Hv.
    - assert (loop_ports 4 0 (costume_body event_bytes) (player gs2)
              = (d4, None)) as Hloop.
      { apply (passing_completes is_TypeError); [|exact H4|].
        - intros i d d' Hbody.
          exact (proj1 (costume_body_keeps event_bytes (fun _ => tt) i d d'
                          ltac:(reflexivity) Hbody)).
        - intros j dj e _ _ Hraise. unfold costume_body in Hraise.
          rewrite Hv in Hraise. cbn [rbind] in Hraise.
          unfold update_player in Hraise.
          destruct (dict_get dj (j + 1)); [discriminate Hraise|].
          now injection Hraise as <-. }
      destruct (loop_ports_sets _ 4 (fun _ p => costume (in_game p) = v)
                  (fun i d d' => costume_body_sets v i d d' Hv)
                  _ _ _ Hloop (port - 1))
        as (p4 & Hp4 & Hcostume); [lia|].
      replace (port - 1 + 1) with port in Hp4 by lia. eauto.
    - cbn [loop_ports] in H4. unfold costume_body at 1 in H4.
      rewrite Hv in H4. cbn [rbind passing] in H4.
      assert (e = TypeError) as ->.
      { unfold read_u8 in Hv. destruct (event_bytes !! 63%nat);
          [discriminate Hv | now injection Hv as <-]. }
      cbn [is_TypeError] in H4. injection H4 as <-. eauto. }
  destruct Hafter as [_ Hview]. specialize (Hview port).
  rewrite Hp4 in Hview.
  destruct (dict_get (player gs') port) as [p|]; [|discriminate Hview].
  injection Hview as Hview. exists p. split; [reflexivity|].
  unfold view in *. congruence.
Qed.

End OnlineCostume.

(** An online character-select event whose byte at 0x3f is 5. *)
Lemma css_event_costume_witness :
  exists gs' p,
    MenuEvent.handle_slippstream_menu_event sample_menu
      (record 0x41 [(1, be16 8); (0x25, [x00; x01; x03; x03]);
                    (0x3F, [x05])]%nat)
      sample_MenuGameState
    = Ok gs'
    /\ dict_get (MenuEvent.player gs') 3 = Some p
    /\ costume (MenuEvent.in_game p) = 5.
Proof.
  destruct (MenuEvent.handle_slippstream_menu_event sample_menu
              (record 0x41 [(1, be16 8); (0x25, [x00; x01; x03; x03]);
                            (0x3F, [x05])]%nat)
              sample_MenuGameState)
    as [gs'|] eqn:Hrun; [|vm_compute in Hrun; discriminate Hrun].
  destruct (css_event_costume sample_menu _ sample_MenuGameState gs' 8 Hrun)
    with (port := 3) as (p & Hp & Hcostume);
    [vm_compute; reflexivity | right; reflexivity | lia |].
  exists gs', p. split; [reflexivity|]. split; [exact Hp|].
  rewrite Hcostume. vm_compute. reflexivity.
Defined.
